(** * mergebot: the logged subprocess layer, the changelog filter and the
      merge-and-build pipeline

    A shallow embedding of the Go sources

      - [filter_changelog.go]      (package main)
      - [loggedexec/loggedexec.go] (package loggedexec)
      - [getpatch.go]              (package main)
      - [mergebot.go]              (package main)

    Go strings are byte sequences: they are modelled by [string], whose
    characters are the 256 values of [ascii].  The file system, the clock,
    the ambient environment and the child processes are explicit inputs of
    the operations that use them. *)

From Stdlib Require Import ZArith NArith Ascii String List Bool Lia.
From stdpp Require Import base option list strings gmap.

Local Open Scope stdpp_scope.

(** ** Bytes with a name *)

Definition LF : ascii := "010"%char.
Definition CR : ascii := "013"%char.
Definition TAB : ascii := "009"%char.
Definition SLASH : ascii := "/"%char.
Definition nl : string := String LF EmptyString.

(** ** Package strings *)

Module strings.

(** [strings.HasPrefix(s, prefix)] *)
Fixpoint HasPrefix (s prefix : string) : bool :=
  match prefix, s with
  | EmptyString, _ => true
  | String _ _, EmptyString => false
  | String p prefix', String c s' =>
      if Ascii.eqb c p then HasPrefix s' prefix' else false
  end.

(** [s[n:]] for [n <= len(s)] *)
Fixpoint drop (n : nat) (s : string) : string :=
  match n, s with
  | O, _ => s
  | S _, EmptyString => EmptyString
  | S n', String _ s' => drop n' s'
  end.

(** [strings.Contains(s, substr)] *)
Fixpoint Contains (s substr : string) : bool :=
  if HasPrefix s substr then true
  else match s with
       | EmptyString => false
       | String _ s' => Contains s' substr
       end.

(** [strings.Replace(s, old, new, 1)] for a non-empty [old]: the first
    occurrence of [old], scanning from the left, is replaced; without an
    occurrence [s] is returned as it is. *)
Fixpoint Replace1 (s old new : string) : string :=
  if HasPrefix s old then new +:+ drop (String.length old) s
  else match s with
       | EmptyString => EmptyString
       | String c s' => String c (Replace1 s' old new)
       end.

(** [strings.Join(a, sep)] *)
Fixpoint Join (a : list string) (sep : string) : string :=
  match a with
  | [] => EmptyString
  | [x] => x
  | x :: rest => x +:+ sep +:+ Join rest sep
  end.

(** [strings.IndexByte(s, c)]: [None] stands for -1. *)
Fixpoint IndexByte (s : string) (c : ascii) : option nat :=
  match s with
  | EmptyString => None
  | String d s' =>
      if Ascii.eqb d c then Some 0
      else match IndexByte s' c with
           | Some i => Some (S i)
           | None => None
           end
  end.

(** [s[:n]] for [n <= len(s)] *)
Fixpoint take (n : nat) (s : string) : string :=
  match n, s with
  | O, _ => EmptyString
  | S _, EmptyString => EmptyString
  | S n', String c s' => String c (take n' s')
  end.

(** [strings.Split(s, sep)] for a one-byte separator: the fields between
    the occurrences of [sep]; always at least one field. *)
Fixpoint SplitByte (s : string) (sep : ascii) : list string :=
  match s with
  | EmptyString => [EmptyString]
  | String c s' =>
      if Ascii.eqb c sep then EmptyString :: SplitByte s' sep
      else match SplitByte s' sep with
           | [] => [String c EmptyString]
           | f :: fs => String c f :: fs
           end
  end.

(** The white space of [unicode.IsSpace], as UTF-8 byte sequences:
    the six ASCII characters, U+0085, U+00A0, U+1680, U+2000..U+200A,
    U+2028, U+2029, U+202F, U+205F and U+3000. *)
Definition byte (n : nat) : ascii := ascii_of_nat n.

Definition spaces : list string :=
  map (fun n => String (byte n) EmptyString) [9; 10; 11; 12; 13; 32]
  ++ [ String (byte 194) (String (byte 133) EmptyString)
     ; String (byte 194) (String (byte 160) EmptyString)
     ; String (byte 225) (String (byte 154) (String (byte 128) EmptyString)) ]
  ++ map (fun n => String (byte 226) (String (byte 128) (String (byte n) EmptyString)))
         [128; 129; 130; 131; 132; 133; 134; 135; 136; 137; 138; 168; 169; 175]
  ++ [ String (byte 226) (String (byte 129) (String (byte 159) EmptyString))
     ; String (byte 227) (String (byte 128) (String (byte 128) EmptyString)) ].

(** The length of the white-space rune [s] starts with, if any. *)
Definition leadingSpace (s : string) : option nat :=
  String.length <$> List.find (HasPrefix s) spaces.

Fixpoint TrimLeftSpace (fuel : nat) (s : string) : string :=
  match fuel with
  | O => s
  | S fuel' =>
      match leadingSpace s with
      | Some n => TrimLeftSpace fuel' (drop n s)
      | None => s
      end
  end.

Definition rev (s : string) : string :=
  string_of_list_ascii (List.rev (list_ascii_of_string s)).

(** The length of the white-space rune [s] ends with, if any. *)
Definition trailingSpace (s : string) : option nat :=
  String.length <$> List.find (fun sp => HasPrefix (rev s) (rev sp)) spaces.

Fixpoint TrimRightSpace (fuel : nat) (s : string) : string :=
  match fuel with
  | O => s
  | S fuel' =>
      match trailingSpace s with
      | Some n => TrimRightSpace fuel' (take (String.length s - n) s)
      | None => s
      end
  end.

(** [strings.TrimSpace(s)]: every rune removed has at least one byte, so
    [len(s)] rounds are enough on either side. *)
Definition TrimSpace (s : string) : string :=
  let s1 := TrimLeftSpace (String.length s) s in
  TrimRightSpace (String.length s1) s1.

End strings.

(** ** Package path/filepath (Unix) *)

Module filepath.

(** One step of [Clean]: [stack] holds the elements kept so far, the last
    one first. *)
Definition cleanStep (rooted : bool) (stack : list string) (elem : string)
  : list string :=
  if String.eqb elem "" then stack
  else if String.eqb elem "." then stack
  else if String.eqb elem ".." then
    match stack with
    | top :: below =>
        if String.eqb top ".." then elem :: stack else below
    | [] => if rooted then stack else [elem]
    end
  else elem :: stack.

(** [filepath.Clean(path)]: empty and [.] elements are dropped, an inner
    [..] removes the element before it, a [..] at the root is dropped, and
    the empty result is [.]. *)
Definition Clean (path : string) : string :=
  let rooted := strings.HasPrefix path "/" in
  let stack := fold_left (cleanStep rooted) (strings.SplitByte path SLASH) [] in
  let body := strings.Join (List.rev stack) "/" in
  let out := if rooted then "/" +:+ body else body in
  if String.eqb out "" then "." else out.

(** [filepath.Join(elem...)]: the elements from the first non-empty one on,
    joined by the separator and cleaned; the empty string if all are
    empty. *)
Fixpoint Join (elem : list string) : string :=
  match elem with
  | [] => ""
  | e :: rest =>
      if String.eqb e "" then Join rest
      else Clean (strings.Join elem "/")
  end.

(** [path[:i+1]] where [i] is the index of the last separator ([-1]
    without one). *)
Definition upToLastSeparator (path : string) : string :=
  match List.rev (strings.SplitByte path SLASH) with
  | [] | [_] => ""
  | _ :: before => strings.Join (List.rev before) "/" +:+ "/"
  end.

(** [filepath.Dir(path)] *)
Definition Dir (path : string) : string := Clean (upToLastSeparator path).



End filepath.

(** ** Package fmt: the verbs the program formats integers with *)

Module fmt.

Definition digit (n : N) : ascii := ascii_of_N (48 + n).

Fixpoint itoaAux (fuel : nat) (n : N) (acc : string) : string :=
  match fuel with
  | O => acc
  | S fuel' =>
      let acc' := String (digit (n mod 10)) acc in
      if (n <? 10)%N then acc' else itoaAux fuel' (n / 10) acc'
  end.

(** [%d] of a non-negative integer; a number has at most
    [log2 n + 1] decimal digits. *)
Definition itoa (n : nat) : string :=
  let m := N.of_nat n in
  itoaAux (S (N.to_nat (N.log2 m))) m "".

Fixpoint repeatByte (c : ascii) (n : nat) : string :=
  match n with
  | O => EmptyString
  | S n' => String c (repeatByte c n')
  end.

(** [%<width>d] and [%0<width>d]: padded on the left up to [width]. *)
Definition padLeft (zero : bool) (width : nat) (s : string) : string :=
  repeatByte (if zero then "0"%char else " "%char) (width - String.length s) +:+ s.

Inductive scan :=
| Text
| Verb (zero : bool) (width : nat).

Definition isDigit (c : ascii) : bool :=
  let n := nat_of_ascii c in Nat.leb 48 n && Nat.leb n 57.

(** [fmt.Sprintf(format, n)] with one integer operand, for formats made of
    literal text, [%%] and the verbs [%d] and [%v] with an optional [0]
    flag and width.  As in Go a verb without an operand left prints
    [%!d(MISSING)] and an operand no verb used prints [%!(EXTRA int=n)];
    any other verb is printed as a verb that does not apply to an
    integer. *)
Fixpoint sprintfGo (format : string) (st : scan) (used : bool) (n : nat)
  : string :=
  match format with
  | EmptyString =>
      match st with
      | Text => if used then "" else "%!(EXTRA int=" +:+ itoa n +:+ ")"
      | Verb _ _ =>
          "%!(NOVERB)" +:+ (if used then "" else "%!(EXTRA int=" +:+ itoa n +:+ ")")
      end
  | String c rest =>
      match st with
      | Text =>
          if Ascii.eqb c "%"%char then sprintfGo rest (Verb false 0) used n
          else String c (sprintfGo rest Text used n)
      | Verb zero width =>
          if Ascii.eqb c "0"%char && negb zero && Nat.eqb width 0
          then sprintfGo rest (Verb true 0) used n
          else if isDigit c
          then sprintfGo rest (Verb zero (10 * width + (nat_of_ascii c - 48))) used n
          else if Ascii.eqb c "%"%char
          then String c (sprintfGo rest Text used n)
          else if Ascii.eqb c "d"%char || Ascii.eqb c "v"%char
          then (if used then String "%"%char (String "!"%char (String c "(MISSING)"))
                else padLeft zero width (itoa n))
               +:+ sprintfGo rest Text true n
          else (if used then String "%"%char (String "!"%char (String c "(MISSING)"))
                else String "%"%char (String "!"%char (String c ("(int=" +:+ itoa n +:+ ")"))))
               +:+ sprintfGo rest Text true n
      end
  end.

Definition Sprintf (format : string) (n : nat) : string :=
  sprintfGo format Text false n.

End fmt.

(** ** Package bufio: a [Scanner] with the default split function *)

Module bufio.

(** [bufio.MaxScanTokenSize] *)
Definition MaxScanTokenSize : N := 65536.

(** [dropCR]: a line loses one trailing carriage return. *)
Definition dropCR (line : string) : string :=
  match strings.rev line with
  | String c r => if Ascii.eqb c CR then strings.rev r else line
  | EmptyString => line
  end.

(** The data between the newlines; what follows the last newline is a line
    only when it is not empty. *)
Definition rawLines (data : string) : list string :=
  let fields := strings.SplitByte data LF in
  match List.rev fields with
  | last :: before =>
      if String.eqb last "" then List.rev before else fields
  | [] => fields
  end.

Definition ErrTooLong : string := "bufio.Scanner: token too long".

(** The tokens [Scan] delivers until it returns false, and [Err()] then:
    a line that does not fit the buffer ends the scan with [ErrTooLong]. *)
Fixpoint scanRaw (raw : list string) : list string * option string :=
  match raw with
  | [] => ([], None)
  | line :: rest =>
      if (N.of_nat (String.length line) <? MaxScanTokenSize)%N then
        let '(toks, err) := scanRaw rest in (dropCR line :: toks, err)
      else ([], Some ErrTooLong)
  end.

(** A scanner over a file with contents [data]; [readErr = Some (k, e)]
    makes the read that would deliver token number [k] fail with [e]. *)
Definition Scan (data : string) (readErr : option (nat * string))
  : list string * option string :=
  let '(toks, err) := scanRaw (rawLines data) in
  match readErr with
  | Some (k, e) =>
      if Nat.ltb k (length toks) then (List.firstn k toks, Some e)
      else (toks, err)
  | None => (toks, err)
  end.

End bufio.

(** [fmt.Fprintln(w, line)] for each line of [lines], in order *)
Fixpoint unlines (lines : list string) : string :=
  match lines with
  | [] => EmptyString
  | l :: rest => l +:+ nl +:+ unlines rest
  end.

(** ** filter_changelog.go: the loop over the lines *)

Module Filter.

(** The variables of the loop of [filterChangelog] and the lines printed
    to [output] so far. *)
Record state := State {
  lastSection : string;
  copyOnly : bool;
  lastLineEmpty : bool;
  output : list string
}.

Definition init : state :=
  {| lastSection := ""; copyOnly := false; lastLineEmpty := false; output := [] |}.

Definition Fprintln (st : state) (line : string) : state :=
  {| lastSection := lastSection st; copyOnly := copyOnly st;
     lastLineEmpty := lastLineEmpty st; output := output st ++ [line] |}.

(** One iteration of [for scanner.Scan() { ... }] with
    [text = scanner.Text()]. *)
Definition step (st : state) (text : string) : state :=
  if copyOnly st then Fprintln st text
  else
    let lineEmpty := String.eqb text "" in
    if strings.HasPrefix text "  [ " then
      {| lastSection := text; copyOnly := copyOnly st;
         lastLineEmpty := lastLineEmpty st; output := output st |}
    else
      let st1 := if strings.HasPrefix text "  * "
                 then Fprintln st (lastSection st) else st in
      let co := if strings.HasPrefix text " -- " then true else copyOnly st1 in
      let st2 := if lastLineEmpty st1 && lineEmpty then st1
                 else Fprintln st1 text in
      {| lastSection := lastSection st2; copyOnly := co;
         lastLineEmpty := lineEmpty; output := output st2 |}.

Definition loop (st : state) (lines : list string) : state :=
  fold_left step lines st.

(** The lines written to the temporary file for the scanned [lines]. *)
Definition filterLines (lines : list string) : list string :=
  output (loop init lines).

End Filter.


(** ** The operating system, as the program sees it *)

(** Go's [error]: [Ok] is a nil error. *)
Inductive result (A : Type) : Type :=
| Ok (a : A)
| Err (e : string).
Arguments Ok {A} a.
Arguments Err {A} e.

(** What one started process does: it may fail to start; otherwise it
    writes [chunks] to its standard output and standard error, in this
    order, and [Wait] returns [status] (nil for exit status 0). *)
Inductive Child :=
| FailedToStart (e : string)
| Ran (chunks : list string) (status : option string).

(** What happens to the file system and to the terminal.  [Started] has
    the arguments, the working directory ([""] for the one of the program)
    and the environment the process is given. *)
Inductive event :=
| Printed (line : string)
| Created (path : string)
| Wrote (path data : string)
| Renamed (old new : string)
| Removed (path : string)
| MadeDir (path : string)
| Started (args : list string) (dir : string) (env : list string)
| Exited (status : option string)
| Died.

Record FS := MkFS {
  files : gmap string string;
  dirs : gset string
}.

Definition applyEvent (e : event) (fs : FS) : FS :=
  match e with
  | Created path => MkFS (<[path := EmptyString]> (files fs)) (dirs fs)
  | Wrote path data =>
      MkFS (alter (fun old => old +:+ data) path (files fs)) (dirs fs)
  | Renamed old new =>
      match files fs !! old with
      | Some data => MkFS (<[new := data]> (delete old (files fs))) (dirs fs)
      | None => fs
      end
  | Removed path => MkFS (delete path (files fs)) (dirs fs)
  | MadeDir path => MkFS (files fs) ({[path]} ∪ dirs fs)
  | Printed _ | Started _ _ _ | Exited _ | Died => fs
  end.

(** getpatch.go: [patch], and how a call of [getMostRecentPatch] ends.  The
    function talks to the bug tracker and decodes its answer; it returns a
    patch, returns an error, or stops the program through [log.Fatal] (lines
    78 to 80 and 117). *)
Module getpatch.

Record patch := MkPatch {
  Author : string;
  Subject : string;
  Data : string
}.

Inductive fetched :=
| Fetched (p : patch)
| FetchFailed (e : string)
| FetchFatal (msg : string).

End getpatch.

(** The part of the machine the program does not control.  Operations are
    numbered as they are issued; [fault n = Some e] makes operation [n] fail
    with [e], [now n] is the clock when operation [n] reads it, [suffixes n]
    are the random suffixes operation [n] tries for a temporary name,
    [child n] is the process operation [n] starts, [readErr n] a failure
    while reading the file operation [n] opened and [digest n] the SHA-256
    digest, as [%.16x] prints it, of the file operation [n] read.  The
    files the child processes make are not followed: what the program reads
    from them enters here. *)
Record Host := MkHost {
  fault : nat -> option string;
  now : nat -> Z;
  suffixes : nat -> list string;
  child : nat -> Child;
  readErr : nat -> option (nat * string);
  digest : nat -> string;
  patchService : string -> string -> getpatch.fetched;
  args0 : string;
  environ : list (string * string);
  wd : string
}.

(** The state a run threads: the file system at the start, the events so
    far (the latest first), the number of the next operation and the
    invocation counter of package loggedexec. *)
Record World := MkWorld {
  fs0 : FS;
  past : list event;
  tick : nat;
  cmdCount : nat
}.

(** The file system after the events in [evs] (the latest first). *)
Definition replay (fs : FS) (evs : list event) : FS :=
  foldr applyEvent fs evs.

Definition fsOf (w : World) : FS := replay (fs0 w) (past w).

Definition M (A : Type) : Type := World -> A * World.

#[global] Instance M_ret : MRet M := fun A a w => (a, w).
#[global] Instance M_bind : MBind M :=
  fun A B k m w => let '(a, w') := m w in k a w'.

(** [x, err := m; if err != nil { return err }; k x] *)
Definition orReturn {A B} (m : M (result A)) (k : A -> M (result B))
  : M (result B) :=
  r ← m; match r with Ok a => k a | Err e => mret (Err e) end.

Notation "x ←? m ; k" := (orReturn m (fun x => k))
  (at level 20, m at level 100, k at level 200, right associativity,
   only parsing).

Definition emit (e : event) : M unit :=
  fun w => (tt, MkWorld (fs0 w) (e :: past w) (tick w) (cmdCount w)).

Definition nextOp : M nat :=
  fun w => (tick w, MkWorld (fs0 w) (past w) (S (tick w)) (cmdCount w)).

Definition getFS : M FS := fun w => (fsOf w, w).

(** Every operation that can fail asks [fault] under its own number. *)
Definition fallible (h : Host) : M (option string) :=
  n ← nextOp; mret (fault h n).

Module os.

(** [os.LookupEnv(key)]: the first mention of a key counts. *)
Fixpoint LookupEnv (env : list (string * string)) (key : string)
  : option string :=
  match env with
  | [] => None
  | (k, v) :: rest => if String.eqb k key then Some v else LookupEnv rest key
  end.

(** [os.Getenv(key)] *)
Definition Getenv (env : list (string * string)) (key : string) : string :=
  default EmptyString (LookupEnv env key).

(** [os.Environ()] *)
Definition Environ (env : list (string * string)) : list string :=
  map (fun kv => fst kv +:+ "=" +:+ snd kv) env.

(** [os.TempDir()] *)
Definition TempDir (h : Host) : string :=
  let dir := Getenv (environ h) "TMPDIR" in
  if String.eqb dir "" then "/tmp" else dir.

(** [os.Getwd()] *)
Definition Getwd (h : Host) : M (result string) :=
  e ← fallible h;
  mret (match e with Some e => Err e | None => Ok (wd h) end).

(** [time.Now()], in nanoseconds *)
Definition Now (h : Host) : M Z :=
  n ← nextOp; mret (now h n).

(** [os.OpenFile(path, os.O_RDWR|os.O_CREATE|os.O_TRUNC, 0600)] *)
Definition OpenFileTrunc (h : Host) (path : string) : M (result unit) :=
  e ← fallible h;
  match e with
  | Some e => mret (Err e)
  | None => _ ← emit (Created path); mret (Ok tt)
  end.

(** [os.Open(path)] followed by a [bufio.Scanner] over the file: the
    tokens the scanner delivers and its [Err()] *)
Definition OpenAndScan (h : Host) (path : string)
  : M (result (list string * option string)) :=
  n ← nextOp;
  fs ← getFS;
  mret (match fault h n with
        | Some e => Err e
        | None =>
            match files fs !! path with
            | Some data => Ok (bufio.Scan data (readErr h n))
            | None => Err ("open " +:+ path +:+ ": no such file or directory")
            end
        end).

(** [File.Close()] *)
Definition Close (h : Host) : M (result unit) :=
  e ← fallible h;
  mret (match e with Some e => Err e | None => Ok tt end).

(** [os.Rename(oldpath, newpath)] *)
Definition Rename (h : Host) (oldpath newpath : string) : M (result unit) :=
  e ← fallible h;
  match e with
  | Some e => mret (Err e)
  | None => _ ← emit (Renamed oldpath newpath); mret (Ok tt)
  end.

(** [os.Remove(name)] with its error dropped, as a deferred call has it *)
Definition Remove (h : Host) (name : string) : M unit :=
  e ← fallible h;
  match e with
  | Some _ => mret tt
  | None => emit (Removed name)
  end.

End os.

Module ioutil.

(** [ioutil.WriteFile(filename, data, 0600)]: the file is created or
    truncated, then written; when the write fails the file stays as the open
    left it. *)
Definition WriteFile (h : Host) (filename data : string) : M (result unit) :=
  e ← fallible h;
  match e with
  | Some e => mret (Err e)
  | None =>
      _ ← emit (Created filename);
      e ← fallible h;
      match e with
      | Some e => mret (Err e)
      | None => _ ← emit (Wrote filename data); mret (Ok tt)
      end
  end.

(** The first name [prefix+suffix] in [dir] that [taken] does not hold, over
    the suffixes tried in turn. *)
Definition freshName (taken : string -> bool) (dir pfx : string)
  (tries : list string) : option string :=
  List.find (fun name => negb (taken name))
            (map (fun sfx => filepath.Join [dir; pfx +:+ sfx]) tries).

(** [ioutil.TempFile(dir, prefix)] for a non-empty [dir]: a new file, opened
    with [O_EXCL], under the first name that is free. *)
Definition TempFile (h : Host) (dir pfx : string) : M (result string) :=
  n ← nextOp;
  fs ← getFS;
  match fault h n with
  | Some e => mret (Err e)
  | None =>
      match freshName (fun name => bool_decide (is_Some (files fs !! name)))
                      dir pfx (suffixes h n) with
      | Some name => _ ← emit (Created name); mret (Ok name)
      | None => mret (Err "file exists")
      end
  end.

(** [ioutil.TempDir(dir, prefix)]; an empty [dir] stands for
    [os.TempDir()]. *)
Definition TempDir (h : Host) (dir pfx : string) : M (result string) :=
  n ← nextOp;
  fs ← getFS;
  let dir := if String.eqb dir "" then os.TempDir h else dir in
  match fault h n with
  | Some e => mret (Err e)
  | None =>
      match freshName (fun name => bool_decide (is_Some (files fs !! name))
                                   || bool_decide (name ∈ dirs fs))
                      dir pfx (suffixes h n) with
      | Some name => _ ← emit (MadeDir name); mret (Ok name)
      | None => mret (Err "file exists")
      end
  end.

End ioutil.

(** The library functions of Go that print values the model keeps
    abstract: [strconv.Quote] (the verb [%q]), [Time.String] and
    [Duration.String] (the verb [%v]). *)
Class Formats := MkFormats {
  Quote : string -> string;
  TimeString : Z -> string;
  DurationString : Z -> string
}.

Definition dquote : string := String (ascii_of_nat 34) EmptyString.
Definition tab : string := String TAB EmptyString.

(** ** filter_changelog.go *)

(** [fmt.Fprintln(output, line)] for each line, in order *)
Fixpoint printLines (output : string) (lines : list string) : M unit :=
  match lines with
  | [] => mret tt
  | line :: rest =>
      _ ← emit (Wrote output (line +:+ nl)); printLines output rest
  end.

(** The body of [filterChangelog] after [defer os.Remove(output.Name())] *)
Definition filterInto (h : Host) (path output : string) : M (result unit) :=
  scanned ←? os.OpenAndScan h path;
  let '(lines, scanErr) := scanned in
  _ ← printLines output (Filter.filterLines lines);
  match scanErr with
  | Some e => mret (Err e)
  | None =>
      _ ←? os.Close h;
      os.Rename h output path
  end.

Definition filterChangelog (h : Host) (path : string) : M (result unit) :=
  output ←? ioutil.TempFile h (filepath.Dir path) ".mergebot-";
  r ← filterInto h path output;
  _ ← os.Remove h output;
  mret r.

(** ** loggedexec/loggedexec.go *)

Module loggedexec.

(** [LoggedCmd] with the fields of the embedded [exec.Cmd] that [Run]
    reads.  [exec.Command(name, arg...)] sets [Args] to [name] followed by
    [arg]; the record keeps the two apart, so that [Args[0]] always exists.
    A nil [Env] is [None]. *)
Record LoggedCmd := MkLoggedCmd {
  Name : string;
  Arg : list string;
  Env : option (list string);
  Dir : string;
  LogDir : string;
  LogFmt : string
}.

Definition Args (l : LoggedCmd) : list string := Name l :: Arg l.

(** [Command(name, arg...)] *)
Definition Command (name : string) (arg : list string) : LoggedCmd :=
  {| Name := name; Arg := arg; Env := None; Dir := EmptyString;
     LogDir := EmptyString; LogFmt := "%03d-" |}.

(** [append(cmd.Env, entry)] *)
Definition appendEnv (l : LoggedCmd) (entry : string) : LoggedCmd :=
  {| Name := Name l; Arg := Arg l;
     Env := Some (default [] (Env l) ++ [entry]);
     Dir := Dir l; LogDir := LogDir l; LogFmt := LogFmt l |}.

Definition withLogDir (l : LoggedCmd) (dir : string) : LoggedCmd :=
  {| Name := Name l; Arg := Arg l; Env := Env l;
     Dir := Dir l; LogDir := dir; LogFmt := LogFmt l |}.

Definition withDir (l : LoggedCmd) (dir : string) : LoggedCmd :=
  {| Name := Name l; Arg := Arg l; Env := Env l;
     Dir := dir; LogDir := LogDir l; LogFmt := LogFmt l |}.

(** The environment [os/exec] gives the process: [Env], or the environment
    of the current process when [Env] is nil. *)
Definition childEnviron (h : Host) (l : LoggedCmd) : list string :=
  match Env l with
  | Some env => env
  | None => os.Environ (environ h)
  end.

Record capturingWriter := MkCapturingWriter {
  Data : string;
  newlineSeen : bool
}.

(** [bytes.LastIndexByte(p, c)]: [None] stands for -1. *)
Fixpoint LastIndexByte (p : string) (c : ascii) : option nat :=
  match p with
  | EmptyString => None
  | String d p' =>
      match LastIndexByte p' c with
      | Some i => Some (S i)
      | None => if Ascii.eqb d c then Some 0 else None
      end
  end.

Definition Write (c : capturingWriter) (p : string) : capturingWriter :=
  if newlineSeen c then c
  else {| Data := Data c +:+ p;
          newlineSeen := bool_decide (LastIndexByte p LF <> None) |}.

Definition FirstLine (c : capturingWriter) : string :=
  let s := Data c in
  match strings.IndexByte s LF with
  | None => s
  | Some idx => strings.take idx s
  end.

Definition quoteStrings (input : list string) : list string :=
  map (fun val => dquote +:+ val +:+ dquote) input.

(** Lines 106 to 111: the current count is taken and the counter
    incremented, with the mutex held. *)
Definition takeCount : M nat :=
  fun w => (cmdCount w, MkWorld (fs0 w) (past w) (tick w) (S (cmdCount w))).

(** [logPrefix] for the invocation with sequence index [n] *)
Definition logPrefix (h : Host) (l : LoggedCmd) (n : nat) : string :=
  let logDir := if String.eqb (LogDir l) "" then os.TempDir h else LogDir l in
  filepath.Join [logDir; fmt.Sprintf (LogFmt l) n +:+ Name l].

Definition invocationLogPath (h : Host) (l : LoggedCmd) (n : nat) : string :=
  logPrefix h l n +:+ ".invocation.log".

Definition logPath (h : Host) (l : LoggedCmd) (n : nat) : string :=
  logPrefix h l n +:+ ".stdoutstderr.log".

Definition stillRunning : string := "(Still running…)".

Section Run.

Context `{Formats} (h : Host).

(** The invocation log as first formatted (lines 124 to 134) *)
Definition invocationLog (l : LoggedCmd) (started : Z) (workDir : string)
  : string :=
  "Execution started: " +:+ TimeString started +:+ nl +:+
  "Working directory: " +:+ Quote workDir +:+ nl +:+
  "Command (" +:+ fmt.itoa (length (Args l)) +:+ " elements):" +:+ nl +:+ tab +:+
    strings.Join (quoteStrings (Args l)) (nl +:+ tab) +:+ nl +:+
  "Environment (" +:+ fmt.itoa (length (default [] (Env l))) +:+ " elements):" +:+ nl +:+ tab +:+
    strings.Join (quoteStrings (default [] (Env l))) (nl +:+ tab) +:+ nl.

(** The line appended after the process is gone (lines 157 to 160) *)
Definition finishLine (started finished : Z) : string :=
  "Execution finished: " +:+ TimeString finished +:+
  " (duration: " +:+ DurationString (finished - started) +:+ ")".

(** The output of the process reaches [logWriter] chunk by chunk: each
    chunk goes to the log file, then to the capturing writer. *)
Fixpoint copyOutput (logFile : string) (chunks : list string)
  (cw : capturingWriter) : M capturingWriter :=
  match chunks with
  | [] => mret cw
  | p :: rest =>
      _ ← emit (Wrote logFile p);
      copyOutput logFile rest (Write cw p)
  end.

(** [l.Cmd.Run()], with standard output and standard error going to
    [logWriter].  A sink the caller has put in [Stdout] or [Stderr] gets a
    copy of every chunk and has no part in what [Run] writes or returns; it
    is left out. *)
Definition cmdRun (l : LoggedCmd) (logFile : string)
  : M (option string * capturingWriter) :=
  n ← nextOp;
  let cw := {| Data := EmptyString; newlineSeen := false |} in
  match child h n with
  | FailedToStart e => mret (Some e, cw)
  | Ran chunks status =>
      _ ← emit (Started (Args l) (Dir l) (childEnviron h l));
      cw ← copyOutput logFile chunks cw;
      _ ← emit (Exited status);
      mret (status, cw)
  end.

(** The error [Run] wraps a failure of the process in (lines 178 to 186) *)
Definition runError (commandline runErr invocationLogPath logPath
  firstLogLine : string) : string :=
  "Running " +:+ Quote commandline +:+ ": " +:+ runErr +:+ nl +:+
  "See " +:+ Quote invocationLogPath +:+ " for invocation details." +:+ nl +:+
  "See " +:+ Quote logPath +:+ " for full stdout/stderr." +:+ nl +:+
  "First stdout/stderr line: " +:+ Quote firstLogLine +:+ nl.

(** [Run] from line 112 on, for the invocation with sequence index [n] *)
Definition runWith (l : LoggedCmd) (n : nat) : M (result unit) :=
  let commandline := strings.Join (Args l) " " in
  let invocationLogPath := invocationLogPath h l n in
  let logPath := logPath h l n in
  workDir ←? (if String.eqb (Dir l) "" then os.Getwd h else mret (Ok (Dir l)));
  started ← os.Now h;
  let invocationLog := invocationLog l started workDir in
  _ ←? ioutil.WriteFile h invocationLogPath (invocationLog +:+ stillRunning);
  _ ←? os.OpenFileTrunc h logPath;
  ran ← cmdRun l logPath;
  let '(runErr, cw) := ran in
  finished ← os.Now h;
  let invocationLog := invocationLog +:+ finishLine started finished in
  f ←? ioutil.TempFile h (filepath.Dir invocationLogPath) ".invocation-log-";
  _ ← emit (Wrote f (invocationLog +:+ nl));
  _ ←? os.Close h;
  _ ←? os.Rename h f invocationLogPath;
  match runErr with
  | None => mret (Ok tt)
  | Some e =>
      mret (Err (runError commandline e invocationLogPath logPath (FirstLine cw)))
  end.

(** [Run] together with the sequence index it took *)
Definition RunIndexed (l : LoggedCmd) : M (nat * result unit) :=
  _ ← emit (Printed (strings.Join (Args l) " "));
  n ← takeCount;
  r ← runWith l n;
  mret (n, r).

(** [(l *LoggedCmd) Run()] *)
Definition Run (l : LoggedCmd) : M (result unit) :=
  nr ← RunIndexed l; mret (snd nr).

End Run.

End loggedexec.

(** ** mergebot.go *)

Module mergebot.

Import loggedexec.

Definition patchFileName : string := "latest.patch".

(** The flags [-source_package] and [-bug] *)
Record Flags := MkFlags {
  sourcePackage : string;
  bug : string
}.

(** The value of the variable [newCommand] *)
Definition factory : Type := string -> list string -> LoggedCmd.

(** How a function that may call [log.Fatal] ends *)
Inductive ending (A : Type) : Type :=
| Returned (a : A)
| Exit (msg : string).
Arguments Returned {A} a.
Arguments Exit {A} msg.

Definition passthrough : list string :=
  ["DEBFULLNAME"; "DEBEMAIL"; "SSH_AGENT_PID"; "GPG_AGENT_INFO"; "SSH_AUTH_SOCK"].

(** The loop of lines 280 to 284 over the variables still to look at *)
Fixpoint forwardEnv (env : list (string * string)) (variables : list string)
  (cmd : LoggedCmd) : LoggedCmd :=
  match variables with
  | [] => cmd
  | variable :: rest =>
      match os.LookupEnv env variable with
      | Some value => forwardEnv env rest (appendEnv cmd (variable +:+ "=" +:+ value))
      | None => forwardEnv env rest cmd
      end
  end.

(** [newCommand] as [mergeAndBuild] first binds it (lines 275 to 286) *)
Definition tempDirCommand (h : Host) (tempDir : string) : factory :=
  fun name arg =>
    let cmd := Command name arg in
    let cmd := withLogDir cmd tempDir in
    forwardEnv (environ h) passthrough cmd.

(** [newCommand] as bound the second time (lines 308 to 313) *)
Definition checkoutCommand (previousNewCommand : factory) (checkoutDir : string)
  : factory :=
  fun name arg => withDir (previousNewCommand name arg) checkoutDir.

(** The rewriting of lines 166 to 170 *)
Definition rewriteURL (url : string) : string :=
  if strings.Contains url "anonscm.debian.org" then
    let url := strings.Replace1 url "git" "git+ssh" in
    let url := strings.Replace1 url "anonscm.debian.org" "git.debian.org" in
    strings.Replace1 url "debian.org" "debian.org/git"
  else url.

Section Pipeline.

Context `{Formats} (h : Host).

(** [cmd.Output()]: the method of the embedded [exec.Cmd]; the command is
    run without [LoggedCmd.Run], and what it wrote is returned. *)
Definition Output (cmd : LoggedCmd) : M (result string) :=
  n ← nextOp;
  match child h n with
  | FailedToStart e => mret (Err e)
  | Ran chunks status =>
      _ ← emit (Started (Args cmd) (Dir cmd) (childEnviron h cmd));
      _ ← emit (Exited status);
      mret (match status with
            | None => Ok (fold_right String.append EmptyString chunks)
            | Some e => Err e
            end)
  end.

(** What [%v] prints for a slice of strings *)
Definition showStrings (l : list string) : string :=
  "[" +:+ strings.Join l " " +:+ "]".

Definition repositoryFor (newCommand : factory) (sourcePackage : string)
  : M (result (string * string)) :=
  let cmd := newCommand "debcheckout" ["--print"; sourcePackage] in
  output ←? Output cmd;
  let parts := strings.SplitByte (strings.TrimSpace output) TAB in
  match parts with
  | [scm; url] => mret (Ok (scm, rewriteURL url))
  | _ =>
      mret (Err ("Unexpected command output: " +:+ showStrings (Args cmd) +:+
                 " returned " +:+ Quote output +:+ " (split into " +:+
                 showStrings parts +:+ "), expected 2 parts"))
  end.

(** The loop of lines 201 to 206 *)
Fixpoint gitConfig (newCommand : factory) (gitConfigArgs : list (list string))
  : M (result unit) :=
  match gitConfigArgs with
  | [] => mret (Ok tt)
  | configArgs :: rest =>
      _ ←? Run h (newCommand "git" ("config" :: configArgs));
      gitConfig newCommand rest
  end.

Definition gitCheckout (newCommand : factory) (dst src : string)
  : M (result unit) :=
  wd ←? os.Getwd h;
  let cmd := withDir (newCommand "gbp" ["clone"; "--pristine-tar"; src; dst]) wd in
  _ ←? Run h cmd;
  let gitConfigArgs :=
    [ ["push.default"; "matching"]
    ; ["--add"; "remote.origin.push"; "+refs/heads/*:refs/heads/*"]
    ; ["--add"; "remote.origin.push"; "+refs/tags/*:refs/tags/*"] ] in
  let debfullname := os.Getenv (environ h) "DEBFULLNAME" in
  let gitConfigArgs :=
    if String.eqb debfullname "" then gitConfigArgs
    else gitConfigArgs ++ [["user.name"; debfullname]] in
  let debemail := os.Getenv (environ h) "DEBEMAIL" in
  let gitConfigArgs :=
    if String.eqb debemail "" then gitConfigArgs
    else gitConfigArgs ++ [["user.email"; debemail]] in
  gitConfig newCommand gitConfigArgs.

Definition applyPatch (newCommand : factory) : M (result unit) :=
  Run h (newCommand "patch" ["-p1"; "-i"; filepath.Join [".."; patchFileName]]).

Definition gitCommit (newCommand : factory) (author message : string)
  : M (result unit) :=
  _ ←? Run h (newCommand "git" ["add"; "."]);
  Run h (newCommand "git" ["commit"; "-a"; "--author"; author; "--message"; message]).

(** [sha256of(path)]: the file is opened and read; its digest is the
    host's. *)
Definition sha256of (path : string) : M (result string) :=
  n ← nextOp;
  mret (match fault h n with
        | Some e => Err e
        | None => Ok (digest h n)
        end).

(** [filepath.Abs(path)] *)
Definition Abs (path : string) : M (result string) :=
  if strings.HasPrefix path "/" then mret (Ok (filepath.Clean path))
  else wd ←? os.Getwd h; mret (Ok (filepath.Join [wd; path])).

Definition releaseChangelog (newCommand : factory) : M (result unit) :=
  let cmd := newCommand "gbp" ["dch"; "--release"; "--git-author"; "--commit"] in
  self ←? Abs (args0 h);
  let cmd := appendEnv cmd ("VISUAL=" +:+ self +:+ " -filter_changelog") in
  Run h cmd.

Definition buildPackage (newCommand : factory) : M (result unit) :=
  Run h (newCommand "gbp"
           ["buildpackage"; "--git-tag"; "--git-export-dir=../export";
            "--git-builder=sbuild -v -As --dist=unstable"]).

(** [x, err := m; if err != nil { return tempDir, err }; k x] *)
Definition orReturnDir {A} (tempDir : string) (m : M (result A))
  (k : A -> M (ending (string * option string)))
  : M (ending (string * option string)) :=
  r ← m;
  match r with
  | Ok a => k a
  | Err e => mret (Returned (tempDir, Some e))
  end.

Notation "x ←[ d ] m ; k" := (orReturnDir d m (fun x => k))
  (at level 20, m at level 100, k at level 200, right associativity,
   only parsing).

(** [mergeAndBuild] from line 275 on, with the temporary directory made *)
Definition stages (flags : Flags) (url tempDir : string)
  : M (ending (string * option string)) :=
  let newCommand := tempDirCommand h tempDir in
  match patchService h url (bug flags) with
  | getpatch.FetchFatal msg => _ ← emit Died; mret (Exit msg)
  | getpatch.FetchFailed e => mret (Returned (tempDir, Some e))
  | getpatch.Fetched patch =>
      _ ←[tempDir] ioutil.WriteFile h (filepath.Join [tempDir; patchFileName])
                     (getpatch.Data patch);
      repo ←[tempDir] repositoryFor newCommand (sourcePackage flags);
      let '(scm, url) := repo in
      if negb (String.eqb scm "git") then
        mret (Returned (tempDir,
                Some ("mergebot only supports git currently, but " +:+
                      Quote url +:+ " is using the SCM " +:+ Quote scm)))
      else
      let checkoutDir := filepath.Join [tempDir; "repo"] in
      let previousNewCommand := newCommand in
      let newCommand := checkoutCommand previousNewCommand checkoutDir in
      _ ←[tempDir] gitCheckout newCommand checkoutDir url;
      let changelogPath := filepath.Join [checkoutDir; "debian"; "changelog"] in
      oldChangelogSum ←[tempDir] sha256of changelogPath;
      _ ←[tempDir] applyPatch newCommand;
      let patchCommitMessage :=
        "Fix for “" +:+ getpatch.Subject patch +:+ "” (Closes: #" +:+ bug flags +:+ ")" in
      _ ←[tempDir] gitCommit newCommand (getpatch.Author patch) patchCommitMessage;
      newChangelogSum ←[tempDir] sha256of changelogPath;
      _ ← (if String.eqb newChangelogSum oldChangelogSum then mret tt
           else emit (Printed (Quote changelogPath +:+ " changed")));
      _ ←[tempDir] releaseChangelog newCommand;
      _ ←[tempDir] buildPackage newCommand;
      mret (Returned (tempDir, None))
  end.

(** [mergeAndBuild(url)]: the directory and the error it returns, unless
    the program is stopped before. *)
Definition mergeAndBuild (flags : Flags) (url : string)
  : M (ending (string * option string)) :=
  t ← ioutil.TempDir h "" "mergebot-";
  match t with
  | Err e => mret (Returned (EmptyString, Some e))
  | Ok tempDir => stages flags url tempDir
  end.

End Pipeline.

End mergebot.

(** ** mergebot.go: [main] *)

(** [strings.TrimPrefix(s, prefix)] *)
Definition TrimPrefix (s pfx : string) : string :=
  if strings.HasPrefix s pfx then strings.drop (String.length pfx) s else s.

Definition soapAddress : string := "https://bugs.debian.org/cgi-bin/soap.cgi".

Section Main.

Context `{Formats} (h : Host).

Import mergebot.

(** [log.Fatal(msg)]: the program prints [msg] and exits. *)
Definition Fatal (msg : string) : M (ending unit) :=
  _ ← emit Died; mret (Exit msg).

(** [main()] after [flag.Parse()]: [flags] are the values of
    [-source_package] and [-bug], [filterChangelogMode] the value of
    [-filter_changelog] and [args] the arguments that are not flags. *)
Definition main (flags : Flags) (filterChangelogMode : bool)
  (args : list string) : M (ending unit) :=
  if filterChangelogMode then
    match args with
    | [path] =>
        r ← filterChangelog h path;
        match r with
        | Err e => Fatal e
        | Ok _ => mret (Returned tt)
        end
    | _ => Fatal ("Syntax: " +:+ args0 h +:+ " -filter_changelog <path>")
    end
  else
    let bug := TrimPrefix (bug flags) "#" in
    let flags := MkFlags (sourcePackage flags) bug in
    _ ← emit (Printed ("will work on package " +:+ Quote (sourcePackage flags)
                       +:+ ", bug " +:+ Quote bug));
    r ← mergeAndBuild h flags soapAddress;
    match r with
    | Exit msg => mret (Exit msg)
    | Returned (tempDir, Some e) => Fatal e
    | Returned (tempDir, None) =>
        _ ← emit (Printed "Merge and build successful!");
        _ ← emit (Printed "Please introspect the resulting Debian package and git repository, then push and upload:");
        _ ← emit (Printed ("cd " +:+ Quote tempDir));
        _ ← emit (Printed "(cd repo && git push)");
        _ ← emit (Printed "(cd export && debsign *.changes && dput *.changes)");
        mret (Returned tt)
    end.

End Main.

(** ** getpatch.go: [getMostRecentPatch] *)

(** The answer of the bug tracker as the libraries of Go present it.  The
    model keeps the libraries abstract: what they make of the bytes is an
    input. *)
Record response := MkResponse {
  StatusCode : nat;
  ContentType : string;
  Body : string
}.

(** An element of [r.Bugs] *)
Record bugMessage := MkBugMessage {
  MsgNum : Z;
  MsgBody : string;
  MsgHeader : string
}.

(** A part the multipart reader delivers: two of its headers, and what
    [ioutil.ReadAll] reads from it *)
Record mimePart := MkMimePart {
  ContentDisposition : string;
  ContentTransferEncoding : string;
  content : result string
}.

(** [http.Post(url, "", body)]; [mime.ParseMediaType(v)], with the
    parameters as a function that is empty where the map has no key;
    [xml.NewDecoder(body).Decode(&r)], with [r.Bugs]; the parts that
    [multipart.NewReader(body, boundary)] delivers until [NextPart] returns
    [io.EOF] ([None]) or an error; [mail.ReadMessage(text)], with the
    headers [From] and [Subject] of the message; and
    [base64.StdEncoding.DecodeString(s)], with the bytes decoded and the
    error. *)
Record Libraries := MkLibraries {
  Post : string -> string -> result response;
  ParseMediaType : string -> result (string * (string -> string));
  DecodeEnvelope : string -> result (list bugMessage);
  Parts : string -> string -> list mimePart * option string;
  ReadMessage : string -> result (string * string);
  DecodeString : string -> string * option string
}.

Definition soapNamespace : string := "Debbugs/SOAP".

(** The request of lines 31 to 45 *)
Definition soapRequest (bug : string) : string :=
  let q s := dquote +:+ s +:+ dquote in
  "<?xml version=" +:+ q "1.0" +:+ " encoding=" +:+ q "UTF-8" +:+ "?>" +:+ nl +:+
  "<SOAP-ENV:Envelope" +:+ nl +:+
  "  SOAP-ENV:encodingStyle=" +:+ q "http://schemas.xmlsoap.org/soap/encoding/" +:+ nl +:+
  "  xmlns:SOAP-ENC=" +:+ q "http://schemas.xmlsoap.org/soap/encoding/" +:+ nl +:+
  "  xmlns:xsi=" +:+ q "http://www.w3.org/1999/XMLSchema-instance" +:+ nl +:+
  "  xmlns:SOAP-ENV=" +:+ q "http://schemas.xmlsoap.org/soap/envelope/" +:+ nl +:+
  "  xmlns:xsd=" +:+ q "http://www.w3.org/1999/XMLSchema" +:+ nl +:+
  ">" +:+ nl +:+
  "<SOAP-ENV:Body>" +:+ nl +:+
  "<ns1:get_bug_log xmlns:ns1=" +:+ q "Debbugs/SOAP" +:+ " SOAP-ENC:root=" +:+ q "1" +:+ ">" +:+ nl +:+
  "<v1 xsi:type=" +:+ q "xsd:int" +:+ ">" +:+ bug +:+ "</v1>" +:+ nl +:+
  "</ns1:get_bug_log>" +:+ nl +:+
  "</SOAP-ENV:Body>" +:+ nl +:+
  "</SOAP-ENV:Envelope>" +:+ nl.

Section Retrieval.

Context `{Formats} (lib : Libraries).

Import mergebot.

(** The zero value of [patch] *)
Definition noPatch : getpatch.patch := getpatch.MkPatch "" "" "".

(** What [getMostRecentPatch] returns, or the message it stops the program
    with, together with the lines it has logged *)
Definition retrieved : Type := list string * ending (getpatch.patch * option string).

Definition failed (e : string) : retrieved := ([], Returned (noPatch, Some e)).

(** [log.Printf(line)], then the rest of the loop *)
Definition logged (line : string) (rest : retrieved) : retrieved :=
  (line :: fst rest, snd rest).

(** The loop of lines 84 to 119 over the parts still to come; [eof] is how
    the reader ends after them. *)
Fixpoint nextPart (message : bugMessage) (parts : list mimePart)
  (eof : option string) : retrieved :=
  match parts with
  | [] =>
      match eof with
      | Some e => failed e
      | None => failed "No MIME part with Content-Disposition == attachment found"
      end
  | p :: rest =>
      match ParseMediaType lib (ContentDisposition p) with
      | Err e =>
          logged ("Skipping MIME part with invalid Content-Disposition header ("
                  +:+ e +:+ ")")
                 (nextPart message rest eof)
      | Ok (disposition, _) =>
          if negb (String.eqb disposition "attachment") then
            logged ("Skipping MIME part with unexpected Content-Disposition: got "
                    +:+ Quote disposition +:+ ", want " +:+ Quote "attachment")
                   (nextPart message rest eof)
          else if String.eqb (ContentTransferEncoding p) "base64" then
            match ReadMessage lib (MsgHeader message +:+ MsgBody message) with
            | Err e => failed e
            | Ok (from, subject) =>
                match content p with
                | Err e => ([], Returned (getpatch.MkPatch from subject "", Some e))
                | Ok encoded =>
                    let '(data, err) := DecodeString lib encoded in
                    ([], Returned (getpatch.MkPatch from subject data, err))
                end
            end
          else
            ([], Exit ("unsupported Content-Transfer-Encoding: %q"
                       +:+ ContentTransferEncoding p))
      end
  end.

Definition getMostRecentPatch (url bug : string) : retrieved :=
  match Post lib url (soapRequest bug) with
  | Err e => failed e
  | Ok resp =>
      if negb (Nat.eqb (StatusCode resp) 200) then
        failed ("Unexpected HTTP status code: got " +:+ fmt.itoa (StatusCode resp)
                +:+ ", want " +:+ fmt.itoa 200)
      else
        match ParseMediaType lib (ContentType resp) with
        | Err e => failed e
        | Ok (mediaType, params) =>
            if negb (strings.HasPrefix mediaType "multipart/") then
              failed ("Unexpected Content-Type: got " +:+ Quote (ContentType resp)
                      +:+ ", want multipart/*")
            else
              match DecodeEnvelope lib (Body resp) with
              | Err e => failed e
              | Ok bugs =>
                  match bugs with
                  | [message] =>
                      let '(parts, eof) := Parts lib (MsgBody message) (params "boundary") in
                      nextPart message parts eof
                  | _ => ([], Exit ("len(r.Bugs) = %d" +:+ fmt.itoa (length bugs)))
                  end
              end
        end
  end.

(** The outcome for [mergeAndBuild], which reads the patch only when there
    is no error *)
Definition fetchedBy (r : retrieved) : getpatch.fetched :=
  match snd r with
  | Returned (p, None) => getpatch.Fetched p
  | Returned (_, Some e) => getpatch.FetchFailed e
  | Exit msg => getpatch.FetchFatal msg
  end.

End Retrieval.

(** * The vocabulary of the properties *)

Arguments String.append : simpl nomatch.

(** ** Machines and files for the examples *)

(** Formats for the examples: text without quotes or escapes is quoted by
    putting it between double quotes; times and durations are printed as
    numbers of nanoseconds. *)
Definition plainFormats : Formats :=
  {| Quote := fun s => dquote +:+ s +:+ dquote;
     TimeString := fun t => fmt.itoa (Z.to_nat t);
     DurationString := fun d => fmt.itoa (Z.to_nat d) +:+ "ns" |}.

(** A machine on which nothing fails and every process is silent *)
Definition quietHost : Host :=
  {| fault := fun _ => None;
     now := fun n => Z.of_nat n;
     suffixes := fun n => ["123456789"];
     child := fun _ => Ran [] None;
     readErr := fun _ => None;
     digest := fun _ => "e3b0c44298fc1c14";
     patchService := fun _ _ => getpatch.FetchFailed "no service";
     args0 := "/usr/bin/mergebot";
     environ := [];
     wd := "/home/user" |}.

Definition worldOf (fs : list (string * string)) : World :=
  {| fs0 := MkFS (list_to_map fs) ∅; past := []; tick := 0; cmdCount := 0 |}.

Definition anonscmLine : string :=
  "git" +:+ tab +:+ "git://anonscm.debian.org/pkg.git" +:+ nl.

(** [ls /tmp/nope] as in the test of package loggedexec: the process writes
    its complaint in two chunks and exits with status 2. *)
Definition lsCmd : loggedexec.LoggedCmd :=
  loggedexec.appendEnv (loggedexec.Command "ls" ["/tmp/nope"]) "LANG=C".

Definition lsHost : Host :=
  {| fault := fun _ => None;
     now := fun n => Z.of_nat (100 * n);
     suffixes := fun _ => ["123456789"];
     child := fun _ =>
       Ran ["ls: cannot access /tmp/nope: No such";
            " file or directory" +:+ nl +:+ "total 0"]
           (Some "exit status 2");
     readErr := fun _ => None;
     digest := fun _ => "e3b0c44298fc1c14";
     patchService := fun _ _ => getpatch.FetchFailed "no service";
     args0 := "/usr/bin/mergebot";
     environ := [];
     wd := "/home/user" |}.



Definition debcheckoutHost : Host :=
  {| fault := fun _ => None;
     now := fun n => Z.of_nat (100 * n);
     suffixes := fun _ => ["123456789"];
     child := fun n => if Nat.eqb n 0 then Ran [anonscmLine] None else Ran [] None;
     readErr := fun _ => None;
     digest := fun _ => "e3b0c44298fc1c14";
     patchService := fun _ _ => getpatch.FetchFailed "no service";
     args0 := "/usr/bin/mergebot";
     environ := [];
     wd := "/home/user" |}.

Definition changelogWorld : World :=
  worldOf [("/r/debian/changelog", unlines ["pkg (1.0) unstable"; ""; ""; "  * x"])].

(** The changelog of [TestFilterChangelog] and what the test expects *)
Definition testChangelog : list string :=
  [ "wit (2.31a-3) unstable; urgency=medium"; "";
    "  [ Chris Lamb ]";
    "  * Fix for “wit: please make the build reproducible” (Closes: #831331)"; "";
    "  [ Michael Stapelberg ]"; "";
    " -- Michael Stapelberg <stapelberg@debian.org>  Sat, 16 Jul 2016 20:39:13 +0200"; "";
    "wit (2.31a-2) unstable; urgency=low"; "";
    "  [ Tobias Gruetzmacher ]";
    "  * Add zlib support (Closes: #815710)";
    "  * Don’t link wfuse against libdl"; "";
    " -- Michael Stapelberg <stapelberg@debian.org>  Tue, 23 Feb 2016 23:40:46 +0100" ].

Definition testFiltered : list string :=
  [ "wit (2.31a-3) unstable; urgency=medium"; "";
    "  [ Chris Lamb ]";
    "  * Fix for “wit: please make the build reproducible” (Closes: #831331)"; "";
    " -- Michael Stapelberg <stapelberg@debian.org>  Sat, 16 Jul 2016 20:39:13 +0200"; "";
    "wit (2.31a-2) unstable; urgency=low"; "";
    "  [ Tobias Gruetzmacher ]";
    "  * Add zlib support (Closes: #815710)";
    "  * Don’t link wfuse against libdl"; "";
    " -- Michael Stapelberg <stapelberg@debian.org>  Tue, 23 Feb 2016 23:40:46 +0100" ].

(** A machine on which none of the allow-listed variables is set *)
Definition bareHost (secret : string) : Host :=
  {| fault := fun _ => None;
     now := fun n => Z.of_nat (100 * n);
     suffixes := fun _ => ["123456789"];
     child := fun _ => Ran [] None;
     readErr := fun _ => None;
     digest := fun _ => "e3b0c44298fc1c14";
     patchService := fun _ _ => getpatch.FetchFailed "no service";
     args0 := "/usr/bin/mergebot";
     environ := [("HOME", "/root"); ("SECRET", secret)];
     wd := "/home/user" |}.

(** A machine whose bug tracker answers with two messages *)
Definition twoMessagesHost : Host :=
  {| fault := fun _ => None;
     now := fun n => Z.of_nat (100 * n);
     suffixes := fun _ => ["123456789"];
     child := fun _ => Ran [] None;
     readErr := fun _ => None;
     digest := fun _ => "e3b0c44298fc1c14";
     patchService := fun _ _ => getpatch.FetchFatal "len(r.Bugs) = 2";
     args0 := "/usr/bin/mergebot";
     environ := [("DEBFULLNAME", "Test Case"); ("DEBEMAIL", "test@case")];
     wd := "/home/user" |}.

(** The whole pipeline on a machine where everything works, as in
    [TestMergeAndBuild] *)
Definition testHost : Host :=
  {| fault := fun _ => None;
     now := fun n => Z.of_nat (100 * n);
     suffixes := fun _ => ["123456789"];
     child := fun n =>
       if Nat.eqb n 3
       then Ran ["git" +:+ tab +:+ "file:///tmp/minimal-debian-package/.git" +:+ nl] None
       else Ran [] None;
     readErr := fun _ => None;
     digest := fun _ => "e3b0c44298fc1c14";
     patchService := fun _ _ =>
       getpatch.Fetched
         (getpatch.MkPatch "Chris Lamb <lamby@debian.org>"
            "wit: please make the build reproducible" "--- a/x");
     args0 := "/usr/bin/mergebot";
     environ := [("DEBFULLNAME", "Test Case"); ("DEBEMAIL", "test@case")];
     wd := "/home/user" |}.

(** ** Relations between the world before and after a computation *)

Definition preserves {A} (R : World -> World -> Prop) (m : M A) : Prop :=
  forall w, R w (snd (m w)).

Definition sameCount (w w' : World) : Prop := cmdCount w' = cmdCount w.

Definition notRemoved (e : event) : Prop :=
  match e with
  | Removed _ => False
  | _ => True
  end.

(** The world after is the world before with more events, none of which
    removes a file. *)
Definition grows (w w' : World) : Prop :=
  fs0 w' = fs0 w
  /\ exists new, past w' = new ++ past w /\ Forall notRemoved new.

(** ** Successive invocations *)

Section RunAll.

Context `{Formats} (h : Host).

(** [Run] called for each command of [cmds] in turn; the result lists, in
    call order, the index each invocation took and what it returned. *)
Fixpoint runAll (cmds : list loggedexec.LoggedCmd)
  : M (list (nat * result unit)) :=
  match cmds with
  | [] => mret []
  | l :: rest =>
      nr ← loggedexec.RunIndexed h l;
      rs ← runAll rest;
      mret (nr :: rs)
  end.

End RunAll.

(** ** The first line of the output of a process *)

(** The text before the first newline of [s]; all of [s] without one. *)
Fixpoint beforeNewline (s : string) : string :=
  match s with
  | EmptyString => EmptyString
  | String c s' => if Ascii.eqb c LF then EmptyString else String c (beforeNewline s')
  end.


Fixpoint hasNewline (s : string) : bool :=
  match s with
  | EmptyString => false
  | String c s' => if Ascii.eqb c LF then true else hasNewline s'
  end.

(** The capturing writer after the chunks [chunks] *)
Definition captured (chunks : list string) (cw : loggedexec.capturingWriter)
  : loggedexec.capturingWriter :=
  fold_left loggedexec.Write chunks cw.

Definition concat (chunks : list string) : string :=
  fold_right String.append EmptyString chunks.

(** The writer has seen a newline exactly when its data holds one. *)
Definition consistent (cw : loggedexec.capturingWriter) : Prop :=
  loggedexec.newlineSeen cw = hasNewline (loggedexec.Data cw).

(** ** The events of one invocation *)

Definition touches (p : string) (e : event) : Prop :=
  match e with
  | Created q | Wrote q _ | Removed q => q = p
  | Renamed old new => old = p \/ new = p
  | _ => False
  end.

(** The files an event of an invocation may name, given the two logs *)
Definition namedFor (inv log : string) (e : event) : Prop :=
  match e with
  | Created p | Wrote p _ =>
      p = inv \/ p = log
      \/ exists sfx, p = filepath.Join [filepath.Dir inv; ".invocation-log-" +:+ sfx]
  | Renamed old new =>
      new = inv
      /\ exists sfx, old = filepath.Join [filepath.Dir inv; ".invocation-log-" +:+ sfx]
  | Started _ _ _ | Exited _ => True
  | Printed _ | Removed _ | MadeDir _ | Died => False
  end.


Section RunEvents.

Context `{Formats} (h : Host).

Import loggedexec.

(** The operation at which the clock is first read *)
Definition startOp (l : LoggedCmd) (w : World) : nat :=
  if String.eqb (Dir l) "" then S (tick w) else tick w.

(** The operation that starts the process *)
Definition childOp (l : LoggedCmd) (w : World) : nat := 4 + startOp l w.

Definition workDirOf (l : LoggedCmd) : string :=
  if String.eqb (Dir l) "" then wd h else Dir l.

Definition started (l : LoggedCmd) (w : World) : Z := now h (startOp l w).
Definition finished (l : LoggedCmd) (w : World) : Z := now h (5 + startOp l w).

(** What the invocation log holds while the process runs, and after *)
Definition provisionalLog (l : LoggedCmd) (w : World) : string :=
  invocationLog l (started l w) (workDirOf l) +:+ stillRunning.

Definition finalLog (l : LoggedCmd) (w : World) : string :=
  (invocationLog l (started l w) (workDirOf l)
   +:+ finishLine (started l w) (finished l w)) +:+ nl.

(** The events of the process, the latest first *)
Definition childEvents (l : LoggedCmd) (logFile : string) (c : Child)
  : list event :=
  match c with
  | FailedToStart _ => []
  | Ran chunks status =>
      Exited status :: List.rev (map (Wrote logFile) chunks)
      ++ [Started (Args l) (Dir l) (childEnviron h l)]
  end.

Definition childStatus (c : Child) : option string :=
  match c with
  | FailedToStart e => Some e
  | Ran _ status => status
  end.

Definition childOutput (c : Child) : string :=
  match c with
  | FailedToStart _ => EmptyString
  | Ran chunks _ => concat chunks
  end.

(** The events of an invocation, the latest first, as far as it got *)
Definition prepared (l : LoggedCmd) (n : nat) (w : World) : list event :=
  [ Created (logPath h l n);
    Wrote (invocationLogPath h l n) (provisionalLog l w);
    Created (invocationLogPath h l n) ].

Definition ran (l : LoggedCmd) (n : nat) (w : World) : list event :=
  childEvents l (logPath h l n) (child h (childOp l w)) ++ prepared l n w.

Definition finalised (l : LoggedCmd) (n : nat) (w : World) (f : string)
  : list event :=
  Wrote f (finalLog l w) :: Created f :: ran l n w.

Definition completed (l : LoggedCmd) (n : nat) (w : World) (f : string)
  : list event :=
  Renamed f (invocationLogPath h l n) :: finalised l n w f.

(** [f] is a name [TempFile] may have chosen for the final log *)
Definition tempName (l : LoggedCmd) (n : nat) (w : World) (f : string) : Prop :=
  (exists sfx, f = filepath.Join [filepath.Dir (invocationLogPath h l n);
                                  ".invocation-log-" +:+ sfx])
  /\ files (replay (fsOf w) (ran l n w)) !! f = None.

(** What [Run] returns once the final log is in place *)
Definition outcome (l : LoggedCmd) (n : nat) (w : World) : result unit :=
  match childStatus (child h (childOp l w)) with
  | None => Ok tt
  | Some e =>
      Err (runError (strings.Join (Args l) " ") e
             (invocationLogPath h l n) (logPath h l n)
             (beforeNewline (childOutput (child h (childOp l w)))))
  end.

(** The ways an invocation ends, with what it returns and its events *)
Inductive runCase (l : LoggedCmd) (n : nat) (w : World)
  : result unit -> list event -> Prop :=
| NoWorkDir e :
    String.eqb (Dir l) "" = true -> fault h (tick w) = Some e ->
    runCase l n w (Err e) []
| NoInvocationLog e :
    fault h (1 + startOp l w) = Some e ->
    runCase l n w (Err e) []
| WriteFailed e :
    fault h (2 + startOp l w) = Some e ->
    runCase l n w (Err e) [Created (invocationLogPath h l n)]
| NoOutputLog e :
    fault h (3 + startOp l w) = Some e ->
    runCase l n w (Err e)
      [Wrote (invocationLogPath h l n) (provisionalLog l w);
       Created (invocationLogPath h l n)]
| NoTempFile e :
    fault h (6 + startOp l w) = Some e \/ e = "file exists" ->
    runCase l n w (Err e) (ran l n w)
| NotInstalled e f :
    tempName l n w f ->
    fault h (7 + startOp l w) = Some e \/ fault h (8 + startOp l w) = Some e ->
    runCase l n w (Err e) (finalised l n w f)
| Installed f :
    tempName l n w f ->
    runCase l n w (outcome l n w) (completed l n w f).

(** [Run] is [runWith] for the current count, entered after the command line
    is printed and the counter incremented. *)
Definition entered (l : LoggedCmd) (w : World) : World :=
  MkWorld (fs0 w) (Printed (strings.Join (Args l) " ") :: past w) (tick w)
    (S (cmdCount w)).



End RunEvents.

(** ** The events of the changelog filter *)

Definition printed (output : string) (lines : list string) : list event :=
  List.rev (map (fun line => Wrote output (line +:+ nl)) lines).

Section FilterEvents.

Context (h : Host).


End FilterEvents.

Section FilterSteps.

Import Filter.

(** Above the first attribution line, no entry comes before the first
    section header ([seen]: a header came already). *)
Fixpoint entriesUnderHeaders (seen : bool) (lines : list string) : bool :=
  match lines with
  | [] => true
  | x :: rest =>
      if strings.HasPrefix x "  [ " then entriesUnderHeaders true rest
      else if strings.HasPrefix x " -- " then true
      else if strings.HasPrefix x "  * " then seen && entriesUnderHeaders seen rest
      else entriesUnderHeaders seen rest
  end.

Definition isHeader (line : string) : bool := strings.HasPrefix line "  [ ".

(** The second pass, run on what the first pass has printed so far, has
    printed the same lines and is in the same mode. *)
Definition inStep (s1 : state) : Prop :=
  let s2 := loop init (output s1) in
  output s2 = output s1
  /\ copyOnly s2 = copyOnly s1
  /\ lastLineEmpty s2 = lastLineEmpty s1.

Definition wellHeaded (s1 : state) (lines : list string) : Prop :=
  copyOnly s1 = false ->
  entriesUnderHeaders (isHeader (lastSection s1)) lines = true.

End FilterSteps.

(** ** The environment and the endings of the pipeline *)

(** The entries [variable=value] for the variables of [variables] that are
    set in [env], in the order of [variables] *)
Fixpoint forwarded (env : list (string * string)) (variables : list string)
  : list string :=
  match variables with
  | [] => []
  | variable :: rest =>
      match os.LookupEnv env variable with
      | Some value => (variable +:+ "=" +:+ value) :: forwarded env rest
      | None => forwarded env rest
      end
  end.

Section Endings.

Context (h : Host).

Import mergebot.

(** How [stages] may end: it returns [tempDir], with or without an error,
    or the patch retrieval has stopped the program. *)
Definition endsWith (flags : Flags) (url tempDir : string)
  (m : M (ending (string * option string))) : Prop :=
  forall w,
    match fst (m w) with
    | Returned (dir, _) => dir = tempDir
    | Exit msg => patchService h url (bug flags) = getpatch.FetchFatal msg
    end.

End Endings.

(** ** The kinds of lines of a changelog *)

Definition isEntry (line : string) : bool := strings.HasPrefix line "  * ".

Definition isAttribution (line : string) : bool := strings.HasPrefix line " -- ".

(** A line that is neither empty nor a section header *)
Definition isContent (line : string) : bool :=
  negb (String.eqb line "") && negb (isHeader line).

(** Every section header of [out] has an entry as the next line. *)
Fixpoint headersBeforeEntries (out : list string) : bool :=
  match out with
  | [] => true
  | x :: rest =>
      (if isHeader x
       then match rest with
            | next :: _ => isEntry next
            | [] => false
            end
       else true)
      && headersBeforeEntries rest
  end.

(** No empty line of [out] has an empty line as the next line. *)
Fixpoint singleBlanks (out : list string) : bool :=
  match out with
  | [] => true
  | x :: rest =>
      negb (String.eqb x "" && match rest with
                               | next :: _ => String.eqb next ""
                               | [] => false
                               end)
      && singleBlanks rest
  end.

Section FilterBlanks.

Import Filter.

(** The state between two iterations, above the attribution line: no two
    empty lines in a row were printed, an empty line was printed last only
    if the last line read was empty, and the entries to come have a header
    above them. *)
Definition blanksInOrder (st : state) (lines : list string) : Prop :=
  copyOnly st = false
  /\ singleBlanks (output st) = true
  /\ (lastLineEmpty st = false -> String.eqb (List.last (output st) "-") "" = false)
  /\ entriesUnderHeaders (isHeader (lastSection st)) lines = true.

End FilterBlanks.

(** ** Lines that are read back as they were written *)


(** ** Counting bytes *)

(** The number of occurrences of the byte [c] in [s] *)
Fixpoint countByte (c : ascii) (s : string) : nat :=
  match s with
  | EmptyString => 0
  | String d s' => (if Ascii.eqb d c then 1 else 0) + countByte c s'
  end.

(** An event of a process, with no effect on the files *)
Definition processEvent (e : event) : Prop :=
  match e with
  | Started _ _ _ | Exited _ => True
  | _ => False
  end.

(** ** The processes of a computation *)

(** Every process the computation [m] starts satisfies [P], by its
    arguments, its directory and its environment. *)
Definition startsOnly {A} (P : list string -> string -> list string -> Prop)
  (m : M A) : Prop :=
  forall w, exists new,
    past (snd (m w)) = new ++ past w
    /\ forall args dir env, In (Started args dir env) new -> P args dir env.


(** ** Processes that fail *)

(** In the events [evs] (the latest first) a process is started only when
    every process before it has exited with status 0. *)
Definition startsAfterSuccess (evs : list event) : Prop :=
  forall newer a d e older, evs = newer ++ Started a d e :: older ->
    forall st, ~ In (Exited (Some st)) older.

(** No process of [evs] has exited with an error. *)
Definition quietExits (evs : list event) : Prop :=
  forall st, ~ In (Exited (Some st)) evs.

(** The computation [m] starts a process only after every process before
    it has exited with status 0, and ends well, by [ok], only if every
    process has. *)
Definition failFast {A} (ok : A -> Prop) (m : M A) : Prop :=
  forall w, exists new,
    past (snd (m w)) = new ++ past w
    /\ startsAfterSuccess new
    /\ (ok (fst (m w)) -> quietExits new).

Definition isOk {A} (r : result A) : Prop :=
  match r with
  | Ok _ => True
  | Err _ => False
  end.

(** [mergeAndBuild] has returned without an error. *)
Definition succeeded (r : mergebot.ending (string * option string)) : Prop :=
  match r with
  | mergebot.Returned (_, None) => True
  | _ => False
  end.

(** ** Decimal numbers and fields *)

(** The number a string of decimal digits stands for, after [acc] *)
Fixpoint valueAux (acc : N) (s : string) : N :=
  match s with
  | EmptyString => acc
  | String c s' => valueAux (10 * acc + (N_of_ascii c - 48)) s'
  end.

(** The text of [s] before the first byte [c]; all of [s] without one *)
Fixpoint untilByte (c : ascii) (s : string) : string :=
  match s with
  | EmptyString => EmptyString
  | String d s' => if Ascii.eqb d c then EmptyString else String d (untilByte c s')
  end.

(** [xs] with [sep] after each element *)
Definition joinEach (xs : list string) (sep : string) : string :=
  fold_right (fun x acc => x +:+ sep +:+ acc) EmptyString xs.

(** ** The parts of a cleaned path *)

(** Whether [Clean] takes [path] to start at the root, the elements it
    keeps (the last one first) and the path it makes of them *)
Definition rootedPath (path : string) : bool := strings.HasPrefix path "/".

Definition stackOf (path : string) : list string :=
  fold_left (filepath.cleanStep (rootedPath path)) (strings.SplitByte path SLASH) [].

Definition cleanOf (rooted : bool) (stack : list string) : string :=
  let body := strings.Join (List.rev stack) "/" in
  let out := if rooted then "/" +:+ body else body in
  if String.eqb out "" then "." else out.

(** An element that [Clean] keeps, and that a later [..] removes *)
Definition normalElem (e : string) : Prop :=
  e <> "" /\ e <> "." /\ e <> ".." /\ strings.IndexByte e SLASH = None.

(** The elements [Clean] has kept: normal ones, and below them, when the
    path does not start at the root, the [..] that lead out of it *)
Definition cleanStack (rooted : bool) (stack : list string) : Prop :=
  exists normals k,
    stack = normals ++ List.repeat ".." k
    /\ Forall normalElem normals
    /\ (rooted = true -> k = 0).

(** ** The parts of the answer of the bug tracker *)

(** A part that the loop of [getMostRecentPatch] stops at: its
    [Content-Disposition] parses and is [attachment]. *)
Definition isAttachment (lib : Libraries) (p : mimePart) : bool :=
  match ParseMediaType lib (ContentDisposition p) with
  | Ok (disposition, _) => String.eqb disposition "attachment"
  | Err _ => false
  end.

(** ** More machines and files for the examples *)

(** The lines of the test changelog above its first attribution line, with
    one more empty line *)
Definition sectionsChangelog : list string :=
  [ "wit (2.31a-3) unstable; urgency=medium"; "";
    "  [ Chris Lamb ]";
    "  * Fix for “wit: please make the build reproducible” (Closes: #831331)"; "";
    "  [ Michael Stapelberg ]"; ""; "" ].

Definition testAttribution : string :=
  " -- Michael Stapelberg <stapelberg@debian.org>  Sat, 16 Jul 2016 20:39:13 +0200".

(** Libraries for the examples: the bug tracker answers with one message;
    a header value is its own media type, an empty one does not parse; the
    body of a message is one part for each of its lines, with the line as
    its [Content-Disposition] and as its content; base64 is not decoded. *)
Definition lineLibraries : Libraries :=
  {| Post := fun _ _ => Ok (MkResponse 200 "multipart/related" "<Envelope/>");
     ParseMediaType := fun v =>
       if String.eqb v "" then Err "mime: no media type" else Ok (v, fun _ => "");
     DecodeEnvelope := fun _ =>
       Ok [MkBugMessage 5 ("inline" +:+ nl +:+ "attachment" +:+ nl +:+ "attachment") "From: x"];
     Parts := fun body _ =>
       (map (fun line => MkMimePart line "base64" (Ok line)) (strings.SplitByte body LF), None);
     ReadMessage := fun _ =>
       Ok ("Chris Lamb <lamby@debian.org>", "wit: please make the build reproducible");
     DecodeString := fun s => (s, None) |}.


(** A machine on which the working directory cannot be determined *)
Definition lostHost : Host :=
  {| fault := fun n => if Nat.eqb n 0 then Some "getwd: no such file or directory" else None;
     now := now lsHost; suffixes := suffixes lsHost;
     child := child lsHost; readErr := readErr lsHost; digest := digest lsHost;
     patchService := patchService lsHost; args0 := args0 lsHost;
     environ := environ lsHost; wd := wd lsHost |}.

(** * Properties *)

(** ** The URL rewriting of [repositoryFor] *)

Section Repository.

Context `{Formats}.

(** C5.  When [debcheckout --print] answers
    [git<TAB>git://anonscm.debian.org/pkg.git], [repositoryFor] returns the
    SCM [git] and the URL [git+ssh://git.debian.org/git/pkg.git], which is
    the result of the three replacements of the first occurrence, in the
    order scheme, host, path; and a URL that [repositoryFor] changes
    contains [anonscm.debian.org]. *)
Theorem repositoryFor_anonscm (h : Host) (newCommand : mergebot.factory)
  (sourcePackage : string) (w : World)
  (Hchild : child h (tick w) = Ran [anonscmLine] None) :
  fst (mergebot.repositoryFor h newCommand sourcePackage w)
    = Ok ("git", "git+ssh://git.debian.org/git/pkg.git")
  /\ strings.Replace1
       (strings.Replace1
          (strings.Replace1 "git://anonscm.debian.org/pkg.git" "git" "git+ssh")
          "anonscm.debian.org" "git.debian.org")
       "debian.org" "debian.org/git"
     = "git+ssh://git.debian.org/git/pkg.git"
  /\ forall url, mergebot.rewriteURL url <> url ->
       strings.Contains url "anonscm.debian.org" = true.
Proof.
  split; [| split].
  - unfold mergebot.repositoryFor, mergebot.Output, orReturn.
    unfold mbind, M_bind, mret, M_ret, nextOp, emit; simpl.
    rewrite Hchild; simpl. reflexivity.
  - reflexivity.
  - intros url Hne. unfold mergebot.rewriteURL in Hne.
    destruct (strings.Contains url "anonscm.debian.org"); [reflexivity | congruence].
Qed.

End Repository.

(** ** Relations between the world before and after a computation *)

Section Frames.

Context (R : World -> World -> Prop) `{!PreOrder R}.

Lemma preserves_ret {A} (a : A) : preserves R (mret a).
Proof. intros w. simpl. reflexivity. Qed.

Lemma preserves_bind {A B} (m : M A) (k : A -> M B) :
  preserves R m -> (forall a, preserves R (k a)) -> preserves R (m ≫= k).
Proof.
  intros Hm Hk w. unfold mbind, M_bind.
  specialize (Hm w). destruct (m w) as [a w1]. simpl in Hm.
  etransitivity; [exact Hm | apply Hk].
Qed.

Lemma preserves_orReturn {A B} (m : M (result A)) (k : A -> M (result B)) :
  preserves R m -> (forall a, preserves R (k a)) -> preserves R (orReturn m k).
Proof.
  intros Hm Hk. unfold orReturn. apply preserves_bind; [exact Hm |].
  intros [a | e]; [apply Hk | apply preserves_ret].
Qed.

Lemma preserves_getFS : preserves R getFS.
Proof. intros w. simpl. reflexivity. Qed.

End Frames.

(** Splits the goal [preserves R m] along the structure of [m]; what is left
    are the operations that change the world. *)
Ltac frame_step :=
  match goal with
  | |- preserves ?R (mret _) => apply (preserves_ret R)
  | |- preserves ?R (getFS) => apply (preserves_getFS R)
  | |- preserves ?R (orReturn _ _) => apply (preserves_orReturn R); [| intros ?]
  | |- preserves ?R (_ ≫= _) => apply (preserves_bind R); [| intros ?]
  | |- preserves _ (match ?x with _ => _ end) => destruct x
  end.

Ltac frame := repeat frame_step.

(** *** The invocation counter *)

#[global] Instance sameCount_preorder : PreOrder sameCount.
Proof.
  split; [intros w; reflexivity |].
  intros a b c Hab Hbc. unfold sameCount in *. congruence.
Qed.

Lemma sameCount_emit e : preserves sameCount (emit e).
Proof. intros w. reflexivity. Qed.

Lemma sameCount_nextOp : preserves sameCount nextOp.
Proof. intros w. reflexivity. Qed.

Ltac count_frame :=
  repeat first [ frame_step | apply sameCount_emit | apply sameCount_nextOp ].

Lemma sameCount_copyOutput logFile chunks cw :
  preserves sameCount (loggedexec.copyOutput logFile chunks cw).
Proof.
  revert cw. induction chunks as [| p rest IH]; intros cw;
    cbn [loggedexec.copyOutput]; count_frame.
  apply IH.
Qed.

Lemma sameCount_runWith `{Formats} h l n :
  preserves sameCount (loggedexec.runWith h l n).
Proof.
  unfold loggedexec.runWith, os.Getwd, os.Now, ioutil.WriteFile,
    os.OpenFileTrunc, loggedexec.cmdRun, ioutil.TempFile, os.Close,
    os.Rename, fallible.
  count_frame; apply sameCount_copyOutput.
Qed.

(** ** The sequence indices of successive invocations *)

Section Sequence.

Context `{Formats} (h : Host).

Lemma RunIndexed_count l w :
  fst (fst (loggedexec.RunIndexed h l w)) = cmdCount w
  /\ cmdCount (snd (loggedexec.RunIndexed h l w)) = S (cmdCount w).
Proof.
  unfold loggedexec.RunIndexed, loggedexec.takeCount, emit.
  unfold mbind, M_bind, mret, M_ret; simpl.
  pose proof (sameCount_runWith h l (cmdCount w)
    (MkWorld (fs0 w) (Printed (strings.Join (loggedexec.Args l) " ") :: past w)
       (tick w) (S (cmdCount w)))) as Hsame.
  destruct (loggedexec.runWith h l (cmdCount w) _) as [r w'].
  simpl in *. split; [reflexivity | exact Hsame].
Qed.

Lemma runAll_indices cmds w :
  map fst (fst (runAll h cmds w)) = seq (cmdCount w) (length cmds)
  /\ cmdCount (snd (runAll h cmds w)) = cmdCount w + length cmds.
Proof.
  revert w. induction cmds as [| l rest IH]; intros w.
  - simpl. split; [reflexivity | lia].
  - cbn [runAll]. unfold mbind, M_bind, mret, M_ret.
    destruct (RunIndexed_count l w) as [Hn Hc].
    destruct (loggedexec.RunIndexed h l w) as [[n r] w1]. simpl in Hn, Hc.
    destruct (IH w1) as [Hrest Hcount].
    destruct (runAll h rest w1) as [rs w2]. simpl in *.
    rewrite Hn, Hrest, Hc, Hcount. split; [reflexivity | lia].
Qed.

(** C4.  From a fresh counter, the indices taken by the invocations of
    [cmds], in call order, are 0, 1, ..., N-1: no two are equal, each is
    higher than the one before, and the counter ends at N.  Each invocation
    takes the current count and leaves it one higher, whatever happens to it
    afterwards. *)
Theorem sequence_indices_from_fresh_counter
  (cmds : list loggedexec.LoggedCmd) (fs : FS) (evs : list event) (t : nat) :
  let fresh := MkWorld fs evs t 0 in
  map fst (fst (runAll h cmds fresh)) = seq 0 (length cmds)
  /\ List.NoDup (map fst (fst (runAll h cmds fresh)))
  /\ cmdCount (snd (runAll h cmds fresh)) = length cmds.
Proof.
  intros fresh. destruct (runAll_indices cmds fresh) as [Hi Hc].
  split; [exact Hi |]. split; [rewrite Hi; apply List.seq_NoDup | exact Hc].
Qed.

End Sequence.

(** ** The first line of the output of a process *)

Lemma append_assoc (a b c : string) : (a +:+ b) +:+ c = a +:+ (b +:+ c).
Proof. induction a as [| x a IH]; simpl; [reflexivity | f_equal; exact IH]. Qed.

Lemma append_nil_r (a : string) : a +:+ EmptyString = a.
Proof. induction a as [| x a IH]; simpl; [reflexivity | f_equal; exact IH]. Qed.

Lemma take_IndexByte s :
  match strings.IndexByte s LF with
  | Some idx => strings.take idx s
  | None => s
  end = beforeNewline s.
Proof.
  induction s as [| c s IH]; simpl; [reflexivity |].
  destruct (Ascii.eqb c LF); [reflexivity |].
  destruct (strings.IndexByte s LF); simpl; f_equal; exact IH.
Qed.

Lemma LastIndexByte_hasNewline p :
  bool_decide (loggedexec.LastIndexByte p LF <> None) = hasNewline p.
Proof.
  induction p as [| c p IH]; simpl; [reflexivity |].
  destruct (loggedexec.LastIndexByte p LF) as [i |].
  - rewrite <- IH. destruct (Ascii.eqb c LF); reflexivity.
  - rewrite <- IH. destruct (Ascii.eqb c LF); reflexivity.
Qed.

Lemma hasNewline_app a b : hasNewline (a +:+ b) = hasNewline a || hasNewline b.
Proof.
  induction a as [| c a IH]; simpl; [reflexivity |].
  destruct (Ascii.eqb c LF); [reflexivity | exact IH].
Qed.

Lemma beforeNewline_app a b :
  hasNewline a = true -> beforeNewline (a +:+ b) = beforeNewline a.
Proof.
  induction a as [| c a IH]; simpl; [discriminate |].
  destruct (Ascii.eqb c LF); [reflexivity |].
  intros Ha. rewrite IH by exact Ha. reflexivity.
Qed.

Lemma Write_consistent cw p : consistent cw -> consistent (loggedexec.Write cw p).
Proof.
  unfold consistent, loggedexec.Write. intros Hc.
  destruct (loggedexec.newlineSeen cw) eqn:Hseen; [rewrite Hseen; exact Hc |].
  simpl. rewrite LastIndexByte_hasNewline, hasNewline_app, <- Hc. reflexivity.
Qed.

Lemma captured_beforeNewline chunks cw :
  consistent cw ->
  beforeNewline (loggedexec.Data (captured chunks cw))
  = beforeNewline (loggedexec.Data cw +:+ concat chunks).
Proof.
  revert cw. induction chunks as [| p rest IH]; intros cw Hc; simpl.
  - rewrite append_nil_r. reflexivity.
  - unfold captured in IH. rewrite IH by (apply Write_consistent; exact Hc).
    unfold loggedexec.Write. unfold consistent in Hc.
    destruct (loggedexec.newlineSeen cw) eqn:Hseen.
    + symmetry in Hc. rewrite !beforeNewline_app by exact Hc. reflexivity.
    + cbn [loggedexec.Data]. rewrite append_assoc. reflexivity.
Qed.

(** However the output is cut into chunks, [FirstLine] is the text before
    its first newline. *)
Lemma FirstLine_captured chunks :
  loggedexec.FirstLine (captured chunks (loggedexec.MkCapturingWriter EmptyString false))
  = beforeNewline (concat chunks).
Proof.
  unfold loggedexec.FirstLine. rewrite take_IndexByte.
  rewrite captured_beforeNewline by reflexivity. reflexivity.
Qed.

(** ** The events of one invocation *)

Section RunTrace.

Context `{Formats} (h : Host).

Import loggedexec.

Lemma copyOutput_spec logFile chunks cw w :
  copyOutput logFile chunks cw w
  = (captured chunks cw,
     MkWorld (fs0 w) (List.rev (map (Wrote logFile) chunks) ++ past w)
       (tick w) (cmdCount w)).
Proof.
  revert cw w. induction chunks as [| p rest IH]; intros cw w.
  - destruct w; reflexivity.
  - cbn [copyOutput]. unfold mbind, M_bind, emit.
    rewrite IH. cbn [fs0 past tick cmdCount captured fold_left map List.rev].
    rewrite <- app_assoc. reflexivity.
Qed.

Lemma cmdRun_spec l logFile w :
  exists cw,
    cmdRun h l logFile w
    = ((childStatus (child h (tick w)), cw),
       MkWorld (fs0 w) (childEvents h l logFile (child h (tick w)) ++ past w)
         (S (tick w)) (cmdCount w))
    /\ FirstLine cw = beforeNewline (childOutput (child h (tick w))).
Proof.
  unfold cmdRun, nextOp, emit. unfold mbind, M_bind, mret, M_ret.
  cbn [tick fs0 past cmdCount].
  destruct (child h (tick w)) as [e | chunks status].
  - eexists; split; [reflexivity |]. reflexivity.
  - rewrite copyOutput_spec. cbn [fs0 past tick cmdCount].
    eexists; split.
    + cbn [childStatus childEvents app]. rewrite <- app_assoc. reflexivity.
    + apply FirstLine_captured.
Qed.

Lemma replay_app fs newer older :
  replay fs (newer ++ older) = replay (replay fs older) newer.
Proof. unfold replay. apply foldr_app. Qed.

Lemma freshName_Some taken dir pfx tries name :
  ioutil.freshName taken dir pfx tries = Some name ->
  (exists sfx, name = filepath.Join [dir; pfx +:+ sfx]) /\ taken name = false.
Proof.
  unfold ioutil.freshName. intros Hfind.
  apply List.find_some in Hfind as [Hin Hfree].
  apply in_map_iff in Hin as (sfx & Hname & _).
  split; [exists sfx; symmetry; exact Hname |].
  destruct (taken name); [discriminate | reflexivity].
Qed.

Lemma runWith_cases l n w :
  exists new,
    runCase h l n w (fst (runWith h l n w)) new
    /\ past (snd (runWith h l n w)) = new ++ past w
    /\ fs0 (snd (runWith h l n w)) = fs0 w.
Proof.
  destruct (runWith h l n w) as [r w'] eqn:Hrun. cbn [fst snd].
  unfold runWith, orReturn, os.Getwd, os.Now, ioutil.WriteFile,
    os.OpenFileTrunc, ioutil.TempFile, os.Close, os.Rename, fallible,
    nextOp, emit, getFS in Hrun.
  unfold mbind, M_bind, mret, M_ret in Hrun.
  assert (Hstart : startOp l w = if String.eqb (Dir l) "" then S (tick w) else tick w)
    by reflexivity.
  assert (Hwork : workDirOf h l = if String.eqb (Dir l) "" then wd h else Dir l)
    by reflexivity.
  destruct w as [f0 p0 t0 c0]. cbn [tick fs0 past cmdCount] in *.
  destruct (String.eqb (Dir l) "") eqn:Hdir;
    [ cbn [tick fs0 past cmdCount] in Hrun;
      destruct (fault h t0) as [e |] eqn:F0;
      [ injection Hrun as <- <-; exists []; split; [| split; reflexivity];
        apply NoWorkDir; [exact Hdir | exact F0] | ] | ].
  all: cbn [tick fs0 past cmdCount] in Hrun.
  all: match type of Hrun with
       | context [match fault h ?k with _ => _ end] =>
           destruct (fault h k) as [e |] eqn:F1
       end;
       [ injection Hrun as <- <-; exists []; split; [| split; reflexivity];
         apply NoInvocationLog; rewrite Hstart; exact F1 | ].
  all: cbn [tick fs0 past cmdCount] in Hrun.
  all: match type of Hrun with
       | context [match fault h ?k with _ => _ end] =>
           destruct (fault h k) as [e |] eqn:F2
       end;
       [ injection Hrun as <- <-; eexists; split;
         [ apply WriteFailed; rewrite Hstart; exact F2 | split; reflexivity ] | ].
  all: cbn [tick fs0 past cmdCount] in Hrun.
  all: match type of Hrun with
       | context [match fault h ?k with _ => _ end] =>
           destruct (fault h k) as [e |] eqn:F3
       end;
       [ injection Hrun as <- <-; eexists; split;
         [ apply NoOutputLog; rewrite Hstart; exact F3
         | unfold provisionalLog, started; rewrite Hstart, Hwork;
           split; reflexivity ] | ].
  all: cbn [tick fs0 past cmdCount] in Hrun.
  all: match type of Hrun with
       | context [cmdRun h ?l0 ?f ?w0] =>
           destruct (cmdRun_spec l0 f w0) as (cw & Hcmd & Hfirst);
           rewrite Hcmd in Hrun; clear Hcmd
       end.
  all: cbn [tick fs0 past cmdCount] in Hrun.
  all: match type of Hrun with
       | context [match fault h ?k with _ => _ end] =>
           destruct (fault h k) as [e |] eqn:F6
       end;
       [ injection Hrun as <- <-; eexists; split;
         [ apply NoTempFile; left; rewrite Hstart; exact F6
         | unfold ran, prepared, provisionalLog, started, childOp;
           rewrite Hstart, Hwork; split; [| reflexivity];
           rewrite <- app_assoc; reflexivity ] | ].
  all: match type of Hrun with
       | context [ioutil.freshName ?taken ?dir ?pfx ?tries] =>
           destruct (ioutil.freshName taken dir pfx tries) as [f |] eqn:Hfresh
       end;
       [ | injection Hrun as <- <-; eexists; split;
           [ apply NoTempFile; right; reflexivity
           | unfold ran, prepared, provisionalLog, started, childOp;
             rewrite Hstart, Hwork; split; [| reflexivity];
             rewrite <- app_assoc; reflexivity ] ].
  all: apply freshName_Some in Hfresh as [Hname Hfree].
  all: apply bool_decide_eq_false in Hfree.
  all: assert (Htemp : tempName h l n (MkWorld f0 p0 t0 c0) f)
         by (split; [exact Hname |];
             unfold ran, prepared, provisionalLog, started, childOp;
             rewrite Hstart, Hwork;
             unfold fsOf in *; cbn [fs0 past] in *;
             rewrite <- replay_app, <- app_assoc;
             apply eq_None_not_Some; exact Hfree).
  all: cbn [tick fs0 past cmdCount] in Hrun, Hfirst.
  all: match type of Hrun with
       | context [match fault h ?k with _ => _ end] =>
           destruct (fault h k) as [e |] eqn:F7
       end;
       [ injection Hrun as <- <-; exists (finalised h l n (MkWorld f0 p0 t0 c0) f);
         split;
         [ apply NotInstalled; [exact Htemp | left; rewrite Hstart; exact F7]
         | unfold finalised, finalLog, ran, prepared, provisionalLog, started,
             finished, childOp;
           rewrite Hstart, Hwork; split; [| reflexivity];
           cbn [app]; rewrite <- app_assoc; reflexivity ] | ].
  all: cbn [tick fs0 past cmdCount] in Hrun.
  all: match type of Hrun with
       | context [match fault h ?k with _ => _ end] =>
           destruct (fault h k) as [e |] eqn:F8
       end;
       [ injection Hrun as <- <-; exists (finalised h l n (MkWorld f0 p0 t0 c0) f);
         split;
         [ apply NotInstalled; [exact Htemp | right; rewrite Hstart; exact F8]
         | unfold finalised, finalLog, ran, prepared, provisionalLog, started,
             finished, childOp;
           rewrite Hstart, Hwork; split; [| reflexivity];
           cbn [app]; rewrite <- app_assoc; reflexivity ] | ].
  all: cbn [tick fs0 past cmdCount] in Hrun.
  all: exists (completed h l n (MkWorld f0 p0 t0 c0) f).
  all: assert (Hout : r = outcome h l n (MkWorld f0 p0 t0 c0))
         by (unfold outcome, childOp; rewrite Hstart; cbn [Nat.add];
             rewrite <- Hfirst;
             destruct (childStatus _); injection Hrun as <- <-; reflexivity).
  all: split; [rewrite Hout; apply Installed; exact Htemp |].
  all: unfold completed, finalised, finalLog, ran, prepared, provisionalLog,
         started, finished, childOp; rewrite Hstart, Hwork.
  all: destruct (childStatus _); injection Hrun as <- <-;
         (split; [| reflexivity]); cbn [app past]; rewrite <- app_assoc; reflexivity.
Qed.

End RunTrace.

(** ** What an event does to one file *)

Lemma applyEvent_untouched p e fs :
  ~ touches p e -> files (applyEvent e fs) !! p = files fs !! p.
Proof.
  destruct e as [line | q | q data | old new | q | q | args dir env | st |];
    cbn [touches applyEvent files]; intros Hno; try reflexivity.
  - apply lookup_insert_ne. exact Hno.
  - apply lookup_alter_ne. exact Hno.
  - destruct (files fs !! old) as [data |]; cbn [files]; [| reflexivity].
    rewrite lookup_insert_ne by (intros ->; apply Hno; right; reflexivity).
    apply lookup_delete_ne. intros ->. apply Hno. left. reflexivity.
  - apply lookup_delete_ne. exact Hno.
Qed.

Lemma replay_untouched p evs fs :
  Forall (fun e => ~ touches p e) evs ->
  files (replay fs evs) !! p = files fs !! p.
Proof.
  induction 1 as [| e evs He _ IH]; [reflexivity |].
  cbn [replay foldr]. rewrite applyEvent_untouched by exact He. exact IH.
Qed.





(** ** The invocation log over the course of one invocation *)

Section Timeline.

Context `{Formats} (h : Host).

Import loggedexec.

Section OneRun.

Variables (l : LoggedCmd) (n : nat) (w : World).

Let inv := invocationLogPath h l n.
















End OneRun.

Lemma Run_runWith l w : Run h l w = runWith h l (cmdCount w) (entered l w).
Proof.
  unfold Run, RunIndexed, takeCount, emit, entered.
  unfold mbind, M_bind, mret, M_ret. cbn [fs0 past tick cmdCount].
  destruct (runWith h l (cmdCount w) _) as [r w']. reflexivity.
Qed.

Lemma Run_cases l w :
  exists new,
    runCase h l (cmdCount w) (entered l w) (fst (Run h l w)) new
    /\ past (snd (Run h l w)) = new ++ Printed (strings.Join (Args l) " ") :: past w
    /\ fsOf (snd (Run h l w)) = replay (fsOf w) new.
Proof.
  rewrite Run_runWith.
  destruct (runWith_cases h l (cmdCount w) (entered l w)) as (new & Hcase & Hpast & Hfs).
  exists new. split; [exact Hcase |]. split; [exact Hpast |].
  unfold fsOf. rewrite Hpast, Hfs. rewrite replay_app. reflexivity.
Qed.





(** *** The names of the log files *)

Lemma ran_namedFor l n w :
  Forall (namedFor (invocationLogPath h l n) (logPath h l n)) (ran h l n w).
Proof.
  unfold ran, prepared. apply Forall_app. split.
  - destruct (child h (childOp l w)) as [e | chunks status];
      cbn [childEvents]; [constructor |].
    constructor; [exact I |]. apply Forall_app. split.
    + apply List.Forall_forall. intros e Hin.
      apply in_rev, in_map_iff in Hin as (p & <- & _).
      cbn [namedFor]. right. left. reflexivity.
    + constructor; [exact I | constructor].
  - repeat (constructor; [cbn [namedFor]; auto |]). constructor.
Qed.

Lemma runCase_namedFor l n w r new :
  runCase h l n w r new ->
  Forall (namedFor (invocationLogPath h l n) (logPath h l n)) new.
Proof.
  destruct 1 as [e _ _ | e _ | e _ | e _ | e _ | e f [Hname _] _ | f [Hname _]].
  - constructor.
  - constructor.
  - repeat (constructor; [cbn [namedFor]; auto |]). constructor.
  - repeat (constructor; [cbn [namedFor]; auto |]). constructor.
  - apply ran_namedFor.
  - unfold finalised. repeat (constructor; [cbn [namedFor]; auto |]).
    apply ran_namedFor.
  - unfold completed, finalised. repeat (constructor; [cbn [namedFor]; auto |]).
    apply ran_namedFor.
Qed.



Lemma SplitByte_noByte s c : strings.IndexByte s c = None -> strings.SplitByte s c = [s].
Proof.
  induction s as [| d s IH]; cbn [strings.IndexByte strings.SplitByte]; [reflexivity |].
  destruct (Ascii.eqb d c); [discriminate |].
  destruct (strings.IndexByte s c); [discriminate |].
  intros _. rewrite IH by reflexivity. reflexivity.
Qed.



End Timeline.

(** ** [filterChangelog] and its target file *)

Section Atomic.

Context (h : Host).

Lemma printLines_spec output lines w :
  printLines output lines w
  = (tt, MkWorld (fs0 w) (printed output lines ++ past w) (tick w) (cmdCount w)).
Proof.
  revert w. induction lines as [| line rest IH]; intros w.
  - destruct w; reflexivity.
  - cbn [printLines]. unfold mbind, M_bind, emit. rewrite IH.
    unfold printed. cbn [fs0 past tick cmdCount map List.rev].
    rewrite <- app_assoc. reflexivity.
Qed.

Lemma printed_quiet p output lines :
  output <> p -> Forall (fun e => ~ touches p e) (printed output lines).
Proof.
  intros Hne. apply List.Forall_forall. intros e Hin.
  apply in_rev, in_map_iff in Hin as (line & <- & _). exact Hne.
Qed.






End Atomic.

(** ** Runs on concrete machines *)

Example ls_error_message :
  fst (@loggedexec.Run plainFormats lsHost lsCmd (worldOf []))
  = Err ("Running " +:+ dquote +:+ "ls /tmp/nope" +:+ dquote +:+ ": exit status 2" +:+ nl +:+
         "See " +:+ dquote +:+ "/tmp/000-ls.invocation.log" +:+ dquote +:+
           " for invocation details." +:+ nl +:+
         "See " +:+ dquote +:+ "/tmp/000-ls.stdoutstderr.log" +:+ dquote +:+
           " for full stdout/stderr." +:+ nl +:+
         "First stdout/stderr line: " +:+ dquote +:+
           "ls: cannot access /tmp/nope: No such file or directory" +:+ dquote +:+ nl).
Proof. vm_compute. reflexivity. Qed.





Lemma repositoryFor_anonscm_witness :
  child debcheckoutHost (tick (worldOf [])) = Ran [anonscmLine] None
  /\ fst (@mergebot.repositoryFor plainFormats debcheckoutHost
            loggedexec.Command "pkg" (worldOf []))
     = Ok ("git", "git+ssh://git.debian.org/git/pkg.git").
Proof.
  split; [reflexivity |].
  apply (@repositoryFor_anonscm plainFormats debcheckoutHost loggedexec.Command
           "pkg" (worldOf [])).
  reflexivity.
Defined.


(** ** The changelog filter on concrete changelogs *)

Example TestFilterChangelog :
  let w := worldOf [("/tmp/filter-changelog-test", unlines testChangelog)] in
  fst (filterChangelog quietHost "/tmp/filter-changelog-test" w) = Ok tt
  /\ files (fsOf (snd (filterChangelog quietHost "/tmp/filter-changelog-test" w)))
       !! "/tmp/filter-changelog-test"
     = Some (unlines testFiltered).
Proof. split; vm_compute; reflexivity. Qed.

(** C2 at a section with two entries: the header is printed before the
    first entry and again before the second. *)
Theorem header_repeated_before_each_entry :
  let changelog := ["  [ A ]"; "  * one"; "  * two"] in
  let w := worldOf [("/r/debian/changelog", unlines changelog)] in
  Filter.filterLines changelog = ["  [ A ]"; "  * one"; "  [ A ]"; "  * two"]
  /\ fst (filterChangelog quietHost "/r/debian/changelog" w) = Ok tt
  /\ files (fsOf (snd (filterChangelog quietHost "/r/debian/changelog" w)))
       !! "/r/debian/changelog"
     = Some (unlines ["  [ A ]"; "  * one"; "  [ A ]"; "  * two"]).
Proof. split; [| split]; vm_compute; reflexivity. Qed.

(** C2 at an entry without a section header: an empty line is printed
    before the entry, after the empty line that was already there. *)
Example blank_line_before_headerless_entry :
  Filter.filterLines ["pkg (1.0) unstable; urgency=low"; ""; "  * x"]
  = ["pkg (1.0) unstable; urgency=low"; ""; ""; "  * x"].
Proof. vm_compute. reflexivity. Qed.

(** C7 at a changelog whose first entry follows the title line directly:
    the first pass puts one empty line before the entry, the second pass a
    second one. *)
Theorem filter_twice_differs_from_once :
  let changelog := ["pkg (1.0) unstable; urgency=low"; "  * x"; "";
                    " -- A <a@b>  Sat, 16 Jul 2016 20:39:13 +0200"] in
  let path := "/r/debian/changelog" in
  let w0 := worldOf [(path, unlines changelog)] in
  let w1 := snd (filterChangelog quietHost path w0) in
  let w2 := snd (filterChangelog quietHost path w1) in
  fst (filterChangelog quietHost path w0) = Ok tt
  /\ fst (filterChangelog quietHost path w1) = Ok tt
  /\ files (fsOf w1) !! path
     = Some (unlines ["pkg (1.0) unstable; urgency=low"; ""; "  * x"; "";
                      " -- A <a@b>  Sat, 16 Jul 2016 20:39:13 +0200"])
  /\ files (fsOf w2) !! path
     = Some (unlines ["pkg (1.0) unstable; urgency=low"; ""; ""; "  * x"; "";
                      " -- A <a@b>  Sat, 16 Jul 2016 20:39:13 +0200"])
  /\ files (fsOf w2) !! path <> files (fsOf w1) !! path.
Proof.
  intros changelog path w0 w1 w2.
  split; [vm_compute; reflexivity |].
  split; [vm_compute; reflexivity |].
  split; [vm_compute; reflexivity |].
  split; [vm_compute; reflexivity |].
  vm_compute. intros Heq. discriminate Heq.
Qed.

(** ** The environment of the commands of the pipeline *)

Section Environment.

Import loggedexec.

Lemma forwardEnv_Env env variables cmd :
  Env (mergebot.forwardEnv env variables cmd)
  = match forwarded env variables with
    | [] => Env cmd
    | entries => Some (default [] (Env cmd) ++ entries)
    end.
Proof.
  revert cmd. induction variables as [| variable rest IH]; intros cmd.
  - reflexivity.
  - cbn [mergebot.forwardEnv forwarded].
    destruct (os.LookupEnv env variable) as [value |]; rewrite IH; [| reflexivity].
    cbn [appendEnv Env]. unfold default at 1 2. cbn [from_option id].
    destruct (forwarded env rest); [reflexivity |].
    rewrite <- app_assoc. reflexivity.
Qed.

(** The [Env] of a command of the factory lists the allow-listed variables
    that are set, each with its value, and nothing else; it is nil when
    none of them is set. *)
Lemma tempDirCommand_Env h tempDir name arg :
  Env (mergebot.tempDirCommand h tempDir name arg)
  = match forwarded (environ h) mergebot.passthrough with
    | [] => None
    | entries => Some entries
    end.
Proof.
  unfold mergebot.tempDirCommand. rewrite forwardEnv_Env.
  destruct (forwarded (environ h) mergebot.passthrough); reflexivity.
Qed.

Lemma forwarded_agree env1 env2 variables :
  Forall (fun variable => os.LookupEnv env1 variable = os.LookupEnv env2 variable)
         variables ->
  forwarded env1 variables = forwarded env2 variables.
Proof.
  induction 1 as [| variable rest Hv _ IH]; [reflexivity |].
  cbn [forwarded]. rewrite Hv, IH. reflexivity.
Qed.

(** X17.  Two machines that agree on the allow-listed variables give the
    commands of the factory the same [Env]. *)
Lemma tempDirCommand_Env_two_runs h1 h2 tempDir name arg :
  Forall (fun variable =>
            os.LookupEnv (environ h1) variable = os.LookupEnv (environ h2) variable)
         mergebot.passthrough ->
  Env (mergebot.tempDirCommand h1 tempDir name arg)
  = Env (mergebot.tempDirCommand h2 tempDir name arg).
Proof.
  intros Hagree. rewrite !tempDirCommand_Env.
  rewrite (forwarded_agree _ _ _ Hagree). reflexivity.
Qed.

(** X18.  With an allow-listed variable set, the process gets the allow-listed
    entries only. *)
Lemma childEnviron_allow_listed h tempDir name arg :
  forwarded (environ h) mergebot.passthrough <> [] ->
  childEnviron h (mergebot.tempDirCommand h tempDir name arg)
  = forwarded (environ h) mergebot.passthrough.
Proof.
  intros Hset. unfold childEnviron. rewrite tempDirCommand_Env.
  destruct (forwarded (environ h) mergebot.passthrough); [congruence | reflexivity].
Qed.

End Environment.

(** C6 on a machine where none of the five variables is set: the [Env] of
    the command stays nil, the process started by [Run] gets every ambient
    variable, and a change of a variable that is not allow-listed changes
    the environment the process gets. *)
Theorem unlisted_variables_reach_the_process :
  let cmd := fun secret =>
    mergebot.tempDirCommand (bareHost secret) "/tmp/mergebot-1" "git" ["add"; "."] in
  let events := fun secret =>
    past (snd (@loggedexec.Run plainFormats (bareHost secret) (cmd secret) (worldOf []))) in
  loggedexec.Env (cmd "a") = None
  /\ loggedexec.Env (cmd "b") = None
  /\ loggedexec.childEnviron (bareHost "a") (cmd "a") = ["HOME=/root"; "SECRET=a"]
  /\ In (Started ["git"; "add"; "."] "" ["HOME=/root"; "SECRET=a"]) (events "a")
  /\ In (Started ["git"; "add"; "."] "" ["HOME=/root"; "SECRET=b"]) (events "b").
Proof.
  intros cmd events.
  split; [vm_compute; reflexivity |].
  split; [vm_compute; reflexivity |].
  split; [vm_compute; reflexivity |].
  split; vm_compute; do 4 right; left; reflexivity.
Qed.

(** ** The temporary directory of the pipeline *)

#[global] Instance grows_preorder : PreOrder grows.
Proof.
  split.
  - intros w. split; [reflexivity |]. exists []. split; [reflexivity | constructor].
  - intros a b c [Hab (n1 & Hp1 & Hn1)] [Hbc (n2 & Hp2 & Hn2)].
    split; [congruence |]. exists (n2 ++ n1).
    split; [rewrite Hp2, Hp1, app_assoc; reflexivity |].
    apply Forall_app. split; assumption.
Qed.

Lemma grows_emit e : notRemoved e -> preserves grows (emit e).
Proof.
  intros He w. split; [reflexivity |]. exists [e].
  split; [reflexivity | constructor; [exact He | constructor]].
Qed.

Lemma grows_nextOp : preserves grows nextOp.
Proof. intros w. split; [reflexivity |]. exists []. split; [reflexivity | constructor]. Qed.

Lemma namedFor_notRemoved inv log e : namedFor inv log e -> notRemoved e.
Proof. destruct e; cbn [namedFor notRemoved]; auto. Qed.

Lemma grows_Run `{Formats} h l : preserves grows (loggedexec.Run h l).
Proof.
  intros w. rewrite Run_runWith.
  destruct (runWith_cases h l (cmdCount w) (entered l w)) as (new & Hcase & Hpast & Hfs).
  split; [exact Hfs |].
  exists (new ++ [Printed (strings.Join (loggedexec.Args l) " ")]).
  split; [rewrite Hpast, <- app_assoc; reflexivity |].
  apply Forall_app. split; [| repeat constructor].
  eapply Forall_impl; [apply (runCase_namedFor _ _ _ _ _ _ Hcase) |].
  intros e. apply namedFor_notRemoved.
Qed.

Ltac grow_frame :=
  repeat first
    [ frame_step
    | apply grows_nextOp
    | apply grows_Run
    | apply grows_emit; exact I ].

Section Kept.

Context `{Formats} (h : Host).

Import mergebot.

Lemma grows_orReturnDir {A} tempDir (m : M (result A)) k :
  preserves grows m -> (forall a, preserves grows (k a)) ->
  preserves grows (orReturnDir tempDir m k).
Proof.
  intros Hm Hk. unfold orReturnDir. apply (preserves_bind grows); [exact Hm |].
  intros [a | e]; [apply Hk | apply (preserves_ret grows)].
Qed.

Lemma grows_gitConfig newCommand gitConfigArgs :
  preserves grows (gitConfig h newCommand gitConfigArgs).
Proof.
  induction gitConfigArgs as [| configArgs rest IH]; cbn [gitConfig]; grow_frame.
  exact IH.
Qed.

Lemma grows_stages flags url tempDir : preserves grows (stages h flags url tempDir).
Proof.
  unfold stages, ioutil.WriteFile, repositoryFor, Output, gitCheckout, sha256of,
    applyPatch, gitCommit, releaseChangelog, Abs, buildPackage, os.Getwd, fallible.
  repeat first
    [ apply grows_orReturnDir; [| intros ?]
    | apply grows_gitConfig
    | frame_step
    | apply grows_nextOp
    | apply grows_Run
    | apply grows_emit; exact I ].
Qed.

Lemma endsWith_bind {A} flags url tempDir (m : M A) k :
  (forall a, endsWith h flags url tempDir (k a)) ->
  endsWith h flags url tempDir (m ≫= k).
Proof.
  intros Hk w. unfold mbind, M_bind. destruct (m w) as [a w1]. apply Hk.
Qed.

Lemma endsWith_orReturnDir {A} flags url tempDir (m : M (result A)) k :
  (forall a, endsWith h flags url tempDir (k a)) ->
  endsWith h flags url tempDir (orReturnDir tempDir m k).
Proof.
  intros Hk. unfold orReturnDir. apply endsWith_bind.
  intros [a | e]; [apply Hk |]. intros w. reflexivity.
Qed.

Lemma endsWith_stages flags url tempDir :
  endsWith h flags url tempDir (stages h flags url tempDir).
Proof.
  unfold stages.
  destruct (patchService h url (bug flags)) as [patch | e | msg] eqn:Hfetch.
  - repeat first
      [ apply endsWith_orReturnDir; intros ?
      | apply endsWith_bind; intros ?
      | match goal with
        | |- endsWith h _ _ _ (match ?x with _ => _ end) => destruct x
        end ];
      intros w; reflexivity.
  - intros w. reflexivity.
  - apply endsWith_bind. intros _ w. exact Hfetch.
Qed.

Lemma made_dir_stays fs evs dir :
  In (MadeDir dir) evs -> dir ∈ dirs (replay fs evs).
Proof.
  induction evs as [| e evs IH]; [intros [] |].
  intros [-> | Hin]; cbn [replay foldr].
  - cbn [applyEvent dirs]. set_solver.
  - specialize (IH Hin). fold (replay fs evs).
    destruct e; cbn [applyEvent dirs]; try exact IH.
    + destruct (files (replay fs evs) !! old); exact IH.
    + set_solver.
Qed.

Lemma notRemoved_spec new : Forall notRemoved new -> forall path, ~ In (Removed path) new.
Proof.
  intros Hall path Hin. rewrite List.Forall_forall in Hall. exact (Hall _ Hin).
Qed.

(** C8, as the code has it.  No event of [mergeAndBuild] removes a file.
    Whenever [mergeAndBuild] returns after the temporary directory is made,
    on success and on the failure of a stage alike, it returns that
    directory, and the directory is there; when the directory cannot be
    made it returns the empty path with the error; and when the patch
    retrieval stops the program, [mergeAndBuild] does not return, and the
    directory is there all the same. *)
Theorem mergeAndBuild_keeps_tempDir (flags : Flags) (url : string) (w : World) :
  let w' := snd (mergeAndBuild h flags url w) in
  exists new,
    past w' = new ++ past w
    /\ (forall path, ~ In (Removed path) new)
    /\ match fst (mergeAndBuild h flags url w) with
       | Returned (dir, err) =>
           (In (MadeDir dir) new /\ dir ∈ dirs (fsOf w'))
           \/ (new = [] /\ dir = EmptyString /\ err <> None)
       | Exit msg =>
           patchService h url (bug flags) = getpatch.FetchFatal msg
           /\ exists dir, In (MadeDir dir) new /\ dir ∈ dirs (fsOf w')
       end.
Proof.
  intros w'. subst w'.
  destruct (mergeAndBuild h flags url w) as [r w'] eqn:Hrun. cbn [fst snd].
  unfold mergeAndBuild, ioutil.TempDir, nextOp, getFS, emit in Hrun.
  unfold mbind, M_bind, mret, M_ret in Hrun. cbn [tick fs0 past cmdCount] in Hrun.
  destruct (fault h (tick w)) as [e |].
  { injection Hrun as <- <-. exists []. split; [reflexivity |].
    split; [intros path [] |].
    right. split; [reflexivity |]. split; [reflexivity | discriminate]. }
  match type of Hrun with
  | context [ioutil.freshName ?taken ?dir ?pfx ?tries] =>
      destruct (ioutil.freshName taken dir pfx tries) as [tempDir |]
  end.
  2: { injection Hrun as <- <-. exists []. split; [reflexivity |].
       split; [intros path [] |].
       right. split; [reflexivity |]. split; [reflexivity | discriminate]. }
  cbn [tick fs0 past cmdCount] in Hrun.
  set (w1 := MkWorld (fs0 w) (MadeDir tempDir :: past w) (S (tick w)) (cmdCount w)) in Hrun.
  destruct (grows_stages flags url tempDir w1) as (Hfs & new & Hpast & Hnew).
  pose proof (endsWith_stages flags url tempDir w1) as Hend.
  rewrite Hrun in Hfs, Hpast, Hend. cbn [fst snd] in *.
  exists (new ++ [MadeDir tempDir]).
  assert (Hthere : In (MadeDir tempDir) (new ++ [MadeDir tempDir])
                   /\ tempDir ∈ dirs (fsOf w')).
  { split; [apply in_or_app; right; left; reflexivity |].
    unfold fsOf. rewrite Hpast. apply made_dir_stays.
    apply in_or_app. right. left. reflexivity. }
  split; [rewrite Hpast, <- app_assoc; reflexivity |].
  split.
  - apply notRemoved_spec. apply Forall_app. split; [exact Hnew | repeat constructor].
  - destruct r as [[dir err] | msg].
    + left. subst dir. exact Hthere.
    + split; [exact Hend |]. exists tempDir. exact Hthere.
Qed.

End Kept.

(** C8 as the specification words it fails: with the temporary directory
    made, the failure of the patch retrieval ends the program, and
    [mergeAndBuild] returns nothing. *)
Lemma fatal_fetch_does_not_return_counterexample :
  let run := @mergebot.mergeAndBuild plainFormats twoMessagesHost
               (mergebot.MkFlags "min" "1") "https://bugs.debian.org/cgi-bin/soap.cgi"
               (worldOf []) in
  past (snd run) = [Died; MadeDir "/tmp/mergebot-123456789"]
  /\ fst run = mergebot.Exit "len(r.Bugs) = 2"
  /\ forall dir err, fst run <> mergebot.Returned (dir, err).
Proof.
  intros run. split; [vm_compute; reflexivity |].
  split; [vm_compute; reflexivity |].
  intros dir err. vm_compute. discriminate.
Qed.

Example TestMergeAndBuild :
  let run := @mergebot.mergeAndBuild plainFormats testHost
               (mergebot.MkFlags "min" "1") "http://127.0.0.1" (worldOf []) in
  fst run = mergebot.Returned ("/tmp/mergebot-123456789", None)
  /\ cmdCount (snd run) = 11
  /\ is_Some (files (fsOf (snd run)) !! "/tmp/mergebot-123456789/010-gbp.invocation.log")
  /\ files (fsOf (snd run)) !! "/tmp/mergebot-123456789/latest.patch" = Some "--- a/x".
Proof.
  intros run. split; [vm_compute; reflexivity |].
  split; [vm_compute; reflexivity |].
  split; [vm_compute; eexists; reflexivity | vm_compute; reflexivity].
Qed.

(** ** What the changelog filter does keep *)

Section FilterFacts.

Import Filter.

Lemma loop_app st a b : loop st (a ++ b) = loop (loop st a) b.
Proof. unfold loop. apply fold_left_app. Qed.

(** In copy mode every line is printed as it is. *)
Lemma loop_copyOnly st lines :
  copyOnly st = true ->
  loop st lines
  = {| lastSection := lastSection st; copyOnly := true;
       lastLineEmpty := lastLineEmpty st; output := output st ++ lines |}.
Proof.
  revert st. induction lines as [| x rest IH]; intros st Hco.
  - cbn [loop fold_left]. rewrite app_nil_r. destruct st; cbn in *; congruence.
  - cbn [loop fold_left]. fold (loop (step st x) rest).
    assert (Hstep : step st x = Fprintln st x) by (unfold step; rewrite Hco; reflexivity).
    rewrite Hstep, IH by exact Hco. cbn [Fprintln lastSection lastLineEmpty output].
    rewrite <- app_assoc. reflexivity.
Qed.

Lemma attribution_kind a :
  strings.HasPrefix a " -- " = true ->
  strings.HasPrefix a "  [ " = false /\ strings.HasPrefix a "  * " = false
  /\ String.eqb a "" = false.
Proof.
  destruct a as [| c1 [| c2 a]]; cbn [strings.HasPrefix]; try discriminate.
  - destruct (Ascii.eqb c1 " "); discriminate.
  - destruct (Ascii.eqb c1 " "); [| discriminate].
    destruct (Ascii.eqb_spec c2 "-") as [-> | Hne]; [| discriminate].
    intros _. repeat split; reflexivity.
Qed.

Lemma loop_before_attribution st before :
  copyOnly st = false ->
  Forall (fun line => strings.HasPrefix line " -- " = false) before ->
  copyOnly (loop st before) = false.
Proof.
  intros Hco Hall. revert st Hco.
  induction Hall as [| x rest Hx _ IH]; intros st Hco; [exact Hco |].
  cbn [loop fold_left]. apply IH.
  unfold step. rewrite Hco, Hx.
  destruct (strings.HasPrefix x "  [ "); [reflexivity |].
  cbn [copyOnly].
  destruct (strings.HasPrefix x "  * "); cbn [Fprintln copyOnly]; exact Hco.
Qed.

(** X5.  The first attribution line and every line after it are written as they
    are, after what the filter makes of the lines before. *)
Lemma attribution_onward_copied before a after :
  Forall (fun line => strings.HasPrefix line " -- " = false) before ->
  strings.HasPrefix a " -- " = true ->
  filterLines (before ++ a :: after) = filterLines before ++ a :: after.
Proof.
  intros Hbefore Ha. unfold filterLines.
  rewrite loop_app. cbn [loop fold_left].
  fold (loop init before). fold (loop (step (loop init before) a) after).
  pose proof (loop_before_attribution init before eq_refl Hbefore) as Hco.
  destruct (attribution_kind a Ha) as (Hhead & Hentry & Hempty).
  set (st := loop init before) in *.
  assert (Hstep : step st a
                  = {| lastSection := lastSection st; copyOnly := true;
                       lastLineEmpty := false; output := output st ++ [a] |}).
  { unfold step. rewrite Hco, Hhead, Hentry, Ha, Hempty.
    rewrite andb_false_r. reflexivity. }
  rewrite Hstep, loop_copyOnly by reflexivity. cbn [output].
  rewrite <- app_assoc. reflexivity.
Qed.

End FilterFacts.

(** ** Where filtering twice is filtering once *)

Section Idempotence.

Import Filter.

Ltac pass :=
  cbn [Fprintln output copyOnly lastLineEmpty lastSection andb].

Ltac second_pass Hs2 :=
  rewrite loop_app, Hs2; cbn [loop fold_left]; unfold step; pass.

Lemma inStep_step s1 x rest :
  inStep s1 -> wellHeaded s1 (x :: rest) ->
  inStep (step s1 x) /\ wellHeaded (step s1 x) rest.
Proof.
  unfold inStep, wellHeaded, isHeader. intros (Hout & Hco & Hlle) Hok.
  destruct s1 as [ls1 co1 lle1 out1]. pass. cbn [output copyOnly lastLineEmpty lastSection] in *.
  destruct (loop init out1) as [ls2 co2 lle2 out2] eqn:Hs2.
  cbn [output copyOnly lastLineEmpty lastSection] in *. subst out2 co2 lle2.
  cbn [entriesUnderHeaders] in Hok.
  unfold step. pass.
  destruct co1.
  { pass. second_pass Hs2.
    split; [repeat split | discriminate]. }
  specialize (Hok eq_refl).
  destruct (strings.HasPrefix x "  [ ") eqn:Hh.
  { pass. rewrite Hs2. pass. rewrite Hh.
    split; [repeat split | intros _; exact Hok]. }
  destruct (strings.HasPrefix x " -- ") eqn:Ha.
  { destruct (attribution_kind x Ha) as (_ & -> & ->). rewrite andb_false_r. pass.
    second_pass Hs2. rewrite Hh, Ha.
    destruct (attribution_kind x Ha) as (_ & -> & ->). rewrite andb_false_r. pass.
    split; [repeat split | discriminate]. }
  destruct (strings.HasPrefix x "  * ") eqn:Hb.
  { apply andb_true_iff in Hok as [Hls Hok].
    assert (He : String.eqb x "" = false).
    { destruct x; [discriminate Hb | reflexivity]. }
    rewrite He, andb_false_r. pass.
    change (out1 ++ [ls1] ++ [x]) with (out1 ++ [ls1; x]).
    rewrite <- app_assoc. cbn [app].
    second_pass Hs2.
    rewrite Hls. pass. rewrite Hh, Hb, Ha, He, andb_false_r. pass.
    rewrite <- app_assoc. rewrite Hls in Hok.
    split; [repeat split | intros _; exact Hok]. }
  pass. destruct (lle1 && String.eqb x "") eqn:Hskip; pass.
  - rewrite Hs2. pass. apply andb_true_iff in Hskip as [-> He].
    split; [| intros _; exact Hok].
    split; [reflexivity |]. split; [reflexivity | symmetry; exact He].
  - second_pass Hs2. rewrite Hh, Hb, Ha. pass. rewrite Hskip. pass.
    split; [repeat split | intros _; exact Hok].
Qed.

Lemma inStep_loop lines s1 :
  inStep s1 -> wellHeaded s1 lines -> inStep (loop s1 lines).
Proof.
  revert s1. induction lines as [| x rest IH]; intros s1 Hin Hok; [exact Hin |].
  cbn [loop fold_left]. fold (loop (step s1 x) rest).
  destruct (inStep_step s1 x rest Hin Hok) as [Hin' Hok'].
  apply IH; assumption.
Qed.

(** When every entry above the first attribution line has a section header
    above it, filtering the filtered lines gives the same lines. *)
Lemma filterLines_idempotent lines :
  entriesUnderHeaders false lines = true ->
  filterLines (filterLines lines) = filterLines lines.
Proof.
  intros Hok. unfold filterLines.
  assert (Hinit : inStep init) by (repeat split).
  destruct (inStep_loop lines init Hinit (fun _ => Hok)) as (Hout & _ & _).
  exact Hout.
Qed.

End Idempotence.

(** ** What the changelog filter prints *)

Section FilterOutput.

Import Filter.

Ltac pass :=
  cbn [Fprintln output copyOnly lastLineEmpty lastSection andb].

Lemma entry_kind x :
  strings.HasPrefix x "  * " = true ->
  String.eqb x "" = false /\ strings.HasPrefix x "  [ " = false.
Proof.
  destruct x as [| c1 [| c2 [| c3 x]]]; cbn [strings.HasPrefix]; try discriminate.
  - destruct (Ascii.eqb c1 " "); discriminate.
  - destruct (Ascii.eqb c1 " "); [| discriminate].
    destruct (Ascii.eqb c2 " "); discriminate.
  - destruct (Ascii.eqb c1 " "); [| discriminate].
    destruct (Ascii.eqb c2 " "); [| discriminate].
    destruct (Ascii.eqb_spec c3 "*") as [-> | Hne]; [| discriminate].
    intros _. split; reflexivity.
Qed.

Lemma header_kind x : isHeader x = true -> String.eqb x "" = false.
Proof. destruct x; [discriminate | reflexivity]. Qed.

(** What one iteration prints: nothing, the line, or the remembered section
    followed by the line, which is an entry then. *)
Lemma step_output st x :
  copyOnly st = false ->
  output (step st x) = output st
  \/ (output (step st x) = output st ++ [x] /\ isHeader x = false /\ isEntry x = false)
  \/ (output (step st x) = output st ++ [lastSection st; x] /\ isEntry x = true).
Proof.
  intros Hco. unfold step. rewrite Hco.
  destruct (strings.HasPrefix x "  [ ") eqn:Hh; [left; reflexivity |].
  destruct (strings.HasPrefix x "  * ") eqn:Hb.
  - right. right. destruct (entry_kind x Hb) as [He _].
    rewrite He, andb_false_r. pass. rewrite <- app_assoc.
    split; [reflexivity | exact Hb].
  - destruct (lastLineEmpty st && String.eqb x ""); pass; [left; reflexivity |].
    right. left. split; [reflexivity |]. split; [exact Hh | exact Hb].
Qed.

Lemma step_lastSection st x :
  lastSection (step st x) = lastSection st
  \/ (lastSection (step st x) = x /\ isHeader x = true).
Proof.
  unfold step. destruct (copyOnly st); [left; reflexivity |].
  destruct (strings.HasPrefix x "  [ ") eqn:Hh; [right; split; [reflexivity | exact Hh] |].
  left. pass.
  destruct (strings.HasPrefix x "  * "); pass;
    destruct (_ && String.eqb x ""); reflexivity.
Qed.

(** *** The lines that are kept *)

Lemma step_content st x :
  isContent (lastSection st) = false ->
  isContent (lastSection (step st x)) = false
  /\ List.filter isContent (output (step st x))
     = List.filter isContent (output st) ++ List.filter isContent [x].
Proof.
  intros Hls. split.
  - destruct (step_lastSection st x) as [-> | [-> Hh]]; [exact Hls |].
    unfold isContent. rewrite Hh, andb_false_r. reflexivity.
  - destruct (copyOnly st) eqn:Hco.
    { unfold step. rewrite Hco. pass. apply List.filter_app. }
    unfold step. rewrite Hco.
    destruct (strings.HasPrefix x "  [ ") eqn:Hh.
    { pass. cbn [List.filter]. unfold isContent, isHeader. rewrite Hh, andb_false_r.
      rewrite app_nil_r. reflexivity. }
    destruct (strings.HasPrefix x "  * ") eqn:Hb.
    { destruct (entry_kind x Hb) as [He _]. rewrite He, andb_false_r. pass.
      rewrite !List.filter_app. cbn [List.filter]. rewrite Hls, app_nil_r. reflexivity. }
    destruct (lastLineEmpty st && String.eqb x "") eqn:Hskip; pass.
    + apply andb_true_iff in Hskip as [_ He]. cbn [List.filter].
      unfold isContent. rewrite He. cbn [negb andb]. rewrite app_nil_r. reflexivity.
    + apply List.filter_app.
Qed.

Lemma loop_content lines st :
  isContent (lastSection st) = false ->
  List.filter isContent (output (loop st lines))
  = List.filter isContent (output st) ++ List.filter isContent lines.
Proof.
  revert st. induction lines as [| x rest IH]; intros st Hls.
  - cbn [loop fold_left List.filter]. rewrite app_nil_r. reflexivity.
  - cbn [loop fold_left]. fold (loop (step st x) rest).
    destruct (step_content st x Hls) as [Hls' Hout].
    rewrite IH by exact Hls'. rewrite Hout, <- app_assoc.
    cbn [List.filter]. destruct (isContent x); reflexivity.
Qed.

(** X1.  The filter drops nothing but empty lines and section headers and
    adds nothing but empty lines and section headers: the lines of the
    output that are neither are the lines of the input that are neither, in
    the same order and as often. *)
Theorem filter_keeps_every_other_line (lines : list string) :
  List.filter isContent (filterLines lines) = List.filter isContent lines.
Proof.
  unfold filterLines. rewrite loop_content by reflexivity. reflexivity.
Qed.

(** *** Section headers *)

Lemma step_not_copyOnly st x :
  copyOnly st = false -> isAttribution x = false -> copyOnly (step st x) = false.
Proof.
  intros Hco Hx.
  apply (loop_before_attribution st [x] Hco). constructor; [exact Hx | constructor].
Qed.

Lemma headersBeforeEntries_app out chunk :
  headersBeforeEntries out = true -> headersBeforeEntries chunk = true ->
  headersBeforeEntries (out ++ chunk) = true.
Proof.
  intros Hout Hchunk. induction out as [| x rest IH]; [exact Hchunk |].
  cbn [headersBeforeEntries app] in *.
  apply andb_true_iff in Hout as [Hx Hrest].
  rewrite (IH Hrest), andb_true_r.
  destruct (isHeader x); [| reflexivity].
  destruct rest as [| next rest']; [discriminate | exact Hx].
Qed.

Lemma headersBeforeEntries_spec out :
  headersBeforeEntries out = true ->
  forall pre x post, out = pre ++ x :: post -> isHeader x = true ->
    exists entry rest, post = entry :: rest /\ isEntry entry = true.
Proof.
  intros Hout pre. revert out Hout.
  induction pre as [| y pre IH]; intros out Hout x post -> Hx.
  - cbn [app headersBeforeEntries] in Hout. rewrite Hx in Hout.
    destruct post as [| entry rest]; [discriminate |].
    apply andb_true_iff in Hout as [He _]. exists entry, rest. split; [reflexivity | exact He].
  - cbn [app headersBeforeEntries] in Hout. apply andb_true_iff in Hout as [_ Hrest].
    exact (IH _ Hrest x post eq_refl Hx).
Qed.

Lemma loop_headersBeforeEntries lines st :
  copyOnly st = false ->
  Forall (fun line => isAttribution line = false) lines ->
  headersBeforeEntries (output st) = true ->
  headersBeforeEntries (output (loop st lines)) = true.
Proof.
  intros Hco Hall. revert st Hco.
  induction Hall as [| x rest Hx _ IH]; intros st Hco Hout; [exact Hout |].
  cbn [loop fold_left]. apply IH; [apply step_not_copyOnly; assumption |].
  destruct (step_output st x Hco) as [-> | [(-> & Hh & _) | (-> & Hb)]].
  - exact Hout.
  - apply headersBeforeEntries_app; [exact Hout |].
    cbn [headersBeforeEntries]. rewrite Hh. reflexivity.
  - apply headersBeforeEntries_app; [exact Hout |].
    destruct (entry_kind x Hb) as [_ Hh].
    cbn [headersBeforeEntries]. unfold isHeader at 2. rewrite Hh.
    unfold isEntry in Hb. unfold isEntry. rewrite Hb.
    destruct (isHeader (lastSection st)); reflexivity.
Qed.

(** X2.  In what the filter makes of lines without an attribution line, a
    section header is always followed by an entry, on the next line: a
    header is printed only for an entry, so a section without entries
    leaves no header. *)
Theorem header_only_before_entry (lines pre : list string) (x : string)
  (post : list string) :
  Forall (fun line => isAttribution line = false) lines ->
  filterLines lines = pre ++ x :: post ->
  isHeader x = true ->
  exists entry rest, post = entry :: rest /\ isEntry entry = true.
Proof.
  intros Hall Hout Hx.
  apply (headersBeforeEntries_spec (filterLines lines)) with (pre := pre) (x := x);
    [| exact Hout | exact Hx].
  unfold filterLines. apply loop_headersBeforeEntries; [reflexivity | exact Hall | reflexivity].
Qed.

(** *** Empty lines *)

Lemma singleBlanks_snoc out y :
  singleBlanks (out ++ [y])
  = singleBlanks out && negb (String.eqb (List.last out "-") "" && String.eqb y "").
Proof.
  induction out as [| x rest IH]; [cbn; rewrite andb_false_r; reflexivity |].
  cbn [app singleBlanks]. rewrite IH.
  destruct rest as [| next rest'].
  - cbn [app singleBlanks List.last].
    destruct (String.eqb x ""), (String.eqb y ""); reflexivity.
  - cbn [app]. change (List.last (x :: next :: rest') "-") with (List.last (next :: rest') "-").
    rewrite andb_assoc. reflexivity.
Qed.

Lemma last_snoc {A} (out : list A) y d : List.last (out ++ [y]) d = y.
Proof. apply List.last_last. Qed.

Lemma singleBlanks_spec out :
  singleBlanks out = true -> forall pre post, out <> pre ++ "" :: "" :: post.
Proof.
  intros Hout pre. revert out Hout.
  induction pre as [| y pre IH]; intros out Hout post ->.
  - cbn in Hout. discriminate.
  - cbn [app singleBlanks] in Hout. apply andb_true_iff in Hout as [_ Hrest].
    exact (IH _ Hrest post eq_refl).
Qed.

Lemma step_blanksInOrder st x rest :
  isAttribution x = false ->
  blanksInOrder st (x :: rest) -> blanksInOrder (step st x) rest.
Proof.
  intros Hx (Hco & Hout & Hlast & Hok).
  split; [apply step_not_copyOnly; assumption |].
  cbn [entriesUnderHeaders] in Hok. unfold isAttribution in Hx. rewrite Hx in Hok.
  unfold step. rewrite Hco.
  destruct (strings.HasPrefix x "  [ ") eqn:Hh.
  { pass. split; [exact Hout |]. split; [exact Hlast |].
    unfold isHeader at 1. rewrite Hh. exact Hok. }
  destruct (strings.HasPrefix x "  * ") eqn:Hb.
  { apply andb_true_iff in Hok as [Hls Hok].
    destruct (entry_kind x Hb) as [He _]. rewrite He, andb_false_r. pass.
    split; [| split].
    - rewrite !singleBlanks_snoc, Hout, He, last_snoc.
      rewrite (header_kind _ Hls), !andb_false_r. reflexivity.
    - intros _. rewrite last_snoc. exact He.
    - rewrite Hls in Hok. rewrite Hls. exact Hok. }
  pass. destruct (lastLineEmpty st && String.eqb x "") eqn:Hskip; pass.
  - apply andb_true_iff in Hskip as [_ He].
    split; [exact Hout |]. split; [rewrite He; discriminate | exact Hok].
  - split; [| split; [| exact Hok]].
    + rewrite singleBlanks_snoc, Hout. cbn [andb].
      destruct (String.eqb x "") eqn:He; [| rewrite andb_false_r; reflexivity].
      rewrite andb_true_r in Hskip. rewrite (Hlast Hskip). reflexivity.
    + intros He. rewrite last_snoc. exact He.
Qed.

Lemma loop_blanksInOrder lines st :
  Forall (fun line => isAttribution line = false) lines ->
  blanksInOrder st lines -> singleBlanks (output (loop st lines)) = true.
Proof.
  intros Hall. revert st.
  induction Hall as [| x rest Hx _ IH]; intros st Hst.
  - destruct Hst as (_ & Hout & _). exact Hout.
  - cbn [loop fold_left]. apply IH. apply step_blanksInOrder; assumption.
Qed.

(** X3.  When no entry comes before the first section header, what the
    filter makes of lines without an attribution line has no two empty
    lines in a row. *)
Theorem blank_lines_collapse (lines pre post : list string) :
  Forall (fun line => isAttribution line = false) lines ->
  entriesUnderHeaders false lines = true ->
  filterLines lines <> pre ++ "" :: "" :: post.
Proof.
  intros Hall Hok. apply singleBlanks_spec.
  unfold filterLines. apply loop_blanksInOrder; [exact Hall |].
  split; [reflexivity |]. split; [reflexivity |]. split; [reflexivity | exact Hok].
Qed.

(** X4.  When no entry above the first attribution line comes before the
    first section header, filtering the lines again, any number of times,
    gives what filtering them once gives. *)
Theorem filtering_again_changes_nothing (lines : list string) (n : nat) :
  entriesUnderHeaders false lines = true ->
  Nat.iter (S n) filterLines lines = filterLines lines.
Proof.
  intros Hok. induction n as [| n IH]; [reflexivity |].
  change (Nat.iter (S (S n)) filterLines lines)
    with (filterLines (Nat.iter (S n) filterLines lines)).
  rewrite IH. apply filterLines_idempotent. exact Hok.
Qed.

End FilterOutput.

(** ** What a call of the changelog filter leaves behind *)

Section FilterFrame.

Context (h : Host).

(** The events of a call: none, or a temporary file in the directory of the
    target is made and written, perhaps renamed over the target, and
    removed unless the removal fails. *)
Lemma filterChangelog_trace path w :
  let w' := snd (filterChangelog h path w) in
  fs0 w' = fs0 w
  /\ (past w' = past w
      \/ exists tmp lines body cleanup,
           (exists sfx, tmp = filepath.Join [filepath.Dir path; ".mergebot-" +:+ sfx])
           /\ files (fsOf w) !! tmp = None
           /\ past w' = cleanup ++ body ++ Created tmp :: past w
           /\ (body = printed tmp lines \/ body = Renamed tmp path :: printed tmp lines)
           /\ (cleanup = [Removed tmp]
               \/ (cleanup = [] /\ exists k e, tick w < k /\ fault h k = Some e))).
Proof.
  intros w'. subst w'.
  destruct (filterChangelog h path w) as [r w'] eqn:Hrun. cbn [fst snd].
  unfold filterChangelog, filterInto, orReturn, ioutil.TempFile,
    os.OpenAndScan, os.Close, os.Rename, os.Remove, fallible, nextOp, emit,
    getFS in Hrun.
  unfold mbind, M_bind, mret, M_ret in Hrun.
  destruct w as [f0 p0 t0 c0]. cbn [tick fs0 past cmdCount] in *.
  destruct (fault h t0) as [e |] eqn:F0.
  { injection Hrun as <- <-. split; [reflexivity | left; reflexivity]. }
  match type of Hrun with
  | context [ioutil.freshName ?taken ?dir ?pfx ?tries] =>
      destruct (ioutil.freshName taken dir pfx tries) as [tmp |] eqn:Hfresh
  end.
  2: { injection Hrun as <- <-. split; [reflexivity | left; reflexivity]. }
  apply freshName_Some in Hfresh as [Hname Hfree].
  apply bool_decide_eq_false in Hfree. apply eq_None_not_Some in Hfree.
  cbn [tick fs0 past cmdCount] in Hrun.
  assert (Hclean : forall (r0 : result unit) evs t1, t0 < t1 ->
    (let '(_, w0) :=
       match fault h t1 with
       | Some _ => fun w : World => (tt, w)
       | None => fun w : World =>
           (tt, MkWorld (fs0 w) (Removed tmp :: past w) (tick w) (cmdCount w))
       end (MkWorld f0 evs (S t1) c0)
     in (r0, w0)) = (r, w') ->
    fs0 w' = f0
    /\ exists cleanup,
         (cleanup = [Removed tmp]
          \/ (cleanup = [] /\ exists k e, t0 < k /\ fault h k = Some e))
         /\ past w' = cleanup ++ evs).
  { intros r0 evs t1 Hlt Heq. destruct (fault h t1) as [e |] eqn:F; injection Heq as <- <-.
    - split; [reflexivity |]. exists []. split; [right | reflexivity].
      split; [reflexivity |]. exists t1, e. split; [exact Hlt | exact F].
    - split; [reflexivity |]. exists [Removed tmp]. split; [left |]; reflexivity. }
  assert (Hdone : forall lines body evs,
    (body = printed tmp lines \/ body = Renamed tmp path :: printed tmp lines) ->
    evs = body ++ Created tmp :: p0 ->
    (fs0 w' = f0
     /\ exists cleanup,
          (cleanup = [Removed tmp]
           \/ (cleanup = [] /\ exists k e, t0 < k /\ fault h k = Some e))
          /\ past w' = cleanup ++ evs) ->
    fs0 w' = f0
    /\ (past w' = p0
        \/ exists tmp0 lines0 body0 cleanup,
             (exists sfx, tmp0 = filepath.Join [filepath.Dir path; ".mergebot-" +:+ sfx])
             /\ files (replay f0 p0) !! tmp0 = None
             /\ past w' = cleanup ++ body0 ++ Created tmp0 :: p0
             /\ (body0 = printed tmp0 lines0 \/ body0 = Renamed tmp0 path :: printed tmp0 lines0)
             /\ (cleanup = [Removed tmp0]
                 \/ (cleanup = [] /\ exists k e, t0 < k /\ fault h k = Some e)))).
  { intros lines body evs Hbody -> (Hfs & cleanup & Hc & Hpast).
    split; [exact Hfs |]. right. exists tmp, lines, body, cleanup.
    split; [exact Hname |]. split; [exact Hfree |]. split; [exact Hpast |].
    split; [exact Hbody | exact Hc]. }
  destruct (fault h (S t0)) as [e |] eqn:F1.
  { apply Hclean in Hrun; [| cbn [tick]; lia].
    apply (Hdone [] (printed tmp []) _ (or_introl eq_refl) eq_refl Hrun). }
  destruct (files (fsOf (MkWorld f0 (Created tmp :: p0) (S (S t0)) c0)) !! path)
    as [data |] eqn:Hdata.
  2: { apply Hclean in Hrun; [| cbn [tick]; lia].
       apply (Hdone [] (printed tmp []) _ (or_introl eq_refl) eq_refl Hrun). }
  destruct (bufio.Scan data (readErr h (S t0))) as [lines scanErr] eqn:Hscan.
  rewrite printLines_spec in Hrun. cbn [tick fs0 past cmdCount] in Hrun.
  destruct scanErr as [e |].
  { apply Hclean in Hrun; [| cbn [tick]; lia].
    apply (Hdone _ (printed tmp (Filter.filterLines lines)) _ (or_introl eq_refl) eq_refl Hrun). }
  cbn [tick fs0 past cmdCount] in Hrun.
  destruct (fault h (S (S t0))) as [e |] eqn:F2.
  { cbn [tick fs0 past cmdCount] in Hrun. apply Hclean in Hrun; [| cbn [tick]; lia].
    apply (Hdone _ (printed tmp (Filter.filterLines lines)) _ (or_introl eq_refl) eq_refl Hrun). }
  cbn [tick fs0 past cmdCount] in Hrun.
  destruct (fault h (S (S (S t0)))) as [e |] eqn:F3.
  { cbn [tick fs0 past cmdCount] in Hrun. apply Hclean in Hrun; [| cbn [tick]; lia].
    apply (Hdone _ (printed tmp (Filter.filterLines lines)) _ (or_introl eq_refl) eq_refl Hrun). }
  cbn [tick fs0 past cmdCount] in Hrun. apply Hclean in Hrun; [| cbn [tick]; lia].
  apply (Hdone (Filter.filterLines lines)
           (Renamed tmp path :: printed tmp (Filter.filterLines lines)) _
           (or_intror eq_refl) eq_refl Hrun).
Qed.

Lemma replay_dirs fs evs :
  Forall (fun e => forall d, e <> MadeDir d) evs -> dirs (replay fs evs) = dirs fs.
Proof.
  induction 1 as [| e evs He _ IH]; [reflexivity |].
  cbn [replay foldr]. fold (replay fs evs). rewrite <- IH.
  destruct e; cbn [applyEvent dirs]; try reflexivity.
  - destruct (files (replay fs evs) !! old); reflexivity.
  - exfalso. exact (He _ eq_refl).
Qed.

(** X6.  A call of [filterChangelog] makes or removes no directory and
    leaves every file other than its target as it was, whatever it returns;
    the one exception is a temporary file [.mergebot-*] in the directory of
    the target, which is left behind when a file operation of the call has
    failed. *)
Theorem filterChangelog_touches_nothing_else (path p : string) (w : World) :
  p <> path ->
  let w' := snd (filterChangelog h path w) in
  dirs (fsOf w') = dirs (fsOf w)
  /\ (files (fsOf w') !! p = files (fsOf w) !! p
      \/ (files (fsOf w) !! p = None
          /\ (exists sfx, p = filepath.Join [filepath.Dir path; ".mergebot-" +:+ sfx])
          /\ exists k e, tick w < k /\ fault h k = Some e)).
Proof.
  intros Hp w'. subst w'.
  destruct (filterChangelog_trace path w) as [Hfs0 Htrace].
  unfold fsOf at 1 3. rewrite Hfs0.
  destruct Htrace as [-> | (tmp & lines & body & cleanup & Hname & Hfree & -> & Hbody & Hclean)].
  { split; [reflexivity | left; reflexivity]. }
  assert (Hsplit : cleanup ++ body ++ Created tmp :: past w
                   = (cleanup ++ body ++ [Created tmp]) ++ past w)
    by (rewrite <- !app_assoc; reflexivity).
  rewrite Hsplit, replay_app. fold (fsOf w).
  assert (Hprinted : Forall (fun e => forall d, e <> MadeDir d) (printed tmp lines)).
  { apply List.Forall_forall. intros e Hin d ->.
    apply in_rev, in_map_iff in Hin as (line & Heq & _). discriminate. }
  split.
  - apply replay_dirs. apply Forall_app. split; [| apply Forall_app; split].
    + destruct Hclean as [-> | [-> _]]; repeat constructor; discriminate.
    + destruct Hbody as [-> | ->]; [exact Hprinted |].
      constructor; [discriminate | exact Hprinted].
    + repeat constructor; discriminate.
  - destruct (decide (p = tmp)) as [-> | Hne].
    + destruct Hclean as [-> | [-> Hfault]].
      * left. cbn [app replay foldr applyEvent files].
        rewrite lookup_delete_eq. symmetry. exact Hfree.
      * right. split; [exact Hfree |]. split; [exact Hname | exact Hfault].
    + left. apply replay_untouched.
      apply Forall_app. split; [| apply Forall_app; split].
      * destruct Hclean as [-> | [-> _]]; repeat constructor.
        cbn [touches]. congruence.
      * assert (Hq : Forall (fun e => ~ touches p e) (printed tmp lines))
          by (apply printed_quiet; congruence).
        destruct Hbody as [-> | ->]; [exact Hq |].
        constructor; [| exact Hq]. cbn [touches]. intros [? | ?]; congruence.
      * repeat constructor. cbn [touches]. congruence.
Qed.

End FilterFrame.

(** ** More on the first line of the output *)

Lemma beforeNewline_split s :
  hasNewline (beforeNewline s) = false
  /\ (s = beforeNewline s \/ exists rest, s = beforeNewline s +:+ nl +:+ rest).
Proof.
  induction s as [| c s [IHn IHs]]; [split; [reflexivity | left; reflexivity] |].
  cbn [beforeNewline]. destruct (Ascii.eqb_spec c LF) as [-> | Hne].
  - split; [reflexivity |]. right. exists s. reflexivity.
  - cbn [hasNewline]. destruct (Ascii.eqb_spec c LF) as [? | _]; [contradiction |].
    split; [exact IHn |].
    destruct IHs as [IHs | [rest IHs]].
    + left. f_equal. exact IHs.
    + right. exists rest. cbn [String.append]. f_equal. exact IHs.
Qed.

(** X7.  However the process cuts its output into writes, [FirstLine] is
    the output up to its first newline, the newline not included, and all
    of the output when it has no newline. *)
Theorem first_line_whatever_the_writes (chunks : list string) :
  let cw := captured chunks (loggedexec.MkCapturingWriter EmptyString false) in
  let output := concat chunks in
  hasNewline (loggedexec.FirstLine cw) = false
  /\ (output = loggedexec.FirstLine cw
      \/ exists rest, output = loggedexec.FirstLine cw +:+ nl +:+ rest).
Proof.
  intros cw output. subst cw. rewrite FirstLine_captured.
  apply beforeNewline_split.
Qed.

(** X10.  Every URL [git://anonscm.debian.org/<path>] is rewritten to
    [git+ssh://git.debian.org/git/<path>].  What is replaced is the first
    [git] of the URL, wherever it is: in
    [https://anonscm.debian.org/git/<path>] it is the one of the path, and
    the scheme stays. *)
Theorem rewriteURL_anonscm_git (path : string) :
  mergebot.rewriteURL ("git://anonscm.debian.org/" +:+ path)
  = "git+ssh://git.debian.org/git/" +:+ path
  /\ mergebot.rewriteURL ("https://anonscm.debian.org/git/" +:+ path)
     = "https://git.debian.org/git/git+ssh/" +:+ path.
Proof. split; reflexivity. Qed.

(** ** The output log of an invocation *)

Section OutputLog.

Context `{Formats} (h : Host).

Import loggedexec.




(** X9.  When the command has no directory of its own and the working
    directory of the program cannot be determined, [Run] returns that
    error; by then it has printed the command line and taken a sequence
    index, and it makes no file and starts no process. *)
Theorem run_without_working_directory (l : LoggedCmd) (w : World) (e : string) :
  Dir l = EmptyString ->
  fault h (tick w) = Some e ->
  Run h l w
  = (Err e,
     MkWorld (fs0 w) (Printed (strings.Join (Args l) " ") :: past w)
       (S (tick w)) (S (cmdCount w))).
Proof.
  intros Hdir Hfault.
  unfold Run, RunIndexed, runWith, orReturn, os.Getwd, fallible, takeCount,
    nextOp, emit.
  unfold mbind, M_bind, mret, M_ret. cbn [fs0 past tick cmdCount].
  rewrite Hdir. cbn [String.eqb]. cbn [fs0 past tick cmdCount].
  rewrite Hfault. reflexivity.
Qed.

End OutputLog.

(** ** Splitting at a byte *)

Lemma SplitByte_length s c : length (strings.SplitByte s c) = S (countByte c s).
Proof.
  induction s as [| d s IH]; [reflexivity |].
  cbn [strings.SplitByte countByte]. destruct (Ascii.eqb d c).
  - cbn [length]. rewrite IH. reflexivity.
  - destruct (strings.SplitByte s c) as [| f fs]; [discriminate IH |].
    cbn [length] in *. exact IH.
Qed.


Lemma SplitByte_fields s c :
  Forall (fun f => strings.IndexByte f c = None) (strings.SplitByte s c).
Proof.
  induction s as [| d s IH]; [repeat constructor |].
  cbn [strings.SplitByte]. destruct (Ascii.eqb d c) eqn:Hd.
  - constructor; [reflexivity | exact IH].
  - destruct (strings.SplitByte s c) as [| f fs]; [repeat constructor; cbn; rewrite Hd; reflexivity |].
    inversion IH as [| ? ? Hf Hfs]; subst. constructor; [| exact Hfs].
    cbn [strings.IndexByte]. rewrite Hd, Hf. reflexivity.
Qed.

(** ** The answer of [debcheckout] *)

Section Debcheckout.

Context `{Formats} (h : Host).

Import mergebot.

(** X11.  [repositoryFor] runs [debcheckout] outside the logging of package
    loggedexec: the call prints no command line, takes no sequence index
    and makes or changes no file; all it leaves is the start and the exit
    of at most one process. *)
Theorem repositoryFor_is_not_logged (newCommand : factory)
  (sourcePackage : string) (w : World) :
  let cmd := newCommand "debcheckout" ["--print"; sourcePackage] in
  let w' := snd (repositoryFor h newCommand sourcePackage w) in
  cmdCount w' = cmdCount w
  /\ fsOf w' = fsOf w
  /\ (past w' = past w
      \/ exists status,
           past w' = Exited status
                       :: Started (loggedexec.Args cmd) (loggedexec.Dir cmd)
                            (loggedexec.childEnviron h cmd)
                       :: past w).
Proof.
  intros cmd w'. subst cmd w'.
  unfold repositoryFor, Output, orReturn, nextOp, emit.
  unfold mbind, M_bind, mret, M_ret. cbn [fs0 past tick cmdCount].
  destruct (child h (tick w)) as [e | chunks status].
  - cbn [snd cmdCount past]. split; [reflexivity |]. split; [reflexivity | left; reflexivity].
  - cbn [fs0 past tick cmdCount].
    destruct status as [e |].
    + cbn [snd cmdCount past]. split; [reflexivity |]. split; [reflexivity |].
      right. eexists. reflexivity.
    + destruct (strings.SplitByte _ TAB) as [| scm [| url [| x parts]]];
        cbn [snd cmdCount past]; (split; [reflexivity |]); (split; [reflexivity |]);
        right; eexists; reflexivity.
Qed.


End Debcheckout.

(** ** No process after a failed one *)

Lemma app_eq_split {A} (l1 l2 a b : list A) (x : A) :
  l1 ++ x :: l2 = a ++ b ->
  (exists l2', a = l1 ++ x :: l2' /\ l2 = l2' ++ b)
  \/ (exists l1', b = l1' ++ x :: l2 /\ l1 = a ++ l1').
Proof.
  revert l1. induction a as [| y a IH]; intros l1 Heq.
  - right. exists l1. split; [symmetry; exact Heq | reflexivity].
  - destruct l1 as [| z l1]; cbn [app] in Heq; injection Heq as -> Heq.
    + left. exists a. split; [reflexivity | exact Heq].
    + destruct (IH _ Heq) as [(l2' & -> & ->) | (l1' & -> & ->)].
      * left. exists l2'. split; reflexivity.
      * right. exists l1'. split; reflexivity.
Qed.

Lemma quietExits_app a b : quietExits a -> quietExits b -> quietExits (a ++ b).
Proof.
  intros Ha Hb st Hin. apply in_app_or in Hin as [Hin | Hin];
    [exact (Ha st Hin) | exact (Hb st Hin)].
Qed.

Lemma quietExits_Forall evs :
  Forall (fun e => forall st, e <> Exited (Some st)) evs -> quietExits evs.
Proof.
  intros Hall st Hin. rewrite List.Forall_forall in Hall. exact (Hall _ Hin st eq_refl).
Qed.

(** Events without a start, after events without a failed exit *)
Lemma startsAfterSuccess_split newer0 older0 :
  Forall (fun e => forall a d x, e <> Started a d x) newer0 ->
  quietExits older0 ->
  startsAfterSuccess (newer0 ++ older0).
Proof.
  intros Hnewer Holder newer a d e older Heq st Hin.
  symmetry in Heq.
  apply app_eq_split in Heq as [(l2' & Heq & _) | (l1' & Heq & _)].
  - rewrite List.Forall_forall in Hnewer.
    apply (Hnewer (Started a d e)) with (a := a) (d := d) (x := e); [| reflexivity].
    rewrite Heq. apply in_or_app. right. left. reflexivity.
  - apply (Holder st). rewrite Heq. apply in_or_app. right. right. exact Hin.
Qed.

Lemma startsAfterSuccess_app newer older :
  startsAfterSuccess newer -> startsAfterSuccess older -> quietExits older ->
  startsAfterSuccess (newer ++ older).
Proof.
  intros Hnewer Holder Hquiet l1 a d e l2 Heq st Hin.
  symmetry in Heq.
  apply app_eq_split in Heq as [(l2' & Heq & ->) | (l1' & Heq & _)].
  - apply in_app_or in Hin as [Hin | Hin]; [| exact (Hquiet st Hin)].
    exact (Hnewer _ _ _ _ _ Heq st Hin).
  - apply (Hquiet st). rewrite Heq. apply in_or_app. right. right. exact Hin.
Qed.

Section FailFast.

Lemma failFast_ret {A} (ok : A -> Prop) (a : A) : failFast ok (mret a).
Proof.
  intros w. exists []. split; [reflexivity |].
  split; [intros [| ? ?] ? ? ? ? Heq; discriminate Heq | intros _ st []].
Qed.

Lemma failFast_silent {A} (ok : A -> Prop) (m : M A) :
  (forall w, exists new, past (snd (m w)) = new ++ past w
                         /\ Forall (fun e => ~ processEvent e) new) ->
  failFast ok m.
Proof.
  intros Hm w. destruct (Hm w) as (new & Hpast & Hall). exists new.
  split; [exact Hpast |]. rewrite List.Forall_forall in Hall. split.
  - intros newer a d e older -> st Hin.
    apply (Hall (Started a d e)); [| exact I].
    apply in_or_app. right. left. reflexivity.
  - intros _ st Hin. exact (Hall _ Hin I).
Qed.

Lemma failFast_emit (ok : unit -> Prop) e : ~ processEvent e -> failFast ok (emit e).
Proof.
  intros He. apply failFast_silent. intros w. exists [e].
  split; [reflexivity | constructor; [exact He | constructor]].
Qed.

Lemma failFast_nextOp ok : failFast ok nextOp.
Proof.
  apply failFast_silent. intros w. exists []. split; [reflexivity | constructor].
Qed.

Lemma failFast_getFS ok : failFast ok getFS.
Proof.
  apply failFast_silent. intros w. exists []. split; [reflexivity | constructor].
Qed.

(** A step that leaves no failed exit, whatever it returns, and what
    follows it *)
Lemma failFast_bind {A B} (ok : B -> Prop) (m : M A) (k : A -> M B) :
  failFast (fun _ => True) m -> (forall a, failFast ok (k a)) ->
  failFast ok (m ≫= k).
Proof.
  intros Hm Hk w. unfold mbind, M_bind.
  destruct (Hm w) as (n1 & Hp1 & Hs1 & Hq1).
  destruct (m w) as [a w1]. cbn [fst snd] in *.
  destruct (Hk a w1) as (n2 & Hp2 & Hs2 & Hq2).
  exists (n2 ++ n1). split; [rewrite Hp2, Hp1, app_assoc; reflexivity |].
  split.
  - apply startsAfterSuccess_app; [exact Hs2 | exact Hs1 | exact (Hq1 I)].
  - intros Hok. apply quietExits_app; [exact (Hq2 Hok) | exact (Hq1 I)].
Qed.

Lemma failFast_orReturn {A B} (m : M (result A)) (k : A -> M (result B)) :
  failFast isOk m -> (forall a, failFast isOk (k a)) ->
  failFast isOk (orReturn m k).
Proof.
  intros Hm Hk w. unfold orReturn, mbind, M_bind.
  destruct (Hm w) as (n1 & Hp1 & Hs1 & Hq1).
  destruct (m w) as [[a | e] w1]; cbn [fst snd] in *.
  - destruct (Hk a w1) as (n2 & Hp2 & Hs2 & Hq2).
    exists (n2 ++ n1). split; [rewrite Hp2, Hp1, app_assoc; reflexivity |].
    split.
    + apply startsAfterSuccess_app; [exact Hs2 | exact Hs1 | exact (Hq1 I)].
    + intros Hok. apply quietExits_app; [exact (Hq2 Hok) | exact (Hq1 I)].
  - exists n1. split; [exact Hp1 |]. split; [exact Hs1 | intros []].
Qed.

Lemma failFast_orReturnDir {A} tempDir (m : M (result A)) k :
  failFast isOk m -> (forall a, failFast succeeded (k a)) ->
  failFast succeeded (mergebot.orReturnDir tempDir m k).
Proof.
  intros Hm Hk w. unfold mergebot.orReturnDir, mbind, M_bind.
  destruct (Hm w) as (n1 & Hp1 & Hs1 & Hq1).
  destruct (m w) as [[a | e] w1]; cbn [fst snd] in *.
  - destruct (Hk a w1) as (n2 & Hp2 & Hs2 & Hq2).
    exists (n2 ++ n1). split; [rewrite Hp2, Hp1, app_assoc; reflexivity |].
    split.
    + apply startsAfterSuccess_app; [exact Hs2 | exact Hs1 | exact (Hq1 I)].
    + intros Hok. apply quietExits_app; [exact (Hq2 Hok) | exact (Hq1 I)].
  - exists n1. split; [exact Hp1 |]. split; [exact Hs1 | intros []].
Qed.

End FailFast.

Section FailFastRun.

Context `{Formats} (h : Host).

Import loggedexec.

Lemma childEvents_process l logFile c :
  exists newer0 older0,
    childEvents h l logFile c = newer0 ++ older0
    /\ Forall (fun e => forall a d x, e <> Started a d x) newer0
    /\ Forall (fun e => forall st, e <> Exited (Some st)) older0
    /\ (childStatus c = None -> Forall (fun e => forall st, e <> Exited (Some st)) newer0).
Proof.
  destruct c as [e | chunks status].
  - exists [], []. repeat split; constructor.
  - exists (Exited status :: List.rev (map (Wrote logFile) chunks)),
           [Started (Args l) (Dir l) (childEnviron h l)].
    split; [reflexivity |].
    assert (Hw : forall P : event -> Prop, (forall p, P (Wrote logFile p)) ->
                 Forall P (List.rev (map (Wrote logFile) chunks))).
    { intros P HP. apply List.Forall_forall. intros e Hin.
      apply in_rev, in_map_iff in Hin as (p & <- & _). apply HP. }
    split; [| split].
    + constructor; [discriminate | apply Hw; discriminate].
    + repeat constructor. discriminate.
    + cbn [childStatus]. intros ->. constructor; [discriminate | apply Hw; discriminate].
Qed.

Lemma runCase_process l n w r new :
  runCase h l n w r new ->
  exists newer0 older0,
    new = newer0 ++ older0
    /\ Forall (fun e => forall a d x, e <> Started a d x) newer0
    /\ Forall (fun e => forall st, e <> Exited (Some st)) older0
    /\ (isOk r -> Forall (fun e => forall st, e <> Exited (Some st)) newer0).
Proof.
  pose proof (childEvents_process l (logPath h l n) (child h (childOp l w)))
    as (n0 & o0 & Hchild & Hn0 & Ho0 & Hq0).
  assert (Hprep : Forall (fun e => forall st, e <> Exited (Some st)) (o0 ++ prepared h l n w)).
  { apply Forall_app. split; [exact Ho0 |]. repeat constructor; discriminate. }
  intros [e Hdir F | e F | e F | e F | e F | e f Hf F | f Hf].
  - exists [], []. split; [reflexivity |]. split; [constructor |].
    split; [constructor | intros []].
  - exists [], []. split; [reflexivity |]. split; [constructor |].
    split; [constructor | intros []].
  - exists [], [Created (invocationLogPath h l n)].
    split; [reflexivity |]. split; [constructor |].
    split; [repeat constructor; discriminate | intros []].
  - exists [], [Wrote (invocationLogPath h l n) (provisionalLog h l w);
                Created (invocationLogPath h l n)].
    split; [reflexivity |]. split; [constructor |].
    split; [repeat constructor; discriminate | intros []].
  - exists n0, (o0 ++ prepared h l n w).
    split; [unfold ran; rewrite Hchild, <- app_assoc; reflexivity |].
    split; [exact Hn0 |]. split; [exact Hprep | intros []].
  - exists (Wrote f (finalLog h l w) :: Created f :: n0), (o0 ++ prepared h l n w).
    split; [unfold finalised, ran; rewrite Hchild, <- app_assoc; reflexivity |].
    split; [repeat (constructor; [discriminate |]); exact Hn0 |].
    split; [exact Hprep | intros []].
  - exists (Renamed f (invocationLogPath h l n) :: Wrote f (finalLog h l w)
              :: Created f :: n0), (o0 ++ prepared h l n w).
    split; [unfold completed, finalised, ran; rewrite Hchild, <- app_assoc; reflexivity |].
    split; [repeat (constructor; [discriminate |]); exact Hn0 |].
    split; [exact Hprep |].
    unfold outcome. intros Hok.
    repeat (constructor; [discriminate |]). apply Hq0.
    destruct (childStatus (child h (childOp l w))); [destruct Hok | reflexivity].
Qed.

Lemma failFast_Run l : failFast isOk (Run h l).
Proof.
  intros w. destruct (Run_cases h l w) as (new & Hcase & Hpast & _).
  apply runCase_process in Hcase as (n0 & o0 & -> & Hn0 & Ho0 & Hq0).
  exists (n0 ++ o0 ++ [Printed (strings.Join (Args l) " ")]).
  split; [rewrite Hpast, <- !app_assoc; reflexivity |].
  assert (Ho : quietExits (o0 ++ [Printed (strings.Join (Args l) " ")])).
  { apply quietExits_Forall, Forall_app. split; [exact Ho0 |].
    repeat constructor. discriminate. }
  split.
  - apply startsAfterSuccess_split; [exact Hn0 | exact Ho].
  - intros Hok. apply quietExits_app; [| exact Ho].
    apply quietExits_Forall. exact (Hq0 Hok).
Qed.

Import mergebot.

Lemma failFast_Output cmd : failFast isOk (Output h cmd).
Proof.
  intros w. unfold Output, nextOp, emit. unfold mbind, M_bind, mret, M_ret.
  cbn [fs0 past tick cmdCount].
  destruct (child h (tick w)) as [e | chunks status]; cbn [fst snd past].
  - exists []. split; [reflexivity |].
    split; [intros [| ? ?] ? ? ? ? Heq; discriminate Heq | intros []].
  - exists ([Exited status] ++ [Started (Args cmd) (Dir cmd) (childEnviron h cmd)]).
    split; [reflexivity |]. split.
    + apply startsAfterSuccess_split; [repeat constructor; discriminate |].
      apply quietExits_Forall. repeat constructor. discriminate.
    + destruct status as [e |]; [intros [] | intros _].
      apply quietExits_Forall. repeat constructor; discriminate.
Qed.

Lemma failFast_gitConfig newCommand gitConfigArgs :
  failFast isOk (gitConfig h newCommand gitConfigArgs).
Proof.
  induction gitConfigArgs as [| configArgs rest IH]; cbn [gitConfig].
  - apply failFast_ret.
  - apply failFast_orReturn; [apply failFast_Run | intros _; exact IH].
Qed.

End FailFastRun.

Ltac fail_fast :=
  repeat first
    [ apply failFast_Run
    | apply failFast_Output
    | apply failFast_gitConfig
    | apply failFast_ret
    | apply failFast_nextOp
    | apply failFast_getFS
    | match goal with
      | |- failFast _ (mergebot.orReturnDir _ _ _) =>
          apply failFast_orReturnDir; [| intros ?]
      | |- failFast _ (orReturn _ _) => apply failFast_orReturn; [| intros ?]
      | |- failFast _ (_ ≫= _) => apply failFast_bind; [| intros ?]
      | |- failFast _ (emit _) => apply failFast_emit; intros []
      | |- failFast _ (match ?x with _ => _ end) => destruct x
      end ].

Section FailFastPipeline.

Context `{Formats} (h : Host).

Import mergebot.

Lemma failFast_stages flags url tempDir :
  failFast succeeded (stages h flags url tempDir).
Proof.
  unfold stages, ioutil.WriteFile, repositoryFor, gitCheckout, sha256of,
    applyPatch, gitCommit, releaseChangelog, Abs, buildPackage, os.Getwd, fallible.
  fail_fast.
Qed.

Lemma failFast_mergeAndBuild flags url :
  failFast succeeded (mergeAndBuild h flags url).
Proof.
  unfold mergeAndBuild, ioutil.TempDir. fail_fast. apply failFast_stages.
Qed.

(** X13.  In a run of [mergeAndBuild] a process is started only when every
    process started before it has exited with status 0, and [mergeAndBuild]
    returns without an error only if every process it started has exited
    with status 0. *)
Theorem no_process_after_a_failed_one (flags : Flags) (url : string) (w : World) :
  exists new,
    past (snd (mergeAndBuild h flags url w)) = new ++ past w
    /\ (forall newer args dir env older,
          new = newer ++ Started args dir env :: older ->
          forall status, ~ In (Exited (Some status)) older)
    /\ (forall tempDir,
          fst (mergeAndBuild h flags url w) = Returned (tempDir, None) ->
          forall status, ~ In (Exited (Some status)) new).
Proof.
  destruct (failFast_mergeAndBuild flags url w) as (new & Hpast & Hstart & Hquiet).
  exists new. split; [exact Hpast |]. split; [exact Hstart |].
  intros tempDir Hret. apply Hquiet. rewrite Hret. exact I.
Qed.

End FailFastPipeline.

(** ** The process of an invocation *)

Section Started.

Context `{Formats} (h : Host).

Import loggedexec.

Lemma runCase_started l n w r new args dir env :
  runCase h l n w r new -> In (Started args dir env) new ->
  args = Args l /\ dir = Dir l /\ env = childEnviron h l.
Proof.
  assert (Hran : In (Started args dir env) (ran h l n w) ->
                 args = Args l /\ dir = Dir l /\ env = childEnviron h l).
  { unfold ran. intros Hin. apply in_app_or in Hin as [Hin | Hin].
    - destruct (child h (childOp l w)) as [e | chunks status]; [destruct Hin |].
      cbn [childEvents] in Hin. destruct Hin as [Heq | Hin]; [discriminate |].
      apply in_app_or in Hin as [Hin | [Heq | []]].
      + apply in_rev, in_map_iff in Hin as (p & Heq & _). discriminate.
      + injection Heq as <- <- <-. repeat split.
    - repeat (destruct Hin as [Heq | Hin]; [discriminate |]). destruct Hin. }
  intros [e Hdir F | e F | e F | e F | e F | e f Hf F | f Hf] Hin.
  - destruct Hin.
  - destruct Hin.
  - repeat (destruct Hin as [Heq | Hin]; [discriminate |]). destruct Hin.
  - repeat (destruct Hin as [Heq | Hin]; [discriminate |]). destruct Hin.
  - exact (Hran Hin).
  - repeat (destruct Hin as [Heq | Hin]; [discriminate |]). exact (Hran Hin).
  - repeat (destruct Hin as [Heq | Hin]; [discriminate |]). exact (Hran Hin).
Qed.

Lemma Run_started l w args dir env :
  exists new,
    past (snd (Run h l w)) = new ++ past w
    /\ (In (Started args dir env) new ->
        args = Args l /\ dir = Dir l /\ env = childEnviron h l).
Proof.
  destruct (Run_cases h l w) as (new & Hcase & Hpast & _).
  exists (new ++ [Printed (strings.Join (Args l) " ")]).
  split; [rewrite Hpast, <- app_assoc; reflexivity |].
  intros Hin. apply in_app_or in Hin as [Hin | [Heq | []]]; [| discriminate].
  exact (runCase_started _ _ _ _ _ _ _ _ Hcase Hin).
Qed.

End Started.

(** ** The editor of [gbp dch] *)

Section Editor.

Context `{Formats} (h : Host).

Import mergebot.

Lemma forwardEnv_fields env variables cmd :
  loggedexec.Name (forwardEnv env variables cmd) = loggedexec.Name cmd
  /\ loggedexec.Arg (forwardEnv env variables cmd) = loggedexec.Arg cmd
  /\ loggedexec.Dir (forwardEnv env variables cmd) = loggedexec.Dir cmd
  /\ loggedexec.LogDir (forwardEnv env variables cmd) = loggedexec.LogDir cmd
  /\ loggedexec.LogFmt (forwardEnv env variables cmd) = loggedexec.LogFmt cmd.
Proof.
  revert cmd. induction variables as [| variable rest IH]; intros cmd.
  - repeat split.
  - cbn [forwardEnv]. destruct (os.LookupEnv env variable) as [value |]; [| apply IH].
    destruct (IH (loggedexec.appendEnv cmd (variable +:+ "=" +:+ value)))
      as (-> & -> & -> & -> & ->).
    repeat split.
Qed.

Lemma pipeline_command tempDir checkoutDir name arg :
  let cmd := checkoutCommand (tempDirCommand h tempDir) checkoutDir name arg in
  loggedexec.Args cmd = name :: arg
  /\ loggedexec.Dir cmd = checkoutDir
  /\ loggedexec.LogDir cmd = tempDir
  /\ loggedexec.LogFmt cmd = "%03d-".
Proof.
  intros cmd. subst cmd. unfold checkoutCommand, tempDirCommand, loggedexec.Args.
  cbn [loggedexec.withDir loggedexec.Name loggedexec.Arg loggedexec.Dir
       loggedexec.LogDir loggedexec.LogFmt].
  match goal with
  | |- context [forwardEnv ?env ?vs ?c] =>
      destruct (forwardEnv_fields env vs c) as (-> & -> & _ & -> & ->)
  end.
  repeat split.
Qed.

(** X14.  Whatever the ambient environment, the process [releaseChangelog]
    starts for a command of the pipeline is [gbp dch --release --git-author
    --commit] in the checkout directory, and its environment is made of the
    allow-listed variables that are set, followed by [VISUAL], which names
    the program itself by an absolute path, with the flag
    [-filter_changelog]. *)
Theorem releaseChangelog_environment (tempDir checkoutDir : string) (w : World)
  (args : list string) (dir : string) (env : list string) :
  let newCommand := checkoutCommand (tempDirCommand h tempDir) checkoutDir in
  let self := if strings.HasPrefix (args0 h) "/" then filepath.Clean (args0 h)
              else filepath.Join [wd h; args0 h] in
  exists new,
    past (snd (releaseChangelog h newCommand w)) = new ++ past w
    /\ (In (Started args dir env) new ->
        args = ["gbp"; "dch"; "--release"; "--git-author"; "--commit"]
        /\ dir = checkoutDir
        /\ env = forwarded (environ h) passthrough
                 ++ ["VISUAL=" +:+ self +:+ " -filter_changelog"]).
Proof.
  intros newCommand self.
  assert (Henv : forall s,
    loggedexec.childEnviron h
      (loggedexec.appendEnv
         (newCommand "gbp" ["dch"; "--release"; "--git-author"; "--commit"]) s)
    = forwarded (environ h) passthrough ++ [s]).
  { intros s. unfold loggedexec.childEnviron. cbn [loggedexec.appendEnv loggedexec.Env].
    subst newCommand. unfold checkoutCommand. cbn [loggedexec.withDir loggedexec.Env].
    rewrite tempDirCommand_Env.
    destruct (forwarded (environ h) passthrough); reflexivity. }
  unfold releaseChangelog, Abs, orReturn, os.Getwd, fallible, nextOp.
  unfold mbind, M_bind, mret, M_ret. subst self.
  destruct (strings.HasPrefix (args0 h) "/").
  - match goal with
    | |- context [loggedexec.Run h ?l w] =>
        destruct (Run_started h l w args dir env) as (new & Hpast & Hin)
    end.
    exists new. split; [exact Hpast |]. intros Hnew.
    destruct (Hin Hnew) as (-> & -> & ->). rewrite Henv.
    destruct (pipeline_command tempDir checkoutDir "gbp"
                ["dch"; "--release"; "--git-author"; "--commit"]) as (Ha & Hd & _).
    split; [exact Ha |]. split; [exact Hd | reflexivity].
  - cbn [fs0 past tick cmdCount]. destruct (fault h (tick w)) as [e |].
    + exists []. split; [reflexivity | intros []].
    + match goal with
      | |- context [loggedexec.Run h ?l ?w1] =>
          destruct (Run_started h l w1 args dir env) as (new & Hpast & Hin)
      end.
      exists new. split; [exact Hpast |]. intros Hnew.
      destruct (Hin Hnew) as (-> & -> & ->). rewrite Henv.
      destruct (pipeline_command tempDir checkoutDir "gbp"
                  ["dch"; "--release"; "--git-author"; "--commit"]) as (Ha & Hd & _).
      split; [exact Ha |]. split; [exact Hd | reflexivity].
Qed.

End Editor.

(** ** [main] *)

Section MainFacts.

Context `{Formats} (h : Host).

Import mergebot.

(** X15.  A number sign before the bug number makes no difference: with
    [-bug=#N] the program does what it does with [-bug=N]. *)
Theorem main_drops_the_number_sign (sourcePackage bug : string)
  (mode : bool) (args : list string) :
  strings.HasPrefix bug "#" = false ->
  main h (MkFlags sourcePackage ("#" +:+ bug)) mode args
  = main h (MkFlags sourcePackage bug) mode args.
Proof.
  intros Hbug. unfold main. cbn [mergebot.bug mergebot.sourcePackage].
  assert (H0 : TrimPrefix bug "#" = bug) by (unfold TrimPrefix; rewrite Hbug; reflexivity).
  assert (H1 : TrimPrefix ("#" +:+ bug) "#" = bug) by (destruct bug; reflexivity).
  rewrite H0, H1. reflexivity.
Qed.

Lemma mergeAndBuild_returned flags url w dir err :
  fst (mergeAndBuild h flags url w) = Returned (dir, err) ->
  err = None \/ dir <> EmptyString ->
  exists new,
    past (snd (mergeAndBuild h flags url w)) = new ++ past w
    /\ In (MadeDir dir) new
    /\ dir ∈ dirs (fsOf (snd (mergeAndBuild h flags url w))).
Proof.
  destruct (mergeAndBuild h flags url w) as [r w'] eqn:Hrun. cbn [fst snd].
  intros -> Hmade.
  unfold mergeAndBuild, ioutil.TempDir, nextOp, getFS, emit in Hrun.
  unfold mbind, M_bind, mret, M_ret in Hrun. cbn [tick fs0 past cmdCount] in Hrun.
  destruct (fault h (tick w)) as [e |].
  { injection Hrun as <- <- _. destruct Hmade as [? | ?]; [discriminate | congruence]. }
  match type of Hrun with
  | context [ioutil.freshName ?taken ?d ?pfx ?tries] =>
      destruct (ioutil.freshName taken d pfx tries) as [tempDir |]
  end.
  2: { injection Hrun as <- <- _. destruct Hmade as [? | ?]; [discriminate | congruence]. }
  cbn [tick fs0 past cmdCount] in Hrun.
  set (w1 := MkWorld (fs0 w) (MadeDir tempDir :: past w) (S (tick w)) (cmdCount w)) in Hrun.
  destruct (grows_stages h flags url tempDir w1) as (Hfs & new & Hpast & Hnew).
  pose proof (endsWith_stages h flags url tempDir w1) as Hend.
  rewrite Hrun in Hfs, Hpast, Hend. cbn [fst snd] in *. subst dir.
  exists (new ++ [MadeDir tempDir]).
  split; [rewrite Hpast, <- app_assoc; reflexivity |].
  split; [apply in_or_app; right; left; reflexivity |].
  unfold fsOf. rewrite Hpast. apply made_dir_stays.
  apply in_or_app. right. left. reflexivity.
Qed.

(** X16.  When the program, run to merge and build, returns from [main]
    instead of exiting, the last lines it has printed are the instructions
    for the push and the upload, and the directory they name is the one
    [mergeAndBuild] has returned without an error: it was made in this run
    and it is there. *)
Theorem main_prints_the_directory (flags : Flags) (args : list string) (w : World) :
  fst (main h flags false args w) = Returned tt ->
  let w' := snd (main h flags false args w) in
  exists tempDir before,
    past w'
    = Printed "(cd export && debsign *.changes && dput *.changes)"
      :: Printed "(cd repo && git push)"
      :: Printed ("cd " +:+ Quote tempDir)
      :: Printed "Please introspect the resulting Debian package and git repository, then push and upload:"
      :: Printed "Merge and build successful!"
      :: before ++ past w
    /\ In (MadeDir tempDir) before
    /\ tempDir ∈ dirs (fsOf w').
Proof.
  intros Hret w'. subst w'. revert Hret.
  unfold main, Fatal, emit. unfold mbind, M_bind, mret, M_ret.
  cbn [fs0 past tick cmdCount].
  match goal with
  | |- context [mergeAndBuild h ?fl ?url ?w1] =>
      pose proof (mergeAndBuild_returned fl url w1) as Hmb;
      destruct (mergeAndBuild h fl url w1) as [[[tempDir [e |]] | msg] w2]
  end; cbn [fst snd fs0 past tick cmdCount] in *; try discriminate.
  intros _. destruct (Hmb tempDir None eq_refl (or_introl eq_refl)) as (new & Hpast & Hin & Hdir).
  exists tempDir, (new ++ [Printed ("will work on package " +:+ Quote (sourcePackage flags)
                             +:+ ", bug " +:+ Quote (TrimPrefix (bug flags) "#"))]).
  split; [rewrite Hpast, <- app_assoc; reflexivity |].
  split; [apply in_or_app; left; exact Hin |].
  exact Hdir.
Qed.

(** X27.  The directory [mergeAndBuild] returns is new: it is
    [mergebot-<suffix>] in the directory named by [TMPDIR], or in [/tmp]
    when [TMPDIR] is not set or empty; before the call there was neither a
    file nor a directory of that name, and after the call the directory is
    there.  The exception is the failure to make the directory, where
    nothing has happened and the empty path is returned with the error. *)
Theorem mergeAndBuild_makes_a_new_directory (flags : Flags) (url : string)
  (w : World) (dir : string) (err : option string) :
  let w' := snd (mergeAndBuild h flags url w) in
  fst (mergeAndBuild h flags url w) = Returned (dir, err) ->
  (past w' = past w /\ dir = EmptyString /\ err <> None)
  \/ ((exists sfx, dir = filepath.Join [os.TempDir h; "mergebot-" +:+ sfx])
      /\ files (fsOf w) !! dir = None
      /\ dir ∉ dirs (fsOf w)
      /\ dir ∈ dirs (fsOf w')).
Proof.
  intros w'. subst w'.
  destruct (mergeAndBuild h flags url w) as [r w'] eqn:Hrun. cbn [fst snd].
  intros ->.
  unfold mergeAndBuild, ioutil.TempDir, nextOp, getFS, emit in Hrun.
  unfold mbind, M_bind, mret, M_ret in Hrun. cbn [tick fs0 past cmdCount] in Hrun.
  destruct (fault h (tick w)) as [e |].
  { injection Hrun as <- <- <-. left. split; [reflexivity |]. split; [reflexivity | discriminate]. }
  match type of Hrun with
  | context [ioutil.freshName ?taken ?d ?pfx ?tries] =>
      destruct (ioutil.freshName taken d pfx tries) as [tempDir |] eqn:Hfresh
  end.
  2: { injection Hrun as <- <- <-. left.
       split; [reflexivity |]. split; [reflexivity | discriminate]. }
  cbn [tick fs0 past cmdCount] in Hrun.
  set (w1 := MkWorld (fs0 w) (MadeDir tempDir :: past w) (S (tick w)) (cmdCount w)) in Hrun.
  destruct (grows_stages h flags url tempDir w1) as (Hfs & new & Hpast & Hnew).
  pose proof (endsWith_stages h flags url tempDir w1) as Hend.
  rewrite Hrun in Hfs, Hpast, Hend. cbn [fst snd] in *. subst dir.
  apply freshName_Some in Hfresh as [Hname Hfree].
  apply orb_false_iff in Hfree as [Hfile Hdir].
  apply bool_decide_eq_false in Hfile, Hdir. apply eq_None_not_Some in Hfile.
  right. split; [exact Hname |]. split; [exact Hfile |]. split; [exact Hdir |].
  unfold fsOf. rewrite Hpast. apply made_dir_stays.
  apply in_or_app. right. left. reflexivity.
Qed.

End MainFacts.

(** ** The sequence index in the names of the log files *)

Section Decimal.

Local Open Scope N_scope.

Lemma valueAux_app a x y : valueAux a (x +:+ y) = valueAux (valueAux a x) y.
Proof.
  revert a. induction x as [| c x IH]; intros a; [reflexivity |].
  cbn [String.append valueAux]. apply IH.
Qed.

Lemma digit_value k : k < 10 -> N_of_ascii (fmt.digit k) - 48 = k.
Proof.
  intros Hk. unfold fmt.digit. rewrite N_ascii_embedding by lia. lia.
Qed.

Lemma digit_not_below k c : k < 10 -> N_of_ascii c < 48 -> Ascii.eqb (fmt.digit k) c = false.
Proof.
  intros Hk Hc. apply Ascii.eqb_neq. intros Heq.
  apply (f_equal N_of_ascii) in Heq. unfold fmt.digit in Heq.
  rewrite N_ascii_embedding in Heq by lia. lia.
Qed.

Lemma IndexByte_app x y c :
  strings.IndexByte x c = None -> strings.IndexByte y c = None ->
  strings.IndexByte (x +:+ y) c = None.
Proof.
  intros Hx Hy. induction x as [| d x IH]; [exact Hy |].
  cbn [String.append strings.IndexByte] in *.
  destruct (Ascii.eqb d c); [discriminate |].
  destruct (strings.IndexByte x c); [discriminate |].
  rewrite IH by reflexivity. reflexivity.
Qed.

(** [itoaAux] puts the decimal digits of [n] before [acc]. *)
Lemma itoaAux_digits fuel n acc :
  n < 2 ^ N.of_nat fuel ->
  exists ds, fmt.itoaAux fuel n acc = ds +:+ acc
             /\ valueAux 0 ds = n
             /\ forall c, N_of_ascii c < 48 -> strings.IndexByte ds c = None.
Proof.
  revert n acc. induction fuel as [| fuel IH]; intros n acc Hn.
  - exists EmptyString. cbn in Hn. split; [reflexivity |].
    split; [cbn; lia | reflexivity].
  - cbn [fmt.itoaAux]. assert (Hd : n mod 10 < 10) by (apply N.mod_lt; lia).
    destruct (N.ltb_spec n 10) as [Hlt | Hge].
    + exists (String (fmt.digit (n mod 10)) EmptyString). split; [reflexivity |].
      rewrite N.mod_small by exact Hlt. split.
      * cbn [valueAux]. rewrite digit_value by exact Hlt. lia.
      * intros c Hc. cbn [strings.IndexByte].
        rewrite digit_not_below by assumption. reflexivity.
    + assert (Hdiv : n / 10 < 2 ^ N.of_nat fuel).
      { rewrite Nat2N.inj_succ, N.pow_succ_r' in Hn.
        apply N.Div0.div_lt_upper_bound. lia. }
      destruct (IH (n / 10) (String (fmt.digit (n mod 10)) acc) Hdiv)
        as (ds & Heq & Hval & Hdash).
      exists (ds +:+ String (fmt.digit (n mod 10)) EmptyString).
      split; [rewrite Heq, append_assoc; reflexivity |]. split.
      * rewrite valueAux_app, Hval. cbn [valueAux]. rewrite digit_value by exact Hd.
        pose proof (N.div_mod n 10). lia.
      * intros c Hc. apply IndexByte_app; [exact (Hdash c Hc) |].
        cbn [strings.IndexByte]. rewrite digit_not_below by assumption. reflexivity.
Qed.

Lemma itoa_digits n :
  valueAux 0 (fmt.itoa n) = N.of_nat n
  /\ forall c, N_of_ascii c < 48 -> strings.IndexByte (fmt.itoa n) c = None.
Proof.
  unfold fmt.itoa.
  destruct (itoaAux_digits (S (N.to_nat (N.log2 (N.of_nat n)))) (N.of_nat n) EmptyString)
    as (ds & Heq & Hval & Hdash).
  - rewrite Nat2N.inj_succ, N2Nat.id.
    destruct (N.of_nat n) as [| p] eqn:Hp; [cbn; lia |].
    apply N.log2_spec. lia.
  - rewrite Heq, append_nil_r. split; assumption.
Qed.

Lemma padLeft_digits w s c :
  N_of_ascii c < 48 ->
  strings.IndexByte s c = None ->
  valueAux 0 (fmt.padLeft true w s) = valueAux 0 s
  /\ strings.IndexByte (fmt.padLeft true w s) c = None.
Proof.
  intros Hc Hs. unfold fmt.padLeft.
  induction (w - String.length s)%nat as [| k [IHv IHd]]; [split; [reflexivity | exact Hs] |].
  cbn [fmt.repeatByte String.append valueAux strings.IndexByte].
  split; [exact IHv |]. rewrite IHd.
  destruct (Ascii.eqb_spec "0" c) as [<- | _]; [cbn in Hc; lia | reflexivity].
Qed.

End Decimal.

Lemma untilByte_app c x y :
  strings.IndexByte x c = None -> untilByte c (x +:+ String c y) = x.
Proof.
  induction x as [| d x IH]; cbn [String.append untilByte strings.IndexByte].
  - rewrite Ascii.eqb_refl. reflexivity.
  - destruct (Ascii.eqb d c); [discriminate |].
    destruct (strings.IndexByte x c); [discriminate |].
    intros _. rewrite IH by reflexivity. reflexivity.
Qed.

Lemma IndexByte_found x y c : strings.IndexByte (x +:+ String c y) c <> None.
Proof.
  induction x as [| d x IH]; cbn [String.append strings.IndexByte].
  - rewrite Ascii.eqb_refl. discriminate.
  - destruct (Ascii.eqb d c); [discriminate |].
    destruct (strings.IndexByte (x +:+ String c y) c); [discriminate | contradiction].
Qed.

Lemma default_prefix n :
  fmt.Sprintf "%03d-" n = fmt.padLeft true 3 (fmt.itoa n) +:+ "-".
Proof. reflexivity. Qed.

(** The default prefix tells the sequence index, whatever follows it. *)
Lemma default_prefix_inj n m rest1 rest2 :
  fmt.Sprintf "%03d-" n +:+ rest1 = fmt.Sprintf "%03d-" m +:+ rest2 -> n = m.
Proof.
  rewrite !default_prefix, !append_assoc. intros Heq.
  assert (Hdash : (N_of_ascii "-" < 48)%N) by (cbn; lia).
  destruct (itoa_digits n) as [Hvn Hdn]. destruct (itoa_digits m) as [Hvm Hdm].
  destruct (padLeft_digits 3 _ "-" Hdash (Hdn _ Hdash)) as [Hpvn Hpdn].
  destruct (padLeft_digits 3 _ "-" Hdash (Hdm _ Hdash)) as [Hpvm Hpdm].
  apply (f_equal (untilByte "-")) in Heq.
  cbn [String.append] in Heq.
  rewrite !untilByte_app in Heq by assumption.
  apply Nat2N.inj. rewrite <- Hvn, <- Hvm, <- Hpvn, <- Hpvm, Heq. reflexivity.
Qed.

(** ** The last element of a path *)

Lemma SplitByte_app a b c :
  strings.SplitByte (a +:+ String c b) c = strings.SplitByte a c ++ strings.SplitByte b c.
Proof.
  induction a as [| x a IH]; cbn [String.append strings.SplitByte].
  - rewrite Ascii.eqb_refl. reflexivity.
  - rewrite IH. destruct (Ascii.eqb x c); [reflexivity |].
    pose proof (SplitByte_length a c) as Hlen.
    destruct (strings.SplitByte a c) as [| f fs]; [discriminate Hlen | reflexivity].
Qed.

Lemma Join_snoc xs e sep : strings.Join (xs ++ [e]) sep = joinEach xs sep +:+ e.
Proof.
  induction xs as [| x xs IH]; [reflexivity |].
  cbn [app joinEach fold_right]. fold (joinEach xs sep).
  rewrite !append_assoc, <- IH.
  destruct xs as [| y xs]; reflexivity.
Qed.

Lemma HasPrefix_nil s : strings.HasPrefix s "" = true.
Proof. destruct s; reflexivity. Qed.

(** An element that [Clean] keeps as it is *)
Lemma cleanStep_push rooted stack e :
  strings.IndexByte e "-" <> None -> filepath.cleanStep rooted stack e = e :: stack.
Proof.
  intros He. unfold filepath.cleanStep.
  destruct (String.eqb_spec e "") as [-> | _]; [contradiction He; reflexivity |].
  destruct (String.eqb_spec e ".") as [-> | _]; [contradiction He; reflexivity |].
  destruct (String.eqb_spec e "..") as [-> | _]; [contradiction He; reflexivity |].
  reflexivity.
Qed.

(** Joining a directory and a name without a separator puts the name,
    as it is, after a text that the directory determines. *)
Lemma Join_dir_name d :
  d <> EmptyString ->
  exists q, forall e,
    strings.IndexByte e SLASH = None -> strings.IndexByte e "-" <> None ->
    filepath.Join [d; e] = q +:+ e.
Proof.
  intros Hd.
  set (rooted := strings.HasPrefix d "/").
  set (stack := fold_left (filepath.cleanStep rooted) (strings.SplitByte d SLASH) []).
  exists ((if rooted then "/" else "") +:+ joinEach (List.rev stack) "/").
  intros e Hslash Hdash.
  cbn [filepath.Join]. destruct (String.eqb_spec d "") as [-> | _]; [contradiction |].
  cbn [strings.Join]. unfold filepath.Clean.
  assert (Hrooted : strings.HasPrefix (d +:+ "/" +:+ e) "/" = rooted).
  { subst rooted. destruct d as [| c d]; [contradiction |].
    cbn [String.append strings.HasPrefix]. rewrite !HasPrefix_nil. reflexivity. }
  rewrite Hrooted.
  change (d +:+ "/" +:+ e) with (d +:+ String SLASH e).
  rewrite SplitByte_app, (SplitByte_noByte e SLASH Hslash), fold_left_app.
  cbn [fold_left]. fold stack. rewrite cleanStep_push by exact Hdash.
  cbn [List.rev]. rewrite Join_snoc.
  assert (Hne : forall b, String.eqb (b +:+ e) "" = false).
  { intros b. apply String.eqb_neq. intros Heq. apply Hdash.
    destruct b; [cbn in Heq; subst e; reflexivity | discriminate]. }
  destruct rooted.
  - cbn [String.append String.eqb]. reflexivity.
  - rewrite Hne. reflexivity.
Qed.

Section LogNames.

Context (h : Host).

Import loggedexec.

Lemma default_prefix_name n name :
  strings.IndexByte name SLASH = None ->
  strings.IndexByte (fmt.Sprintf "%03d-" n +:+ name) SLASH = None
  /\ strings.IndexByte (fmt.Sprintf "%03d-" n +:+ name) "-" <> None.
Proof.
  intros Hname. rewrite default_prefix, append_assoc.
  assert (Hslash : (N_of_ascii SLASH < 48)%N) by (cbn; lia).
  destruct (itoa_digits n) as [_ Hd].
  destruct (padLeft_digits 3 _ SLASH Hslash (Hd _ Hslash)) as [_ Hpad].
  split; [| apply IndexByte_found].
  apply IndexByte_app; [exact Hpad |].
  cbn [String.append strings.IndexByte]. rewrite Hname. reflexivity.
Qed.

(** With the default format and a program name without a separator, the
    common prefix of the two log names is a text that the log directory
    determines, followed by the index and the name. *)
Lemma logPrefix_default logDir :
  exists q, forall l n,
    LogDir l = logDir -> LogFmt l = "%03d-" ->
    strings.IndexByte (Name l) SLASH = None ->
    logPrefix h l n = q +:+ fmt.Sprintf "%03d-" n +:+ Name l.
Proof.
  set (d := if String.eqb logDir "" then os.TempDir h else logDir).
  assert (Hd : d <> EmptyString).
  { subst d. destruct (String.eqb_spec logDir ""); [| assumption].
    unfold os.TempDir. destruct (String.eqb_spec (os.Getenv (environ h) "TMPDIR") "");
      [discriminate | assumption]. }
  destruct (Join_dir_name d Hd) as (q & Hq). exists q.
  intros l n Hdir Hfmt Hname. unfold logPrefix. rewrite Hdir, Hfmt. fold d.
  destruct (default_prefix_name n (Name l) Hname) as [Hslash Hdash].
  exact (Hq _ Hslash Hdash).
Qed.

(** X19.  With the default format [%03d-], invocations with different
    sequence indices that log to the same directory never share a log
    file, whatever the programs, as long as the program names have no
    separator: neither of the two log files of the one is a log file of the
    other. *)
Theorem log_names_never_collide (l1 l2 : LoggedCmd) (n m : nat) (p : string) :
  LogDir l1 = LogDir l2 ->
  LogFmt l1 = "%03d-" -> LogFmt l2 = "%03d-" ->
  strings.IndexByte (Name l1) SLASH = None ->
  strings.IndexByte (Name l2) SLASH = None ->
  n <> m ->
  In p [invocationLogPath h l1 n; logPath h l1 n] ->
  ~ In p [invocationLogPath h l2 m; logPath h l2 m].
Proof.
  intros Hdir Hf1 Hf2 Hn1 Hn2 Hnm Hin1 Hin2.
  destruct (logPrefix_default (LogDir l2)) as (q & Hq).
  assert (Hcollide : exists s1 s2,
            (logPrefix h l1 n +:+ s1) = (logPrefix h l2 m +:+ s2)).
  { unfold invocationLogPath, logPath in *.
    destruct Hin1 as [<- | [<- | []]]; destruct Hin2 as [Heq | [Heq | []]];
      eexists; eexists; symmetry; exact Heq. }
  destruct Hcollide as (s1 & s2 & Heq).
  rewrite (Hq l1 n Hdir Hf1 Hn1), (Hq l2 m eq_refl Hf2 Hn2) in Heq.
  rewrite !append_assoc in Heq. apply (inj (String.append q)) in Heq.
  apply Hnm. exact (default_prefix_inj _ _ _ _ Heq).
Qed.

End LogNames.

(** ** Paths that are cleaned twice *)

Lemma Clean_cleanOf path : filepath.Clean path = cleanOf (rootedPath path) (stackOf path).
Proof. reflexivity. Qed.

Lemma cleanStep_normal rooted stack e :
  normalElem e -> filepath.cleanStep rooted stack e = e :: stack.
Proof.
  intros (H1 & H2 & H3 & _). unfold filepath.cleanStep.
  destruct (String.eqb_spec e ""); [contradiction |].
  destruct (String.eqb_spec e "."); [contradiction |].
  destruct (String.eqb_spec e ".."); [contradiction | reflexivity].
Qed.

Lemma cleanStack_nil rooted : cleanStack rooted [].
Proof. exists [], 0. split; [reflexivity |]. split; [constructor | reflexivity]. Qed.

Lemma cleanStep_cleanStack rooted stack e :
  strings.IndexByte e SLASH = None ->
  cleanStack rooted stack -> cleanStack rooted (filepath.cleanStep rooted stack e).
Proof.
  intros He (normals & k & -> & Hnormal & Hk). unfold filepath.cleanStep.
  destruct (String.eqb_spec e "") as [-> | H1]; [exists normals, k; auto |].
  destruct (String.eqb_spec e ".") as [-> | H2]; [exists normals, k; auto |].
  destruct (String.eqb_spec e "..") as [-> | H3].
  - destruct normals as [| top below].
    + cbn [app]. destruct k as [| k].
      * cbn [List.repeat]. destruct rooted.
        -- exists [], 0. split; [reflexivity |]. split; [constructor | reflexivity].
        -- exists [], 1. split; [reflexivity |]. split; [constructor | discriminate].
      * cbn [List.repeat String.eqb Ascii.eqb Bool.eqb].
        exists [], (S (S k)). split; [reflexivity |]. split; [constructor |].
        intros Hr. specialize (Hk Hr). discriminate.
    + cbn [app]. inversion Hnormal as [| ? ? Htop Hbelow]; subst.
      destruct Htop as (_ & _ & Htop & _).
      destruct (String.eqb_spec top ".."); [contradiction |].
      exists below, k. split; [reflexivity |]. split; assumption.
  - exists (e :: normals), k. split; [reflexivity |].
    split; [constructor; [repeat split; assumption | exact Hnormal] | exact Hk].
Qed.

Lemma fold_cleanStack rooted elems stack :
  Forall (fun e => strings.IndexByte e SLASH = None) elems ->
  cleanStack rooted stack ->
  cleanStack rooted (fold_left (filepath.cleanStep rooted) elems stack).
Proof.
  intros Hall. revert stack. induction Hall as [| e elems He _ IH]; intros stack Hs.
  - exact Hs.
  - cbn [fold_left]. apply IH. apply cleanStep_cleanStack; assumption.
Qed.

Lemma stackOf_cleanStack path : cleanStack (rootedPath path) (stackOf path).
Proof.
  apply fold_cleanStack; [apply SplitByte_fields | apply cleanStack_nil].
Qed.

(** Cleaning the elements of a clean stack, the first one first, gives the
    stack back. *)
Lemma fold_dots k j :
  fold_left (filepath.cleanStep false) (List.repeat ".." k) (List.repeat ".." j)
  = List.repeat ".." (k + j).
Proof.
  revert j. induction k as [| k IH]; intros j; [reflexivity |].
  cbn [List.repeat fold_left].
  assert (Hstep : filepath.cleanStep false (List.repeat ".." j) ".."
                  = List.repeat ".." (S j)) by (destruct j; reflexivity).
  rewrite Hstep, IH. f_equal. lia.
Qed.

Lemma fold_normals rooted normals stack :
  Forall normalElem normals ->
  fold_left (filepath.cleanStep rooted) (List.rev normals) stack = normals ++ stack.
Proof.
  induction 1 as [| e normals He _ IH]; [reflexivity |].
  cbn [List.rev]. rewrite fold_left_app, IH. cbn [fold_left].
  apply cleanStep_normal. exact He.
Qed.

Lemma rev_repeat {A} (x : A) k : List.rev (List.repeat x k) = List.repeat x k.
Proof.
  induction k as [| k IH]; [reflexivity |].
  cbn [List.repeat List.rev]. rewrite IH. clear IH.
  induction k as [| k IH]; [reflexivity |].
  cbn [List.repeat app]. rewrite IH. reflexivity.
Qed.

Lemma fold_clean_again rooted stack :
  cleanStack rooted stack ->
  fold_left (filepath.cleanStep rooted) (List.rev stack) [] = stack.
Proof.
  intros (normals & k & -> & Hnormal & Hk).
  rewrite rev_app_distr, rev_repeat, fold_left_app.
  assert (Hdots : fold_left (filepath.cleanStep rooted) (List.repeat ".." k) []
                  = List.repeat ".." k).
  { destruct rooted; [rewrite (Hk eq_refl); reflexivity |].
    pose proof (fold_dots k 0) as Hd. cbn [List.repeat] in Hd.
    rewrite Nat.add_0_r in Hd. exact Hd. }
  rewrite Hdots. apply fold_normals. exact Hnormal.
Qed.

Lemma cleanStack_fields rooted stack :
  cleanStack rooted stack ->
  Forall (fun e => strings.IndexByte e SLASH = None /\ e <> EmptyString) stack.
Proof.
  intros (normals & k & -> & Hnormal & _). apply Forall_app. split.
  - eapply Forall_impl; [exact Hnormal |]. intros e (H1 & _ & _ & H4). split; assumption.
  - apply List.Forall_forall. intros e Hin. apply repeat_spec in Hin as ->.
    split; [reflexivity | discriminate].
Qed.

Lemma SplitByte_joinEach xs e :
  Forall (fun x => strings.IndexByte x SLASH = None) xs ->
  strings.IndexByte e SLASH = None ->
  strings.SplitByte (joinEach xs "/" +:+ e) SLASH = xs ++ [e].
Proof.
  intros Hall He. induction Hall as [| x xs Hx _ IH].
  - cbn [joinEach fold_right String.append app]. apply SplitByte_noByte. exact He.
  - cbn [joinEach fold_right]. fold (joinEach xs "/").
    rewrite !append_assoc.
    change (x +:+ "/" +:+ joinEach xs "/" +:+ e)
      with (x +:+ String SLASH (joinEach xs "/" +:+ e)).
    rewrite SplitByte_app, IH, (SplitByte_noByte x SLASH Hx). reflexivity.
Qed.

Lemma rootedPath_app d rest :
  d <> EmptyString -> rootedPath (d +:+ rest) = rootedPath d.
Proof.
  intros Hd. unfold rootedPath. destruct d as [| c d]; [contradiction |].
  cbn [String.append strings.HasPrefix]. rewrite !HasPrefix_nil. reflexivity.
Qed.

(** What follows a separator is cleaned on top of what comes before it. *)
Lemma Clean_app d rest :
  d <> EmptyString ->
  filepath.Clean (d +:+ "/" +:+ rest)
  = cleanOf (rootedPath d)
      (fold_left (filepath.cleanStep (rootedPath d)) (strings.SplitByte rest SLASH)
         (stackOf d)).
Proof.
  intros Hd. rewrite Clean_cleanOf. unfold stackOf.
  rewrite (rootedPath_app d _ Hd).
  change (d +:+ "/" +:+ rest) with (d +:+ String SLASH rest).
  rewrite SplitByte_app, fold_left_app. reflexivity.
Qed.

Lemma not_rooted x y :
  strings.IndexByte x SLASH = None -> x <> EmptyString -> rootedPath (x +:+ y) = false.
Proof.
  intros Hx Hne. destruct x as [| c x]; [contradiction |].
  unfold rootedPath. cbn [String.append strings.HasPrefix strings.IndexByte] in *.
  destruct (Ascii.eqb c SLASH) eqn:Hc; [discriminate |].
  change "/"%char with SLASH. rewrite Hc. reflexivity.
Qed.

(** A clean path ending in a normal element is cleaned to itself: it is
    not empty, it starts at the root when the stack does, and its elements
    are the stack. *)
Lemma cleanOf_again rooted stack e :
  cleanStack rooted stack -> normalElem e ->
  let c := cleanOf rooted (e :: stack) in
  c <> EmptyString /\ rootedPath c = rooted /\ stackOf c = e :: stack.
Proof.
  intros Hstack He c.
  pose proof (cleanStack_fields _ _ Hstack) as Hfields.
  assert (Hslashes : Forall (fun x => strings.IndexByte x SLASH = None) (List.rev stack)).
  { apply Forall_rev. eapply Forall_impl; [exact Hfields |]. intros x [Hx _]. exact Hx. }
  destruct He as (He1 & He2 & He3 & He4).
  assert (Hbody : strings.Join (List.rev (e :: stack)) "/"
                  = joinEach (List.rev stack) "/" +:+ e)
    by (cbn [List.rev]; apply Join_snoc).
  assert (Hne : forall b, String.eqb (b +:+ e) "" = false).
  { intros b. apply String.eqb_neq. intros Heq.
    destruct b; [cbn in Heq; contradiction | discriminate]. }
  assert (Hsplit : strings.SplitByte (joinEach (List.rev stack) "/" +:+ e) SLASH
                   = List.rev stack ++ [e])
    by (apply SplitByte_joinEach; assumption).
  assert (Hfold : fold_left (filepath.cleanStep rooted) (List.rev stack ++ [e]) []
                  = e :: stack).
  { rewrite fold_left_app, (fold_clean_again _ _ Hstack). cbn [fold_left].
    apply cleanStep_normal. repeat split; assumption. }
  subst c. unfold cleanOf. rewrite Hbody. destruct rooted.
  - cbn [String.append String.eqb].
    assert (Hr : rootedPath (String "/" (joinEach (List.rev stack) "/" +:+ e)) = true).
    { unfold rootedPath. cbn [strings.HasPrefix Ascii.eqb Bool.eqb]. apply HasPrefix_nil. }
    split; [discriminate |]. split; [exact Hr |].
    unfold stackOf. rewrite Hr.
    change (String "/" (joinEach (List.rev stack) "/" +:+ e))
      with (String SLASH (joinEach (List.rev stack) "/" +:+ e)).
    cbn [strings.SplitByte]. rewrite Ascii.eqb_refl, Hsplit.
    cbn [fold_left]. exact Hfold.
  - rewrite Hne.
    assert (Hr : rootedPath (joinEach (List.rev stack) "/" +:+ e) = false).
    { destruct (List.rev stack) as [| x xs] eqn:Hrev.
      - cbn [joinEach fold_right String.append].
        rewrite <- (append_nil_r e). apply not_rooted; assumption.
      - cbn [joinEach fold_right]. rewrite append_assoc.
        apply not_rooted.
        + inversion Hslashes; assumption.
        + assert (Hin : In x stack) by (apply in_rev; rewrite Hrev; left; reflexivity).
          rewrite List.Forall_forall in Hfields. exact (proj2 (Hfields x Hin)). }
    split; [apply String.eqb_neq, (Hne (joinEach (List.rev stack) "/")) |].
    split; [exact Hr |].
    unfold stackOf. rewrite Hr, Hsplit. exact Hfold.
Qed.

(** Going up from a child of a directory to a file beside the child leads
    to the file in the directory. *)
Lemma Join_beside d child name :
  normalElem child -> normalElem name ->
  filepath.Join [filepath.Join [d; child]; ".." +:+ "/" +:+ name]
  = filepath.Join [d; name].
Proof.
  intros Hchild Hname.
  assert (Hsingle : forall e, normalElem e -> strings.SplitByte e SLASH = [e]).
  { intros e (_ & _ & _ & He). apply SplitByte_noByte. exact He. }
  assert (Hup : strings.SplitByte (".." +:+ "/" +:+ name) SLASH = [".."; name]).
  { change (".." +:+ "/" +:+ name) with (".." +:+ String SLASH name).
    rewrite SplitByte_app, (Hsingle name Hname). reflexivity. }
  assert (Hpop : forall rooted stack,
            fold_left (filepath.cleanStep rooted) [".."; name] (child :: stack)
            = name :: stack).
  { intros rooted stack. cbn [fold_left].
    assert (Hstep : filepath.cleanStep rooted (child :: stack) ".." = stack).
    { unfold filepath.cleanStep. cbn [String.eqb Ascii.eqb Bool.eqb].
      destruct Hchild as (_ & _ & Hc & _).
      destruct (String.eqb_spec child ".."); [contradiction | reflexivity]. }
    rewrite Hstep. apply cleanStep_normal. exact Hname. }
  assert (Hnonempty : forall e, normalElem e -> String.eqb e "" = false).
  { intros e (He & _). apply String.eqb_neq. exact He. }
  destruct (String.eqb_spec d "") as [-> | Hd].
  - cbn [filepath.Join String.eqb]. rewrite (Hnonempty child Hchild), (Hnonempty name Hname).
    cbn [strings.Join].
    pose proof (cleanOf_again (rootedPath child) [] child
                  (cleanStack_nil _) Hchild) as (Hne & Hr & Hs).
    assert (Hclean : forall e, normalElem e -> filepath.Clean e = cleanOf false [e]).
    { intros e He. rewrite Clean_cleanOf. unfold stackOf. rewrite (Hsingle e He).
      assert (Hre : rootedPath e = false).
      { rewrite <- (append_nil_r e). destruct He as (He1 & _ & _ & He4).
        apply not_rooted; assumption. }
      rewrite Hre. cbn [fold_left]. rewrite (cleanStep_normal _ _ _ He). reflexivity. }
    rewrite (Hclean child Hchild), (Hclean name Hname).
    pose proof (cleanOf_again false [] child (cleanStack_nil _) Hchild) as (Hne' & Hr' & Hs').
    cbn zeta in Hne', Hr', Hs'.
    destruct (String.eqb_spec (cleanOf false [child]) ""); [contradiction |].
    rewrite Clean_app by exact Hne'. rewrite Hr', Hs', Hup, Hpop. reflexivity.
  - cbn [filepath.Join]. destruct (String.eqb_spec d ""); [contradiction |].
    cbn [strings.Join].
    rewrite (Clean_app d child Hd), (Clean_app d name Hd).
    rewrite (Hsingle child Hchild), (Hsingle name Hname). cbn [fold_left].
    rewrite (cleanStep_normal _ _ _ Hchild), (cleanStep_normal _ _ _ Hname).
    pose proof (cleanOf_again (rootedPath d) (stackOf d) child
                  (stackOf_cleanStack d) Hchild) as (Hne & Hr & Hs).
    cbn zeta in Hne, Hr, Hs.
    destruct (String.eqb_spec (cleanOf (rootedPath d) (child :: stackOf d)) "");
      [contradiction |].
    rewrite Clean_app by exact Hne. rewrite Hr, Hs, Hup, Hpop. reflexivity.
Qed.

(** ** The directory of a path *)

Lemma cleanOf_text rooted stack e :
  e <> EmptyString ->
  cleanOf rooted (e :: stack)
  = (if rooted then "/" else "") +:+ joinEach (List.rev stack) "/" +:+ e.
Proof.
  intros He. unfold cleanOf. cbn [List.rev]. rewrite Join_snoc.
  assert (Hne : forall b, String.eqb (b +:+ e) "" = false).
  { intros b. apply String.eqb_neq. intros Heq.
    destruct b; [cbn in Heq; contradiction | discriminate]. }
  destruct rooted.
  - cbn [String.append String.eqb]. reflexivity.
  - rewrite Hne. reflexivity.
Qed.

Lemma SplitByte_text (rooted : bool) xs e :
  Forall (fun x => strings.IndexByte x SLASH = None) xs ->
  strings.IndexByte e SLASH = None ->
  strings.SplitByte ((if rooted then "/" else "") +:+ joinEach xs "/" +:+ e) SLASH
  = (if rooted then [EmptyString] else []) ++ xs ++ [e].
Proof.
  intros Hxs He. destruct rooted.
  - change ("/" +:+ joinEach xs "/" +:+ e) with (String SLASH (joinEach xs "/" +:+ e)).
    cbn [strings.SplitByte]. rewrite Ascii.eqb_refl, SplitByte_joinEach by assumption.
    reflexivity.
  - cbn [String.append app]. apply SplitByte_joinEach; assumption.
Qed.

Lemma Join_joinEach ys sep :
  ys <> [] -> strings.Join ys sep +:+ sep = joinEach ys sep.
Proof.
  induction ys as [| y ys IH]; [contradiction |]. intros _.
  destruct ys as [| z ys].
  - cbn [strings.Join joinEach fold_right]. rewrite append_nil_r. reflexivity.
  - change (strings.Join (y :: z :: ys) sep) with (y +:+ sep +:+ strings.Join (z :: ys) sep).
    change (joinEach (y :: z :: ys) sep) with (y +:+ sep +:+ joinEach (z :: ys) sep).
    rewrite <- IH by discriminate. rewrite !append_assoc. reflexivity.
Qed.

Lemma upToLastSeparator_text (rooted : bool) xs e :
  Forall (fun x => strings.IndexByte x SLASH = None) xs ->
  strings.IndexByte e SLASH = None ->
  filepath.upToLastSeparator ((if rooted then "/" else "") +:+ joinEach xs "/" +:+ e)
  = (if rooted then "/" else "") +:+ joinEach xs "/".
Proof.
  intros Hxs He. unfold filepath.upToLastSeparator.
  rewrite (SplitByte_text rooted xs e Hxs He).
  rewrite app_assoc, rev_app_distr. cbn [List.rev app].
  destruct (List.rev ((if rooted then [EmptyString] else []) ++ xs)) as [| b before] eqn:Hrev.
  - apply (f_equal (@List.rev string)) in Hrev. rewrite rev_involutive in Hrev.
    cbn [List.rev] in Hrev. destruct rooted; [discriminate |].
    cbn [app] in Hrev. subst xs. reflexivity.
  - assert (Hlist : List.rev (b :: before) = (if rooted then [EmptyString] else []) ++ xs)
      by (rewrite <- Hrev; apply rev_involutive).
    rewrite Hlist. rewrite Join_joinEach by (destruct rooted, xs; discriminate).
    destruct rooted; reflexivity.
Qed.

(** The directory of a clean path that ends in a normal element is the
    clean path of the elements before it. *)
Lemma Dir_cleanOf rooted stack e :
  cleanStack rooted stack -> normalElem e ->
  filepath.Dir (cleanOf rooted (e :: stack)) = cleanOf rooted stack.
Proof.
  intros Hstack (He1 & _ & _ & He4).
  pose proof (cleanStack_fields _ _ Hstack) as Hfields.
  assert (Hslashes : Forall (fun x => strings.IndexByte x SLASH = None) (List.rev stack)).
  { apply Forall_rev. eapply Forall_impl; [exact Hfields |]. intros x [Hx _]. exact Hx. }
  unfold filepath.Dir.
  rewrite (cleanOf_text rooted stack e He1).
  rewrite (upToLastSeparator_text rooted _ e Hslashes He4).
  rewrite Clean_cleanOf.
  set (text := (if rooted then "/" else "") +:+ joinEach (List.rev stack) "/").
  assert (Hr : rootedPath text = rooted).
  { subst text. destruct rooted.
    - unfold rootedPath. cbn [String.append strings.HasPrefix Ascii.eqb Bool.eqb].
      apply HasPrefix_nil.
    - cbn [String.append]. destruct (List.rev stack) as [| x xs] eqn:Hrev; [reflexivity |].
      cbn [joinEach fold_right]. apply not_rooted.
      + inversion Hslashes; assumption.
      + assert (Hin : In x stack) by (apply in_rev; rewrite Hrev; left; reflexivity).
        rewrite List.Forall_forall in Hfields. exact (proj2 (Hfields x Hin)). }
  rewrite Hr. f_equal. unfold stackOf. rewrite Hr. subst text.
  rewrite <- (append_nil_r (joinEach (List.rev stack) "/")).
  rewrite (SplitByte_text rooted _ EmptyString Hslashes eq_refl).
  rewrite !fold_left_app.
  assert (Hpre : fold_left (filepath.cleanStep rooted)
                   (if rooted then [EmptyString] else []) [] = [])
    by (destruct rooted; reflexivity).
  rewrite Hpre, (fold_clean_again _ _ Hstack). reflexivity.
Qed.

(** ** The directory of the log files *)

Lemma IndexByte_kept x y c :
  strings.IndexByte x c <> None -> strings.IndexByte (x +:+ y) c <> None.
Proof.
  induction x as [| d x IH]; cbn [String.append strings.IndexByte];
    [intros Hx; contradiction |].
  destruct (Ascii.eqb d c); [discriminate |].
  destruct (strings.IndexByte x c); [| intros Hx; contradiction].
  intros _. destruct (strings.IndexByte (x +:+ y) c); [discriminate |].
  exfalso. apply IH; [discriminate | reflexivity].
Qed.

Lemma dashed_normal e :
  strings.IndexByte e "-" <> None -> strings.IndexByte e SLASH = None -> normalElem e.
Proof.
  intros Hdash Hslash.
  split; [intros ->; apply Hdash; reflexivity |].
  split; [intros ->; apply Hdash; reflexivity |].
  split; [intros ->; apply Hdash; reflexivity | exact Hslash].
Qed.

Section LogDirectory.

Context (h : Host).

Import loggedexec.

(** X28.  With the default format and a program name without a
    separator, the two log files of an invocation are directly in the log
    directory: the directory part of either path is the cleaned [LogDir], or
    the cleaned [os.TempDir()] when [LogDir] is empty. *)
Theorem log_files_are_in_the_log_directory (l : LoggedCmd) (n : nat) :
  LogFmt l = "%03d-" ->
  strings.IndexByte (Name l) SLASH = None ->
  let logDir := if String.eqb (LogDir l) "" then os.TempDir h else LogDir l in
  filepath.Dir (invocationLogPath h l n) = filepath.Clean logDir
  /\ filepath.Dir (logPath h l n) = filepath.Clean logDir.
Proof.
  intros Hfmt Hname logDir.
  assert (Hd : logDir <> EmptyString).
  { subst logDir. destruct (String.eqb_spec (LogDir l) ""); [| assumption].
    unfold os.TempDir. destruct (String.eqb_spec (os.Getenv (environ h) "TMPDIR") "");
      [discriminate | assumption]. }
  destruct (default_prefix_name n (Name l) Hname) as [Hslash Hdash].
  set (e := fmt.Sprintf "%03d-" n +:+ Name l) in *.
  assert (Hprefix : logPrefix h l n
                    = (if rootedPath logDir then "/" else "")
                      +:+ joinEach (List.rev (stackOf logDir)) "/" +:+ e).
  { unfold logPrefix. rewrite Hfmt. fold logDir. fold e.
    cbn [filepath.Join]. destruct (String.eqb_spec logDir ""); [contradiction |].
    cbn [strings.Join]. rewrite (Clean_app logDir e Hd).
    rewrite (SplitByte_noByte e SLASH Hslash). cbn [fold_left].
    rewrite (cleanStep_normal _ _ _ (dashed_normal e Hdash Hslash)).
    apply cleanOf_text. intros Heq. apply Hdash. rewrite Heq. reflexivity. }
  assert (Hdir : forall suffix,
            strings.IndexByte suffix SLASH = None ->
            filepath.Dir (logPrefix h l n +:+ suffix) = filepath.Clean logDir).
  { intros suffix Hsuffix. rewrite Hprefix, !append_assoc.
    assert (Hnormal : normalElem (e +:+ suffix)).
    { apply dashed_normal; [| apply IndexByte_app; assumption].
      apply IndexByte_kept. exact Hdash. }
    rewrite <- (cleanOf_text (rootedPath logDir) (stackOf logDir) (e +:+ suffix)
                  (proj1 Hnormal)).
    rewrite (Dir_cleanOf _ _ _ (stackOf_cleanStack logDir) Hnormal).
    symmetry. apply Clean_cleanOf. }
  split; apply Hdir; reflexivity.
Qed.

End LogDirectory.

(** ** The patch that is applied *)

Section AppliedPatch.

Context `{Formats} (h : Host).

Import mergebot.

(** X20.  The process [applyPatch] starts for a command of the pipeline is
    [patch -p1 -i <file>], run in the checkout directory [<tempDir>/repo],
    and [<file>], taken from that directory, is the path
    [<tempDir>/latest.patch] to which [mergeAndBuild] writes the patch. *)
Theorem applyPatch_reads_the_written_patch (tempDir : string) (w : World)
  (args : list string) (dir : string) (env : list string) :
  let checkoutDir := filepath.Join [tempDir; "repo"] in
  let newCommand := checkoutCommand (tempDirCommand h tempDir) checkoutDir in
  exists new,
    past (snd (applyPatch h newCommand w)) = new ++ past w
    /\ (In (Started args dir env) new ->
        dir = checkoutDir
        /\ exists file,
             args = ["patch"; "-p1"; "-i"; file]
             /\ filepath.Join [dir; file] = filepath.Join [tempDir; patchFileName]).
Proof.
  intros checkoutDir newCommand. unfold applyPatch.
  match goal with
  | |- context [loggedexec.Run h ?l w] =>
      destruct (Run_started h l w args dir env) as (new & Hpast & Hin)
  end.
  exists new. split; [exact Hpast |]. intros Hnew.
  destruct (Hin Hnew) as (-> & -> & _).
  destruct (pipeline_command h tempDir checkoutDir "patch"
              ["-p1"; "-i"; filepath.Join [".."; patchFileName]]) as (Ha & Hd & _).
  fold newCommand in Ha, Hd. rewrite Ha, Hd.
  split; [reflexivity |]. eexists. split; [reflexivity |].
  subst checkoutDir.
  apply (Join_beside tempDir "repo" "latest.patch");
    (split; [| split; [| split]]); try discriminate; reflexivity.
Qed.

End AppliedPatch.

(** ** The part the patch is taken from *)

Section Attachment.

Context `{Formats} (lib : Libraries).

Import mergebot.

Lemma nextPart_skip message p rest eof :
  isAttachment lib p = false ->
  exists line,
    nextPart lib message (p :: rest) eof = logged line (nextPart lib message rest eof).
Proof.
  unfold isAttachment. intros Hp. cbn [nextPart].
  destruct (ParseMediaType lib (ContentDisposition p)) as [[disposition params] | e].
  - rewrite Hp. cbn [negb]. eexists. reflexivity.
  - eexists. reflexivity.
Qed.

(** X21.  [getMostRecentPatch] takes the patch from the first part whose
    [Content-Disposition] is [attachment]: the parts that come after it,
    and the way the multipart stream ends, make no difference to what is
    returned and logged, be it a patch, an error or the end of the
    program. *)
Theorem first_attachment_decides (message : bugMessage)
  (skipped : list mimePart) (p : mimePart) (rest rest' : list mimePart)
  (eof eof' : option string) :
  Forall (fun q => isAttachment lib q = false) skipped ->
  isAttachment lib p = true ->
  nextPart lib message (skipped ++ p :: rest) eof
  = nextPart lib message (skipped ++ p :: rest') eof'.
Proof.
  intros Hskipped Hp. induction Hskipped as [| q skipped Hq _ IH].
  - unfold isAttachment in Hp. cbn [app nextPart].
    destruct (ParseMediaType lib (ContentDisposition p)) as [[disposition params] | e];
      [| discriminate].
    rewrite Hp. reflexivity.
  - cbn [app nextPart]. unfold isAttachment in Hq.
    destruct (ParseMediaType lib (ContentDisposition q)) as [[disposition params] | e].
    + rewrite Hq. cbn [negb]. rewrite IH. reflexivity.
    + rewrite IH. reflexivity.
Qed.

(** X22.  When no part is an attachment, [getMostRecentPatch] logs one line
    for each part and returns no patch, with the error of the multipart
    reader if it has one and the error that no attachment was found
    otherwise. *)
Theorem without_attachment (message : bugMessage) (parts : list mimePart)
  (eof : option string) :
  Forall (fun q => isAttachment lib q = false) parts ->
  length (fst (nextPart lib message parts eof)) = length parts
  /\ snd (nextPart lib message parts eof)
     = Returned (noPatch,
                 Some (default "No MIME part with Content-Disposition == attachment found"
                         eof)).
Proof.
  induction 1 as [| q parts Hq _ [IHlog IHret]].
  - destruct eof; split; reflexivity.
  - destruct (nextPart_skip message q parts eof Hq) as (line & ->).
    cbn [logged fst snd length]. split; [rewrite IHlog; reflexivity | exact IHret].
Qed.

Lemma nextPart_patch message parts eof p :
  snd (nextPart lib message parts eof) = Returned (p, None) ->
  exists skipped part rest encoded,
    parts = skipped ++ part :: rest
    /\ Forall (fun q => isAttachment lib q = false) skipped
    /\ isAttachment lib part = true
    /\ ContentTransferEncoding part = "base64"
    /\ ReadMessage lib (MsgHeader message +:+ MsgBody message)
       = Ok (getpatch.Author p, getpatch.Subject p)
    /\ content part = Ok encoded
    /\ DecodeString lib encoded = (getpatch.Data p, None).
Proof.
  induction parts as [| q parts IH]; cbn [nextPart].
  - destruct eof; discriminate.
  - intros Hret.
    assert (Hskip : isAttachment lib q = false ->
                    snd (nextPart lib message parts eof) = Returned (p, None) ->
                    exists skipped part rest encoded,
                      q :: parts = skipped ++ part :: rest
                      /\ Forall (fun q => isAttachment lib q = false) skipped
                      /\ isAttachment lib part = true
                      /\ ContentTransferEncoding part = "base64"
                      /\ ReadMessage lib (MsgHeader message +:+ MsgBody message)
                         = Ok (getpatch.Author p, getpatch.Subject p)
                      /\ content part = Ok encoded
                      /\ DecodeString lib encoded = (getpatch.Data p, None)).
    { intros Hq Hrest.
      destruct (IH Hrest) as (skipped & part & rest & encoded & -> & Hall & Hpart).
      exists (q :: skipped), part, rest, encoded.
      split; [reflexivity |]. split; [constructor; assumption | exact Hpart]. }
    unfold isAttachment in Hskip.
    destruct (ParseMediaType lib (ContentDisposition q)) as [[disposition params] | e] eqn:Hd;
      [| exact (Hskip eq_refl Hret)].
    destruct (String.eqb disposition "attachment") eqn:Ha;
      [| exact (Hskip eq_refl Hret)].
    cbn [negb] in Hret.
    destruct (String.eqb_spec (ContentTransferEncoding q) "base64") as [Hb | _];
      [| discriminate].
    destruct (ReadMessage lib (MsgHeader message +:+ MsgBody message))
      as [[from subject] | e]; [| discriminate].
    destruct (content q) as [encoded | e] eqn:Hc; [| discriminate].
    destruct (DecodeString lib encoded) as [data err] eqn:Hdec.
    cbn [snd] in Hret. injection Hret as <- ->.
    exists [], q, parts, encoded. split; [reflexivity |]. split; [constructor |].
    split; [unfold isAttachment; rewrite Hd; exact Ha |].
    split; [exact Hb |]. split; [reflexivity |]. split; [exact Hc | exact Hdec].
Qed.

(** X26.  A patch that [getMostRecentPatch] returns without an error comes
    from an answer with status 200 and a [multipart/] content type that
    holds exactly one message; its data is what decodes from the first
    part that is an attachment, which is [base64], and its author and its
    subject are the headers [From] and [Subject] of the message. *)
Theorem returned_patch (url bug : string) (p : getpatch.patch) :
  snd (getMostRecentPatch lib url bug) = Returned (p, None) ->
  exists resp mediaType params message skipped part rest eof encoded,
    Post lib url (soapRequest bug) = Ok resp
    /\ StatusCode resp = 200
    /\ ParseMediaType lib (ContentType resp) = Ok (mediaType, params)
    /\ strings.HasPrefix mediaType "multipart/" = true
    /\ DecodeEnvelope lib (Body resp) = Ok [message]
    /\ Parts lib (MsgBody message) (params "boundary") = (skipped ++ part :: rest, eof)
    /\ Forall (fun q => isAttachment lib q = false) skipped
    /\ isAttachment lib part = true
    /\ ContentTransferEncoding part = "base64"
    /\ ReadMessage lib (MsgHeader message +:+ MsgBody message)
       = Ok (getpatch.Author p, getpatch.Subject p)
    /\ content part = Ok encoded
    /\ DecodeString lib encoded = (getpatch.Data p, None).
Proof.
  unfold getMostRecentPatch.
  destruct (Post lib url (soapRequest bug)) as [resp | e] eqn:Hpost; [| discriminate].
  destruct (Nat.eqb_spec (StatusCode resp) 200) as [Hstatus | _]; [| discriminate].
  cbn [negb].
  destruct (ParseMediaType lib (ContentType resp)) as [[mediaType params] | e] eqn:Hmedia;
    [| discriminate].
  destruct (strings.HasPrefix mediaType "multipart/") eqn:Hmulti; [| discriminate].
  cbn [negb].
  destruct (DecodeEnvelope lib (Body resp)) as [[| message [| m2 bugs]] | e] eqn:Hxml;
    try discriminate.
  destruct (Parts lib (MsgBody message) (params "boundary")) as [parts eof] eqn:Hparts.
  intros Hret.
  destruct (nextPart_patch message parts eof p Hret)
    as (skipped & part & rest & encoded & -> & Hpart).
  exists resp, mediaType, params, message, skipped, part, rest, eof, encoded.
  split; [reflexivity |]. split; [exact Hstatus |]. split; [exact Hmedia |].
  split; [exact Hmulti |]. split; [exact Hxml |]. split; [exact Hparts | exact Hpart].
Qed.

End Attachment.

(** ** Filtering the filtered file *)

Section Lines.

Import Filter.


End Lines.












Section Twice.

Context (h : Host).



End Twice.

(** ** The programs of the pipeline *)

Section StartsOnly.

Context (P : list string -> string -> list string -> Prop).

Lemma startsOnly_ret {A} (a : A) : startsOnly P (mret a).
Proof. intros w. exists []. split; [reflexivity | intros ? ? ? []]. Qed.

Lemma startsOnly_nextOp : startsOnly P nextOp.
Proof. intros w. exists []. split; [reflexivity | intros ? ? ? []]. Qed.

Lemma startsOnly_getFS : startsOnly P getFS.
Proof. intros w. exists []. split; [reflexivity | intros ? ? ? []]. Qed.

Lemma startsOnly_emit e :
  (forall args dir env, e = Started args dir env -> P args dir env) ->
  startsOnly P (emit e).
Proof.
  intros He w. exists [e]. split; [reflexivity |].
  intros args dir env [Heq | []]. apply He. exact Heq.
Qed.

Lemma startsOnly_bind {A B} (m : M A) (k : A -> M B) :
  startsOnly P m -> (forall a, startsOnly P (k a)) -> startsOnly P (m ≫= k).
Proof.
  intros Hm Hk w. unfold mbind, M_bind.
  destruct (Hm w) as (n1 & Hp1 & Hs1). destruct (m w) as [a w1]. cbn [snd] in *.
  destruct (Hk a w1) as (n2 & Hp2 & Hs2).
  exists (n2 ++ n1). split; [rewrite Hp2, Hp1, app_assoc; reflexivity |].
  intros args dir env Hin. apply in_app_or in Hin as [Hin | Hin]; eauto.
Qed.

Lemma startsOnly_orReturn {A B} (m : M (result A)) (k : A -> M (result B)) :
  startsOnly P m -> (forall a, startsOnly P (k a)) -> startsOnly P (orReturn m k).
Proof.
  intros Hm Hk. unfold orReturn. apply startsOnly_bind; [exact Hm |].
  intros [a | e]; [apply Hk | apply startsOnly_ret].
Qed.

Lemma startsOnly_orReturnDir {A} tempDir (m : M (result A)) k :
  startsOnly P m -> (forall a, startsOnly P (k a)) ->
  startsOnly P (mergebot.orReturnDir tempDir m k).
Proof.
  intros Hm Hk. unfold mergebot.orReturnDir. apply startsOnly_bind; [exact Hm |].
  intros [a | e]; [apply Hk | apply startsOnly_ret].
Qed.

Lemma startsOnly_Run `{Formats} h l :
  P (loggedexec.Args l) (loggedexec.Dir l) (loggedexec.childEnviron h l) ->
  startsOnly P (loggedexec.Run h l).
Proof.
  intros Hl w.
  destruct (Run_cases h l w) as (new & Hcase & Hpast & _).
  exists (new ++ [Printed (strings.Join (loggedexec.Args l) " ")]).
  split; [rewrite Hpast, <- app_assoc; reflexivity |].
  intros args dir env Hin. apply in_app_or in Hin as [Hin | [Heq | []]]; [| discriminate].
  destruct (runCase_started h _ _ _ _ _ _ _ _ Hcase Hin) as (-> & -> & ->). exact Hl.
Qed.

Lemma startsOnly_Output h cmd :
  P (loggedexec.Args cmd) (loggedexec.Dir cmd) (loggedexec.childEnviron h cmd) ->
  startsOnly P (mergebot.Output h cmd).
Proof.
  intros Hcmd w. unfold mergebot.Output, nextOp, emit. unfold mbind, M_bind, mret, M_ret.
  cbn [fs0 past tick cmdCount].
  destruct (child h (tick w)) as [e | chunks status]; cbn [snd past].
  - exists []. split; [reflexivity | intros ? ? ? []].
  - eexists [_; _]. split; [reflexivity |].
    intros args dir env [Heq | [Heq | []]]; [discriminate |].
    injection Heq as <- <- <-. exact Hcmd.
Qed.

End StartsOnly.

Ltac starts_only_step :=
  first
    [ apply startsOnly_ret
    | apply startsOnly_nextOp
    | apply startsOnly_getFS
    | match goal with
      | |- startsOnly _ (mergebot.orReturnDir _ _ _) =>
          apply startsOnly_orReturnDir; [| intros ?]
      | |- startsOnly _ (orReturn _ _) => apply startsOnly_orReturn; [| intros ?]
      | |- startsOnly _ (loggedexec.Run _ _) => apply startsOnly_Run
      | |- startsOnly _ (mergebot.Output _ _) => apply startsOnly_Output
      | |- startsOnly _ (_ ≫= _) => apply startsOnly_bind; [| intros ?]
      | |- startsOnly _ (emit _) =>
          apply startsOnly_emit; intros ? ? ? Heq; discriminate Heq
      | |- startsOnly _ (match ?x with _ => _ end) => destruct x
      end ].

Ltac starts_only := repeat starts_only_step.

Section Programs.

Context `{Formats} (h : Host).

Import mergebot.

Lemma startsOnly_Getwd {B} P (k : string -> M (result B)) :
  startsOnly P (k (wd h)) -> startsOnly P (orReturn (os.Getwd h) k).
Proof.
  intros Hk w. unfold orReturn, os.Getwd, fallible, nextOp.
  unfold mbind, M_bind, mret, M_ret. cbn [fs0 past tick cmdCount].
  destruct (fault h (tick w)) as [e |].
  - exists []. split; [reflexivity | intros ? ? ? []].
  - exact (Hk (MkWorld (fs0 w) (past w) (S (tick w)) (cmdCount w))).
Qed.





End Programs.

(** ** The identity of the committer *)

Section Identity.

Context `{Formats} (h : Host).

Import mergebot.

Lemma startsOnly_configs tempDir checkoutDir gitConfigArgs :
  startsOnly (fun args _ _ =>
                exists configArgs, In configArgs gitConfigArgs
                                   /\ args = "git" :: "config" :: configArgs)
    (gitConfig h (checkoutCommand (tempDirCommand h tempDir) checkoutDir) gitConfigArgs).
Proof.
  induction gitConfigArgs as [| configArgs rest IH]; cbn [gitConfig]; starts_only.
  - destruct (pipeline_command h tempDir checkoutDir "git" ("config" :: configArgs))
      as (-> & _).
    exists configArgs. split; [left |]; reflexivity.
  - intros w. destruct (IH w) as (new & Hpast & Hnew). exists new.
    split; [exact Hpast |]. intros args dir env Hin.
    destruct (Hnew _ _ _ Hin) as (c & Hc & ->). exists c. split; [right; exact Hc | reflexivity].
Qed.

(** X25.  [gitCheckout] sets the name and the e-mail address of git from
    the environment and never to the empty string: a process
    [git config user.name <value>] is started only with the value of
    [DEBFULLNAME], which is not empty then, and
    [git config user.email <value>] only with the value of [DEBEMAIL],
    which is not empty then. *)
Theorem gitCheckout_identity (tempDir checkoutDir src : string) (w : World)
  (key value dir : string) (env : list string) :
  let newCommand := checkoutCommand (tempDirCommand h tempDir) checkoutDir in
  exists new,
    past (snd (gitCheckout h newCommand checkoutDir src w)) = new ++ past w
    /\ (In (Started ["git"; "config"; key; value] dir env) new ->
        (key = "user.name" \/ key = "user.email" \/ key = "push.default")
        /\ (key = "user.name" ->
            value = os.Getenv (environ h) "DEBFULLNAME" /\ value <> EmptyString)
        /\ (key = "user.email" ->
            value = os.Getenv (environ h) "DEBEMAIL" /\ value <> EmptyString)).
Proof.
  intros newCommand.
  assert (Hstarts : startsOnly
            (fun args _ _ =>
               args = ["gbp"; "clone"; "--pristine-tar"; src; checkoutDir]
               \/ exists configArgs,
                    args = "git" :: "config" :: configArgs
                    /\ (configArgs = ["push.default"; "matching"]
                        \/ (exists target, configArgs = ["--add"; "remote.origin.push"; target])
                        \/ (configArgs = ["user.name"; os.Getenv (environ h) "DEBFULLNAME"]
                            /\ os.Getenv (environ h) "DEBFULLNAME" <> EmptyString)
                        \/ (configArgs = ["user.email"; os.Getenv (environ h) "DEBEMAIL"]
                            /\ os.Getenv (environ h) "DEBEMAIL" <> EmptyString)))
            (gitCheckout h newCommand checkoutDir src)).
  { unfold gitCheckout. apply startsOnly_Getwd. starts_only_step.
    - apply startsOnly_Run. left.
      destruct (pipeline_command h tempDir checkoutDir "gbp"
                  ["clone"; "--pristine-tar"; src; checkoutDir]) as (Ha & _).
      unfold loggedexec.Args in *.
      cbn [loggedexec.withDir loggedexec.Name loggedexec.Arg] in *. exact Ha.
    - intros w0.
      match goal with
      | |- context [gitConfig h _ ?l] =>
          destruct (startsOnly_configs tempDir checkoutDir l w0) as (new & Hpast & Hnew)
      end.
      exists new. split; [exact Hpast |]. intros args dir0 env0 Hin.
      destruct (Hnew _ _ _ Hin) as (c & Hc & ->). right. exists c. split; [reflexivity |].
      destruct (String.eqb_spec (os.Getenv (environ h) "DEBFULLNAME") "") as [_ | Hname];
        destruct (String.eqb_spec (os.Getenv (environ h) "DEBEMAIL") "") as [_ | Hmail];
        cbn [app In] in Hc;
        repeat (destruct Hc as [<- | Hc];
                [first [ left; reflexivity
                       | right; left; eexists; reflexivity
                       | right; right; left; split; [reflexivity | assumption]
                       | right; right; right; split; [reflexivity | assumption] ] |]);
        destruct Hc. }
  destruct (Hstarts w) as (new & Hpast & Hnew). exists new. split; [exact Hpast |].
  intros Hin. destruct (Hnew _ _ _ Hin) as [Heq | (c & Heq & Hc)]; [discriminate |].
  injection Heq as <-.
  destruct Hc as [Hc | [(target & Hc) | [(Hc & Hne) | (Hc & Hne)]]];
    try discriminate Hc; injection Hc as -> ->.
  - split; [right; right; reflexivity |]. split; discriminate.
  - split; [left; reflexivity |]. split; [intros _; split; [reflexivity | exact Hne] | discriminate].
  - split; [right; left; reflexivity |].
    split; [discriminate | intros _; split; [reflexivity | exact Hne]].
Qed.

End Identity.

(** ** The properties on the examples *)

Lemma header_only_before_entry_witness :
  Forall (fun line => isAttribution line = false) sectionsChangelog
  /\ Filter.filterLines sectionsChangelog
     = ["wit (2.31a-3) unstable; urgency=medium"; ""]
       ++ "  [ Chris Lamb ]"
       :: ["  * Fix for “wit: please make the build reproducible” (Closes: #831331)"; ""]
  /\ isHeader "  [ Chris Lamb ]" = true
  /\ exists entry rest,
       ["  * Fix for “wit: please make the build reproducible” (Closes: #831331)"; ""]
       = entry :: rest
       /\ isEntry entry = true.
Proof.
  assert (Hall : Forall (fun line => isAttribution line = false) sectionsChangelog)
    by (repeat constructor).
  split; [exact Hall |]. split; [reflexivity |]. split; [reflexivity |].
  apply (header_only_before_entry sectionsChangelog
           ["wit (2.31a-3) unstable; urgency=medium"; ""] "  [ Chris Lamb ]");
    [exact Hall | reflexivity | reflexivity].
Defined.

Lemma blank_lines_collapse_witness :
  Forall (fun line => isAttribution line = false) sectionsChangelog
  /\ entriesUnderHeaders false sectionsChangelog = true
  /\ Filter.filterLines sectionsChangelog
     <> ["wit (2.31a-3) unstable; urgency=medium"] ++ "" :: "" :: [].
Proof.
  assert (Hall : Forall (fun line => isAttribution line = false) sectionsChangelog)
    by (repeat constructor).
  split; [exact Hall |]. split; [reflexivity |].
  apply (blank_lines_collapse sectionsChangelog); [exact Hall | reflexivity].
Defined.

Lemma filtering_again_changes_nothing_witness :
  entriesUnderHeaders false testChangelog = true
  /\ Nat.iter 3 Filter.filterLines testChangelog = Filter.filterLines testChangelog.
Proof.
  split; [reflexivity |]. apply (filtering_again_changes_nothing testChangelog 2). reflexivity.
Defined.

Lemma attribution_onward_copied_witness :
  Forall (fun line => strings.HasPrefix line " -- " = false) sectionsChangelog
  /\ strings.HasPrefix testAttribution " -- " = true
  /\ Filter.filterLines (sectionsChangelog ++ testAttribution :: [""; "  [ kept ]"; ""; ""])
     = Filter.filterLines sectionsChangelog ++ testAttribution :: [""; "  [ kept ]"; ""; ""].
Proof.
  assert (Hall : Forall (fun line => strings.HasPrefix line " -- " = false) sectionsChangelog)
    by (repeat constructor).
  split; [exact Hall |]. split; [reflexivity |].
  apply (attribution_onward_copied sectionsChangelog testAttribution); [exact Hall | reflexivity].
Defined.

Lemma filterChangelog_touches_nothing_else_witness :
  "/etc/passwd" <> "/r/debian/changelog"
  /\ dirs (fsOf (snd (filterChangelog quietHost "/r/debian/changelog" changelogWorld)))
     = dirs (fsOf changelogWorld)
  /\ (files (fsOf (snd (filterChangelog quietHost "/r/debian/changelog" changelogWorld)))
        !! "/etc/passwd"
      = files (fsOf changelogWorld) !! "/etc/passwd"
      \/ (files (fsOf changelogWorld) !! "/etc/passwd" = None
          /\ (exists sfx,
                "/etc/passwd"
                = filepath.Join [filepath.Dir "/r/debian/changelog"; ".mergebot-" +:+ sfx])
          /\ exists k e, tick changelogWorld < k /\ fault quietHost k = Some e)).
Proof.
  assert (Hne : "/etc/passwd" <> "/r/debian/changelog") by discriminate.
  split; [exact Hne |].
  exact (filterChangelog_touches_nothing_else quietHost "/r/debian/changelog"
           "/etc/passwd" changelogWorld Hne).
Defined.


Lemma run_without_working_directory_witness :
  loggedexec.Dir lsCmd = EmptyString
  /\ fault lostHost (tick (worldOf [])) = Some "getwd: no such file or directory"
  /\ @loggedexec.Run plainFormats lostHost lsCmd (worldOf [])
     = (Err "getwd: no such file or directory",
        MkWorld (fs0 (worldOf [])) [Printed "ls /tmp/nope"] 1 1).
Proof.
  split; [reflexivity |]. split; [reflexivity |].
  apply (@run_without_working_directory plainFormats lostHost lsCmd (worldOf [])
           "getwd: no such file or directory"); reflexivity.
Defined.


Lemma main_drops_the_number_sign_witness :
  strings.HasPrefix "831331" "#" = false
  /\ @main plainFormats quietHost (mergebot.MkFlags "wit" ("#" +:+ "831331")) false []
     = @main plainFormats quietHost (mergebot.MkFlags "wit" "831331") false [].
Proof.
  split; [reflexivity |].
  apply (@main_drops_the_number_sign plainFormats quietHost "wit" "831331" false []).
  reflexivity.
Defined.

Lemma main_prints_the_directory_witness :
  fst (@main plainFormats testHost (mergebot.MkFlags "min" "1") false [] (worldOf []))
  = mergebot.Returned tt
  /\ exists tempDir before,
       past (snd (@main plainFormats testHost (mergebot.MkFlags "min" "1") false []
                    (worldOf [])))
       = Printed "(cd export && debsign *.changes && dput *.changes)"
         :: Printed "(cd repo && git push)"
         :: Printed ("cd " +:+ @Quote plainFormats tempDir)
         :: Printed "Please introspect the resulting Debian package and git repository, then push and upload:"
         :: Printed "Merge and build successful!"
         :: before ++ past (worldOf [])
       /\ In (MadeDir tempDir) before
       /\ tempDir ∈ dirs (fsOf (snd (@main plainFormats testHost
                                       (mergebot.MkFlags "min" "1") false [] (worldOf [])))).
Proof.
  assert (Hret : fst (@main plainFormats testHost (mergebot.MkFlags "min" "1") false []
                        (worldOf []))
                 = mergebot.Returned tt) by (vm_compute; reflexivity).
  split; [exact Hret |].
  exact (@main_prints_the_directory plainFormats testHost (mergebot.MkFlags "min" "1") []
           (worldOf []) Hret).
Defined.

Lemma tempDirCommand_Env_two_runs_witness :
  Forall (fun variable =>
            os.LookupEnv (environ testHost) variable
            = os.LookupEnv (environ twoMessagesHost) variable)
         mergebot.passthrough
  /\ loggedexec.Env (mergebot.tempDirCommand testHost "/tmp/mergebot-1" "git" ["add"; "."])
     = loggedexec.Env (mergebot.tempDirCommand twoMessagesHost "/tmp/mergebot-1" "git" ["add"; "."]).
Proof.
  assert (Hall : Forall (fun variable =>
                           os.LookupEnv (environ testHost) variable
                           = os.LookupEnv (environ twoMessagesHost) variable)
                        mergebot.passthrough) by (repeat constructor).
  split; [exact Hall |].
  apply (tempDirCommand_Env_two_runs testHost twoMessagesHost). exact Hall.
Defined.

Lemma childEnviron_allow_listed_witness :
  forwarded (environ testHost) mergebot.passthrough <> []
  /\ loggedexec.childEnviron testHost
       (mergebot.tempDirCommand testHost "/tmp/mergebot-1" "git" ["add"; "."])
     = forwarded (environ testHost) mergebot.passthrough.
Proof.
  split; [discriminate |].
  apply (childEnviron_allow_listed testHost). discriminate.
Defined.

Lemma log_names_never_collide_witness :
  loggedexec.LogDir lsCmd = loggedexec.LogDir (loggedexec.Command "git" ["push"])
  /\ loggedexec.LogFmt lsCmd = "%03d-"
  /\ loggedexec.LogFmt (loggedexec.Command "git" ["push"]) = "%03d-"
  /\ strings.IndexByte (loggedexec.Name lsCmd) SLASH = None
  /\ strings.IndexByte (loggedexec.Name (loggedexec.Command "git" ["push"])) SLASH = None
  /\ 0 <> 1
  /\ In "/tmp/000-ls.invocation.log"
        [loggedexec.invocationLogPath quietHost lsCmd 0; loggedexec.logPath quietHost lsCmd 0]
  /\ ~ In "/tmp/000-ls.invocation.log"
         [loggedexec.invocationLogPath quietHost (loggedexec.Command "git" ["push"]) 1;
          loggedexec.logPath quietHost (loggedexec.Command "git" ["push"]) 1].
Proof.
  assert (Hin : In "/tmp/000-ls.invocation.log"
                  [loggedexec.invocationLogPath quietHost lsCmd 0;
                   loggedexec.logPath quietHost lsCmd 0]) by (left; reflexivity).
  repeat (split; [first [reflexivity | discriminate | exact Hin] |]).
  apply (log_names_never_collide quietHost lsCmd (loggedexec.Command "git" ["push"]) 0 1);
    first [reflexivity | discriminate | exact Hin].
Defined.

Lemma first_attachment_decides_witness :
  Forall (fun q => isAttachment lineLibraries q = false)
    [MkMimePart "inline" "" (Ok ""); MkMimePart "" "" (Ok "")]
  /\ isAttachment lineLibraries (MkMimePart "attachment" "base64" (Ok "LS0tIGEveA==")) = true
  /\ @nextPart plainFormats lineLibraries (MkBugMessage 5 "" "")
       ([MkMimePart "inline" "" (Ok ""); MkMimePart "" "" (Ok "")]
        ++ MkMimePart "attachment" "base64" (Ok "LS0tIGEveA==") :: [])
       None
     = @nextPart plainFormats lineLibraries (MkBugMessage 5 "" "")
         ([MkMimePart "inline" "" (Ok ""); MkMimePart "" "" (Ok "")]
          ++ MkMimePart "attachment" "base64" (Ok "LS0tIGEveA==")
          :: [MkMimePart "attachment" "7bit" (Ok "later")])
         (Some "multipart: NextPart: EOF").
Proof.
  assert (Hall : Forall (fun q => isAttachment lineLibraries q = false)
                   [MkMimePart "inline" "" (Ok ""); MkMimePart "" "" (Ok "")])
    by (repeat constructor).
  split; [exact Hall |]. split; [reflexivity |].
  apply (@first_attachment_decides plainFormats lineLibraries); [exact Hall | reflexivity].
Defined.

Lemma without_attachment_witness :
  Forall (fun q => isAttachment lineLibraries q = false)
    [MkMimePart "inline" "" (Ok ""); MkMimePart "" "" (Ok "")]
  /\ length (fst (@nextPart plainFormats lineLibraries (MkBugMessage 5 "" "")
                    [MkMimePart "inline" "" (Ok ""); MkMimePart "" "" (Ok "")] None))
     = length [MkMimePart "inline" "" (Ok ""); MkMimePart "" "" (Ok "")]
  /\ snd (@nextPart plainFormats lineLibraries (MkBugMessage 5 "" "")
            [MkMimePart "inline" "" (Ok ""); MkMimePart "" "" (Ok "")] None)
     = mergebot.Returned
         (noPatch,
          Some (default "No MIME part with Content-Disposition == attachment found" None)).
Proof.
  assert (Hall : Forall (fun q => isAttachment lineLibraries q = false)
                   [MkMimePart "inline" "" (Ok ""); MkMimePart "" "" (Ok "")])
    by (repeat constructor).
  split; [exact Hall |].
  exact (@without_attachment plainFormats lineLibraries (MkBugMessage 5 "" "") _ None Hall).
Defined.


Lemma returned_patch_witness :
  snd (@getMostRecentPatch plainFormats lineLibraries "http://bts" "831331")
  = mergebot.Returned
      (getpatch.MkPatch "Chris Lamb <lamby@debian.org>"
         "wit: please make the build reproducible" "attachment", None)
  /\ exists resp mediaType params message skipped part rest eof encoded,
       Post lineLibraries "http://bts" (soapRequest "831331") = Ok resp
       /\ StatusCode resp = 200
       /\ ParseMediaType lineLibraries (ContentType resp) = Ok (mediaType, params)
       /\ strings.HasPrefix mediaType "multipart/" = true
       /\ DecodeEnvelope lineLibraries (Body resp) = Ok [message]
       /\ Parts lineLibraries (MsgBody message) (params "boundary")
          = (skipped ++ part :: rest, eof)
       /\ Forall (fun q => isAttachment lineLibraries q = false) skipped
       /\ isAttachment lineLibraries part = true
       /\ ContentTransferEncoding part = "base64"
       /\ ReadMessage lineLibraries (MsgHeader message +:+ MsgBody message)
          = Ok ("Chris Lamb <lamby@debian.org>", "wit: please make the build reproducible")
       /\ content part = Ok encoded
       /\ DecodeString lineLibraries encoded = ("attachment", None).
Proof.
  assert (Hret : snd (@getMostRecentPatch plainFormats lineLibraries "http://bts" "831331")
                 = mergebot.Returned
                     (getpatch.MkPatch "Chris Lamb <lamby@debian.org>"
                        "wit: please make the build reproducible" "attachment", None))
    by (vm_compute; reflexivity).
  split; [exact Hret |].
  exact (@returned_patch plainFormats lineLibraries "http://bts" "831331" _ Hret).
Defined.

Lemma mergeAndBuild_makes_a_new_directory_witness :
  fst (@mergebot.mergeAndBuild plainFormats testHost (mergebot.MkFlags "min" "1")
         "http://bts" (worldOf []))
  = mergebot.Returned ("/tmp/mergebot-123456789", None)
  /\ ((past (snd (@mergebot.mergeAndBuild plainFormats testHost (mergebot.MkFlags "min" "1")
                    "http://bts" (worldOf [])))
       = past (worldOf [])
       /\ "/tmp/mergebot-123456789" = EmptyString /\ @None string <> None)
      \/ ((exists sfx, "/tmp/mergebot-123456789"
                       = filepath.Join [os.TempDir testHost; "mergebot-" +:+ sfx])
          /\ files (fsOf (worldOf [])) !! "/tmp/mergebot-123456789" = None
          /\ "/tmp/mergebot-123456789" ∉ dirs (fsOf (worldOf []))
          /\ "/tmp/mergebot-123456789"
             ∈ dirs (fsOf (snd (@mergebot.mergeAndBuild plainFormats testHost
                                  (mergebot.MkFlags "min" "1") "http://bts" (worldOf [])))))).
Proof.
  assert (Hret : fst (@mergebot.mergeAndBuild plainFormats testHost
                        (mergebot.MkFlags "min" "1") "http://bts" (worldOf []))
                 = mergebot.Returned ("/tmp/mergebot-123456789", None))
    by (vm_compute; reflexivity).
  split; [exact Hret |].
  exact (@mergeAndBuild_makes_a_new_directory plainFormats testHost
           (mergebot.MkFlags "min" "1") "http://bts" (worldOf []) _ _ Hret).
Defined.
Lemma log_files_are_in_the_log_directory_witness :
  loggedexec.LogFmt lsCmd = "%03d-"
  /\ strings.IndexByte (loggedexec.Name lsCmd) SLASH = None
  /\ filepath.Dir (loggedexec.invocationLogPath quietHost lsCmd 0) = filepath.Clean "/tmp"
  /\ filepath.Dir (loggedexec.logPath quietHost lsCmd 0) = filepath.Clean "/tmp".
Proof.
  split; [reflexivity |]. split; [reflexivity |].
  apply (log_files_are_in_the_log_directory quietHost lsCmd 0); reflexivity.
Defined.
